(** * Verification of [docs/generate_rst.py]

    A shallow embedding of the RST generator of nimpulseqgui
    ([docs/generate_rst.py]) and the properties of its HTML fragment
    converter, signature cleaner, page assembler, index assembler and
    orchestrator.

    Python [str] values are sequences of Unicode code points; they are
    modelled as lists of code points ([N]).  Regular expressions are
    modelled by a small backtracking matcher that produces the candidate
    matches in the order in which Python's [re] module tries them. *)

From Stdlib Require Import ZArith NArith List Ascii String Lia Bool DecimalString.
From Stdlib Require Import Floats.SpecFloat.
From Stdlib Require Import DecimalNat.
From stdpp Require Import gmap list.

Local Open Scope N_scope.
Local Open Scope list_scope.

(** ** Strings *)

Abbreviation str := (list N).

(** [u "abc"] is the Python literal ["abc"] (ASCII text only). *)
Definition u (s : string) : str := map N_of_ascii (list_ascii_of_string s).

(** The line feed character, written [\n] in the source. *)
Definition LF : str := [10].

(** [str.isspace] for one character, as CPython's [_PyUnicode_IsWhitespace];
    the regular expression class [\s] is the same set. *)
Definition is_space (c : N) : bool :=
  ((9 <=? c) && (c <=? 13)) || ((28 <=? c) && (c <=? 32))
  || (c =? 133) || (c =? 160) || (c =? 5760)
  || ((8192 <=? c) && (c <=? 8202))
  || (c =? 8232) || (c =? 8233) || (c =? 8239) || (c =? 8287) || (c =? 12288).

(** Line boundaries of [str.splitlines], as CPython's
    [_PyUnicode_IsLinebreak]. *)
Definition is_linebreak (c : N) : bool :=
  ((10 <=? c) && (c <=? 13)) || ((28 <=? c) && (c <=? 30))
  || (c =? 133) || (c =? 8232) || (c =? 8233).

Fixpoint lstrip (s : str) : str :=
  match s with
  | c :: s' => if is_space c then lstrip s' else s
  | [] => []
  end.

Definition rstrip (s : str) : str := rev (lstrip (rev s)).

(** [s.strip()] *)
Definition strip (s : str) : str := rstrip (lstrip s).

(** [s.startswith(p)], returning what follows the prefix. *)
Fixpoint strip_prefix (p s : str) : option str :=
  match p, s with
  | [], _ => Some s
  | a :: p', b :: s' => if a =? b then strip_prefix p' s' else None
  | _ :: _, [] => None
  end.

(** [s.replace(old, new)] for a non-empty [old]: occurrences are replaced
    from left to right and do not overlap.  [skip] counts the characters
    of an occurrence that are still to be passed over. *)
Fixpoint replace_from (old new : str) (skip : nat) (s : str) : str :=
  match s with
  | [] => []
  | c :: s' =>
      match skip with
      | S n => replace_from old new n s'
      | O =>
          match strip_prefix old s with
          | Some _ => new ++ replace_from old new (Nat.pred (length old)) s'
          | None => c :: replace_from old new 0 s'
          end
      end
  end.

Definition replace (old new s : str) : str := replace_from old new 0 s.

(** [sep.join(parts)] *)
Fixpoint join (sep : str) (parts : list str) : str :=
  match parts with
  | [] => []
  | [p] => p
  | p :: ps => p ++ sep ++ join sep ps
  end.

(** [c * n] for a one-character string [c]. *)
Definition times (c : str) (n : nat) : str := concat (repeat c n).

(** [str(n)] for a non-negative integer. *)
Definition str_of_nat (n : nat) : str :=
  u (NilZero.string_of_uint (Nat.to_uint n)).

(** [s.splitlines()]: [cur] is the line being read, in reverse. *)
Fixpoint splitlines_from (cur : str) (s : str) : list str :=
  match s with
  | [] => match cur with [] => [] | _ => [rev cur] end
  | c :: s' =>
      if is_linebreak c then
        match s' with
        | d :: s'' =>
            if (c =? 13) && (d =? 10)
            then rev cur :: splitlines_from [] s''
            else rev cur :: splitlines_from [] s'
        | [] => [rev cur]
        end
      else splitlines_from (c :: cur) s'
  end.

Definition splitlines (s : str) : list str := splitlines_from [] s.

(** ** Regular expressions

    The fragment of Python's [re] syntax that the program uses: literal
    text, a repeated character class ([p*], [p+], [p{n,}], greedy or
    lazy), alternation, concatenation and one capturing group. *)

Inductive regex : Type :=
| Lit (l : str)
| Rep (greedy : bool) (p : N -> bool) (lo : nat)
| Alt (r1 r2 : regex)
| Cat (r1 r2 : regex)
| Grp (r : regex).

Declare Scope regex_scope.
Delimit Scope regex_scope with re.
Bind Scope regex_scope with regex.
Infix "+++" := Cat (at level 60, right associativity) : regex_scope.
Local Open Scope regex_scope.

(** Length of the longest prefix of [s] made of characters of class [p]. *)
Fixpoint span (p : N -> bool) (s : str) : nat :=
  match s with
  | c :: s' => if p c then S (span p s') else O
  | [] => O
  end.

(** The numbers of characters a repetition may take, in the order the
    matcher tries them: longest first when greedy, shortest first when
    lazy. *)
Definition rep_counts (greedy : bool) (lo hi : nat) : list nat :=
  if (hi <? lo)%nat then []
  else if greedy then rev (seq lo (S hi - lo)) else seq lo (S hi - lo).

(** [matches r g s]: every way [r] matches a prefix of [s], as the pair of
    the text of group 1 ([g] when the group is not in [r]) and the rest of
    [s], in backtracking order. *)
Fixpoint matches (r : regex) (g : str) (s : str) : list (str * str) :=
  match r with
  | Lit l =>
      match strip_prefix l s with
      | Some rest => [(g, rest)]
      | None => []
      end
  | Rep greedy p lo =>
      map (fun k => (g, drop k s)) (rep_counts greedy lo (span p s))
  | Alt r1 r2 => matches r1 g s ++ matches r2 g s
  | Cat r1 r2 =>
      flat_map (fun '(g1, s1) => matches r2 g1 s1) (matches r1 g s)
  | Grp r1 =>
      map (fun '(_, rest) => (take (length s - length rest) s, rest))
          (matches r1 g s)
  end.

(** The match the engine reports at the start of [s], if any. *)
Definition match_at (r : regex) (s : str) : option (str * str) :=
  head (matches r [] s).

(** [re.sub(r, repl, s)], where [repl] receives the text of group 1.  The
    text is scanned from the left; at each position the pattern is tried,
    and after a match the scan goes on behind it.  [skip] counts the
    characters of the current match that are still to be passed over. *)
Fixpoint sub_from (r : regex) (repl : str -> str) (skip : nat) (s : str) : str :=
  match s with
  | [] =>
      match match_at r [] with
      | Some (g, _) => repl g
      | None => []
      end
  | c :: s' =>
      match skip with
      | S n => sub_from r repl n s'
      | O =>
          match match_at r s with
          | Some (g, rest) =>
              match (length s - length rest)%nat with
              | O => repl g ++ c :: sub_from r repl 0 s'
              | S n => repl g ++ sub_from r repl n s'
              end
          | None => c :: sub_from r repl 0 s'
          end
      end
  end.

Definition sub (r : regex) (repl : str -> str) (s : str) : str :=
  sub_from r repl 0 s.

(** Character classes *)
Definition any_char (c : N) : bool := true.            (* [.] with DOTALL *)
Definition not_newline (c : N) : bool := negb (c =? 10). (* [.] *)
Definition not_gt (c : N) : bool := negb (c =? 62).      (* [[^>]] *)
Definition newline (c : N) : bool := c =? 10.            (* [\n] *)

(** ** HTML to RST *)

(** [<[^>]+>] *)
Definition TAG_RE : regex := Lit (u "<") +++ Rep true not_gt 1 +++ Lit (u ">").

(** [<tt[^>]*>(.*?)</tt>] with DOTALL *)
Definition TT_RE : regex :=
  Lit (u "<tt") +++ Rep true not_gt 0 +++ Lit (u ">")
  +++ Grp (Rep false any_char 0) +++ Lit (u "</tt>").

(** [<p>(.*?)</p>] with DOTALL *)
Definition P_RE : regex :=
  Lit (u "<p>") +++ Grp (Rep false any_char 0) +++ Lit (u "</p>").

(** [<(?:b|strong)>(.*?)</(?:b|strong)>] *)
Definition B_RE : regex :=
  Lit (u "<") +++ Alt (Lit (u "b")) (Lit (u "strong")) +++ Lit (u ">")
  +++ Grp (Rep false not_newline 0)
  +++ Lit (u "</") +++ Alt (Lit (u "b")) (Lit (u "strong")) +++ Lit (u ">").

(** [<(?:em|i)>(.*?)</(?:em|i)>] *)
Definition EM_RE : regex :=
  Lit (u "<") +++ Alt (Lit (u "em")) (Lit (u "i")) +++ Lit (u ">")
  +++ Grp (Rep false not_newline 0)
  +++ Lit (u "</") +++ Alt (Lit (u "em")) (Lit (u "i")) +++ Lit (u ">").

(** [<ul[^>]*>] *)
Definition UL_RE : regex := Lit (u "<ul") +++ Rep true not_gt 0 +++ Lit (u ">").

(** [</ul>] *)
Definition UL_END_RE : regex := Lit (u "</ul>").

(** [<li>(.*?)</li>] with DOTALL *)
Definition LI_RE : regex :=
  Lit (u "<li>") +++ Grp (Rep false any_char 0) +++ Lit (u "</li>").

(** [\n{3,}] *)
Definition BLANKS_RE : regex := Rep true newline 3.

Definition _replace_tt (group1 : str) : str :=
  let inner := sub TAG_RE (fun _ => []) group1 in
  u "``" ++ inner ++ u "``".

(** The chain of [str.replace] calls that decodes the HTML entities. *)
Definition decode_entities (text : str) : str :=
  replace (u "&nbsp;") (u " ")
    (replace (u "&#39;") (u "'")
      (replace (u "&quot;") [34]
        (replace (u "&amp;") (u "&")
          (replace (u "&gt;") (u ">")
            (replace (u "&lt;") (u "<") text))))).

Definition _html_to_rst (html : str) : str :=
  match html with
  | [] => []
  | _ =>
      let text := sub TT_RE _replace_tt html in
      let text := sub P_RE (fun g => g ++ LF ++ LF) text in
      let text := sub B_RE (fun g => u "**" ++ g ++ u "**") text in
      let text := sub EM_RE (fun g => u "*" ++ g ++ u "*") text in
      let text := sub UL_RE (fun _ => LF) text in
      let text := sub UL_END_RE (fun _ => LF) text in
      let text := sub LI_RE (fun g => LF ++ u "- " ++ g) text in
      let text := sub TAG_RE (fun _ => []) text in
      let text := decode_entities text in
      let text := sub BLANKS_RE (fun _ => LF ++ LF) text in
      strip text
  end.

(** ** Signature cleaner *)

(** [\s*\{\..*?\.\}] with DOTALL *)
Definition _PRAGMA_RE : regex :=
  Rep true is_space 0 +++ Lit (u "{.") +++ Rep false any_char 0 +++ Lit (u ".}").

Definition _clean_code (code : str) : str :=
  strip (sub _PRAGMA_RE (fun _ => []) code).

#[local] Set Warnings "-register-all".

(** ** JSON values and exceptions

    The value [json.loads] returns.  An object is given by its items; a key
    is looked up from the left, so a list with a repeated key stands for
    the dict holding the first of its bindings. *)

Inductive json : Type :=
| JNull
| JBool (b : bool)
| JInt (z : Z)
| JFloat (f : spec_float)
| JStr (s : str)
| JArr (l : list json)
| JObj (kv : list (str * json)).

(** The exception classes the program can meet. *)
Inductive exception : Type :=
| KeyError
| AttributeError
| TypeError
| JSONDecodeError
| UnicodeDecodeError
| UnicodeEncodeError
| FileNotFoundError
| PermissionError
| OSError.

(** [isinstance(e, OSError)] *)
Definition is_OSError (e : exception) : bool :=
  match e with
  | FileNotFoundError | PermissionError | OSError => true
  | _ => false
  end.

(** The outcome of evaluating a Python expression: a value or a raised
    exception. *)
Inductive result (A : Type) : Type :=
| Ok (a : A)
| Raise (e : exception).
Arguments Ok {A} a.
Arguments Raise {A} e.

#[global] Instance result_ret : MRet result := fun _ a => Ok a.
#[global] Instance result_bind : MBind result := fun _ _ f m =>
  match m with
  | Ok a => f a
  | Raise e => Raise e
  end.

Fixpoint assoc (key : str) (kv : list (str * json)) : option json :=
  match kv with
  | [] => None
  | (k, v) :: kv' => if decide (k = key) then Some v else assoc key kv'
  end.

(** [d.get(key, dflt)]; only a dict has the method. *)
Definition dict_get (d : json) (key : str) (dflt : json) : result json :=
  match d with
  | JObj kv => Ok (default dflt (assoc key kv))
  | _ => Raise AttributeError
  end.

(** [d[key]] for a dict [d]. *)
Definition dict_item (d : json) (key : str) : result json :=
  match d with
  | JObj kv =>
      match assoc key kv with
      | Some v => Ok v
      | None => Raise KeyError
      end
  | _ => Raise TypeError
  end.

(** [bool(v)] *)
Definition truthy (v : json) : bool :=
  match v with
  | JNull => false
  | JBool b => b
  | JInt z => negb (z =? 0)%Z
  | JFloat (S754_zero _) => false
  | JFloat _ => true
  | JStr s => match s with [] => false | _ => true end
  | JArr l => match l with [] => false | _ => true end
  | JObj kv => match kv with [] => false | _ => true end
  end.

(** The values a [for] loop over [v] visits: the elements of a list, the
    keys of a dict, the characters of a str; other JSON values are not
    iterable. *)
Definition iter_values (v : json) : result (list json) :=
  match v with
  | JArr l => Ok l
  | JObj kv => Ok (map (fun p => JStr (fst p)) kv)
  | JStr s => Ok (map (fun c => JStr [c]) s)
  | _ => Raise TypeError
  end.

(** [_html_to_rst] on an arbitrary value: a falsy value gives [""], and
    [re.sub] rejects what is not a str. *)
Definition html_to_rst_value (html : json) : result str :=
  if negb (truthy html) then Ok []
  else match html with
       | JStr s => Ok (_html_to_rst s)
       | _ => Raise TypeError
       end.

(** [_clean_code] on an arbitrary value. *)
Definition clean_code_value (code : json) : result str :=
  match code with
  | JStr s => Ok (_clean_code s)
  | _ => Raise TypeError
  end.

(** ** Page assembly *)

Definition _KIND_ORDER : list str :=
  [u "skType"; u "skConst"; u "skProc"; u "skFunc"; u "skMethod";
   u "skIterator"; u "skTemplate"; u "skMacro"; u "skLet"; u "skVar"].

Definition _KIND_LABELS : gmap str str :=
  list_to_map
    [(u "skType", u "Types"); (u "skConst", u "Constants");
     (u "skProc", u "Procedures"); (u "skFunc", u "Functions");
     (u "skMethod", u "Methods"); (u "skIterator", u "Iterators");
     (u "skTemplate", u "Templates"); (u "skMacro", u "Macros");
     (u "skLet", u "Lets"); (u "skVar", u "Variables")].

(** The first loop of [_make_module_rst]:
    [by_kind.setdefault(kind, []).append(entry)] for every entry.  A kind
    that is a list or a dict is unhashable.  A kind that is hashable but
    not a str (null, a boolean, a number) is stored under a key that no
    later lookup uses, since [_KIND_ORDER] holds only strs; [by_kind]
    therefore keeps the str keys only. *)
Fixpoint group_entries (entries : list json) (by_kind : gmap str (list json))
  : result (gmap str (list json)) :=
  match entries with
  | [] => Ok by_kind
  | entry :: rest =>
      kind ← dict_get entry (u "type") (JStr (u "skProc"));
      match kind with
      | JStr k =>
          group_entries rest (<[k := default [] (by_kind !! k) ++ [entry]]> by_kind)
      | JArr _ | JObj _ => Raise TypeError
      | _ => group_entries rest by_kind
      end
  end.

(** The label and the heading of a symbol that was seen [count] times
    before. *)
Definition entry_label (module_name name : str) (count : nat) : str :=
  match count with
  | O => module_name ++ u "." ++ name
  | _ => module_name ++ u "." ++ name ++ u "." ++ str_of_nat count
  end.

Definition entry_heading (name : str) (count : nat) : str :=
  match count with
  | O => name
  | _ => name ++ u " (" ++ str_of_nat (count + 1) ++ u ")"
  end.

(** The lines one entry adds to the page. *)
Definition entry_lines (module_name name code desc : str) (count : nat) : list str :=
  let label := entry_label module_name name count in
  let heading := entry_heading name count in
  [u ".. _" ++ label ++ u ":"; []]
  ++ [heading; times (u "~") (length heading); []]
  ++ match code with
     | [] => []
     | _ => [u ".. code-block:: nim"; []]
            ++ map (fun code_line => u "   " ++ code_line) (splitlines code)
            ++ [[]]
     end
  ++ match desc with
     | [] => []
     | _ => [desc; []]
     end.

(** The loop over the entries of one section.  The name of an entry must
    be a str: a list or a dict is unhashable in [name_count.get], and any
    other value has no [len] when it becomes the heading of its first
    occurrence; both raise [TypeError]. *)
Fixpoint render_entries (module_name : str) (entries : list json)
    (name_count : gmap str nat) (lines : list str) : result (list str) :=
  match entries with
  | [] => Ok lines
  | entry :: rest =>
      name ← dict_item entry (u "name");
      code ← (dict_get entry (u "code") (JStr []) ≫= clean_code_value);
      desc ← (dict_get entry (u "description") (JStr []) ≫= html_to_rst_value);
      match name with
      | JStr name =>
          let count := default O (name_count !! name) in
          let name_count := <[name := S count]> name_count in
          render_entries module_name rest name_count
            (lines ++ entry_lines module_name name code desc count)
      | _ => Raise TypeError
      end
  end.

(** The loop over [_KIND_ORDER]. *)
Fixpoint render_sections (module_name : str) (kinds : list str)
    (by_kind : gmap str (list json)) (lines : list str) : result (list str) :=
  match kinds with
  | [] => Ok lines
  | kind :: kinds' =>
      match by_kind !! kind with
      | None | Some [] => render_sections module_name kinds' by_kind lines
      | Some entries =>
          let section := default kind (_KIND_LABELS !! kind) in
          let lines := lines ++ [section; times (u "-") (length section); []] in
          lines ← render_entries module_name entries ∅ lines;
          render_sections module_name kinds' by_kind lines
      end
  end.

(** The lines of the page, before they are joined. *)
Definition module_lines (module_name title : str) (data : json)
  : result (list str) :=
  let bar := times (u "=") (length title) in
  let lines := [bar; title; bar; []] in
  module_desc ← (dict_get data (u "moduleDescription") (JStr []) ≫= html_to_rst_value);
  let lines := match module_desc with
               | [] => lines
               | _ => lines ++ [module_desc; []]
               end in
  entries ← (dict_get data (u "entries") (JArr []) ≫= iter_values);
  by_kind ← group_entries entries ∅;
  render_sections module_name _KIND_ORDER by_kind lines.

Definition _make_module_rst (module_name title : str) (data : json)
  : result str :=
  lines ← module_lines module_name title data;
  Ok (join LF lines ++ LF).

(** ** Index page *)

Definition _make_api_index (generated : list str) : str :=
  let bar := times (u "=") 13 in
  let lines :=
    [bar; u "API Reference"; bar; [];
     u "Complete reference for all exported symbols.";
     u "Generated automatically from source docstrings via ``nim jsondoc``.";
     [];
     u ".. toctree::";
     u "   :maxdepth: 1";
     u "   :caption: Modules";
     []] in
  let lines := lines ++ map (fun name => u "   " ++ name) generated in
  let lines := lines ++ [[]] in
  join LF lines.

(** ** Orchestrator

    A module of the configured list: its name, the path of its source
    below [src/], and its title. *)
Record module_cfg : Type := {
  mod_name : str;
  mod_source : str;
  mod_title : str
}.



(** What [subprocess.run] does: it raises, or the command ends with a
    return code. *)
Inductive proc_outcome : Type :=
| ProcRaises (e : exception)
| ProcExit (returncode : Z).

(** The environment of a run.  By module name: the outcome of the
    exporter command, whether its output file exists afterwards, and the
    outcome of [json.loads(json_file.read_text())].  By path below
    [docs/]: the exception, if any, with which the file system refuses to
    open the file for writing.  Creating the output directories and
    printing the progress messages are taken to succeed; of the messages
    only the final failure report is modelled. *)
Record world : Type := {
  subprocess_run : str -> proc_outcome;
  out_file_exists : str -> bool;
  load_json : str -> result json;
  write_error : str -> option exception
}.

(** A surrogate code point, U+D800 to U+DFFF: UTF-8 has no encoding for
    it, and [str.encode("utf-8")] raises [UnicodeEncodeError]. *)
Definition is_surrogate (c : N) : bool := (55296 <=? c) && (c <=? 57343).

Definition utf8_encodable (s : str) : bool :=
  forallb (fun c => negb (is_surrogate c)) s.

(** [path.write_text(content, encoding="utf-8")]: the file is opened for
    writing, then the content is encoded and written. *)
Definition write_text (w : world) (path content : str) : result unit :=
  match write_error w path with
  | Some e => Raise e
  | None =>
      if utf8_encodable content then Ok tt else Raise UnicodeEncodeError
  end.

(** The path of the page of a module, below [docs/]. *)
Definition rst_path (name : str) : str := u "api/" ++ name ++ u ".rst".

Definition _run_jsondoc (w : world) (m : module_cfg) : result bool :=
  match subprocess_run w (mod_name m) with
  | ProcRaises FileNotFoundError => Ok false
  | ProcRaises e => Raise e
  | ProcExit returncode =>
      if negb (returncode =? 0)%Z then Ok false
      else if negb (out_file_exists w (mod_name m)) then Ok false
      else Ok true
  end.

(** The state of [main]: the two accumulators, the files written (path
    below [docs/] and content, in the order of writing) and what was
    reported on the error stream at the end. *)
Record run_state : Type := {
  generated : list str;
  errors : list str;
  files : list (str * str);
  reported : list str
}.

Definition initial_state : run_state :=
  {| generated := []; errors := []; files := []; reported := [] |}.

Definition add_error (name : str) (st : run_state) : run_state :=
  {| generated := generated st; errors := errors st ++ [name];
     files := files st; reported := reported st |}.

Definition add_generated (name content : str) (st : run_state) : run_state :=
  {| generated := generated st ++ [name]; errors := errors st;
     files := files st ++ [(u "api/" ++ name ++ u ".rst", content)];
     reported := reported st |}.

(** [except (json.JSONDecodeError, OSError)] *)
Definition caught_on_load (e : exception) : bool :=
  match e with
  | JSONDecodeError => true
  | _ => is_OSError e
  end.

(** The body of the loop of [main] for one module. *)
Definition process_module (w : world) (m : module_cfg) (st : run_state)
  : result run_state :=
  ok ← _run_jsondoc w m;
  if negb ok then Ok (add_error (mod_name m) st)
  else
    match load_json w (mod_name m) with
    | Raise e =>
        if caught_on_load e then Ok (add_error (mod_name m) st) else Raise e
    | Ok data =>
        rst_content ← _make_module_rst (mod_name m) (mod_title m) data;
        _ ← write_text w (rst_path (mod_name m)) rst_content;
        Ok (add_generated (mod_name m) rst_content st)
    end.

Fixpoint main_loop (w : world) (modules : list module_cfg) (st : run_state)
  : result run_state :=
  match modules with
  | [] => Ok st
  | m :: modules' =>
      st ← process_module w m st;
      main_loop w modules' st
  end.

(** [main], for a given module list: the value it returns and the final
    state, or the exception that ends it. *)
Definition main_on (modules : list module_cfg) (w : world)
  : result (Z * run_state) :=
  st ← main_loop w modules initial_state;
  _ ← write_text w (u "api/index.rst") (_make_api_index (generated st));
  let st :=
    {| generated := generated st; errors := errors st;
       files := files st ++ [(u "api/index.rst", _make_api_index (generated st))];
       reported := reported st |} in
  match errors st with
  | [] => Ok (0%Z, st)
  | _ =>
      Ok (1%Z,
          {| generated := generated st; errors := errors st; files := files st;
             reported := reported st
                         ++ [LF ++ u "Failed modules: " ++ join (u ", ") (errors st)] |})
  end.


(** The exit status of [sys.exit(main())]: the returned value, or 1 when
    an exception ends the program. *)
Definition exit_status (r : result (Z * run_state)) : Z :=
  match r with
  | Ok (code, _) => code
  | Raise _ => 1%Z
  end.

(** ** The document model

    The view of the loaded JSON as a DocBundle: the entries of a bundle
    and the fields of an entry, with the defaults the program applies. *)

Definition obj_field (key : str) (v : json) : option json :=
  match v with
  | JObj kv => assoc key kv
  | _ => None
  end.

Definition str_field (key : str) (dflt : str) (v : json) : str :=
  match v with
  | JObj kv =>
      match assoc key kv with
      | Some (JStr s) => s
      | _ => dflt
      end
  | _ => dflt
  end.

Definition entry_name (e : json) : str := str_field (u "name") [] e.
Definition entry_kind (e : json) : str := str_field (u "type") (u "skProc") e.
Definition entry_code (e : json) : str := str_field (u "code") [] e.
Definition entry_description (e : json) : str := str_field (u "description") [] e.

Definition bundle_description (data : json) : str :=
  str_field (u "moduleDescription") [] data.

Definition bundle_entries (data : json) : list json :=
  match data with
  | JObj kv =>
      match assoc (u "entries") kv with
      | Some (JArr l) => l
      | _ => []
      end
  | _ => []
  end.

(** A field that is a str when present. *)
Definition str_or_absent (key : str) (kv : list (str * json)) : bool :=
  match assoc key kv with
  | None | Some (JStr _) => true
  | _ => false
  end.

(** An entry of the input schema: an object with a str [name] and, when
    present, str [type], [code] and [description]. *)
Definition wf_entry (e : json) : bool :=
  match e with
  | JObj kv =>
      match assoc (u "name") kv with
      | Some (JStr _) => true
      | _ => false
      end
      && str_or_absent (u "type") kv
      && str_or_absent (u "code") kv
      && str_or_absent (u "description") kv
  | _ => false
  end.

(** A bundle of the input schema. *)
Definition wf_bundle (data : json) : bool :=
  match data with
  | JObj kv =>
      str_or_absent (u "moduleDescription") kv
      && match assoc (u "entries") kv with
         | None => true
         | Some (JArr l) => forallb wf_entry l
         | _ => false
         end
  | _ => false
  end.

(** ** The page, described by its parts *)

(** How often [name] occurs in [seen]. *)
Definition occurrences (name : str) (seen : list str) : nat :=
  length (filter (λ n, n = name) seen).

(** The lines of the entries of one section, where [seen] lists the names
    of the entries of the section already rendered. *)
Fixpoint section_body (module_name : str) (seen : list str) (entries : list json)
  : list str :=
  match entries with
  | [] => []
  | e :: rest =>
      entry_lines module_name (entry_name e) (_clean_code (entry_code e))
        (_html_to_rst (entry_description e)) (occurrences (entry_name e) seen)
      ++ section_body module_name (seen ++ [entry_name e]) rest
  end.

(** The heading of the section of [kind]. *)
Definition section_heading (kind : str) : list str :=
  let section := default kind (_KIND_LABELS !! kind) in
  [section; times (u "-") (length section); []].

(** The section of [kind] holding [entries]; nothing when there are
    none. *)
Definition section_lines (module_name kind : str) (entries : list json)
  : list str :=
  match entries with
  | [] => []
  | _ => section_heading kind ++ section_body module_name [] entries
  end.

(** The title block and the module description. *)
Definition page_head (title : str) (data : json) : list str :=
  let bar := times (u "=") (length title) in
  [bar; title; bar; []]
  ++ match _html_to_rst (bundle_description data) with
     | [] => []
     | module_desc => [module_desc; []]
     end.

(** The entries of [kind], in the order of the input. *)
Definition entries_of_kind (kind : str) (entries : list json) : list json :=
  filter (λ e, entry_kind e = kind) entries.

(** ** The page as it reads *)

(** How many entries before position [i] of a section have the name
    of [e]. *)
Definition earlier_same_name (entries : list json) (i : nat) (e : json) : nat :=
  occurrences (entry_name e) (entry_name <$> take i entries).

(** The anchor of a symbol that [n] entries of the same name precede in
    its section: [.. _module.name:] for the first one, [.. _module.name.n:]
    after [n] others. *)
Definition anchor_line (module_name name : str) (n : nat) : str :=
  u ".. _" ++ module_name ++ u "." ++ name
  ++ match n with
     | O => []
     | _ => u "." ++ str_of_nat n
     end
  ++ u ":".

(** Its heading: the name, followed by [ (n+1)] after [n] others. *)
Definition heading_line (name : str) (n : nat) : str :=
  name ++ match n with
          | O => []
          | _ => u " (" ++ str_of_nat (n + 1) ++ u ")"
          end.

(** A signature as a code block, its lines indented by three spaces;
    nothing for an empty signature. *)
Definition code_block (code : str) : list str :=
  match code with
  | [] => []
  | _ => [u ".. code-block:: nim"; []]
         ++ map (λ code_line, u "   " ++ code_line) (splitlines code)
         ++ [[]]
  end.

(** A text followed by an empty line; nothing for an empty text. *)
Definition paragraph (text : str) : list str :=
  match text with
  | [] => []
  | _ => [text; []]
  end.

(** The lines of entry [e] after [n] entries of the same name: the
    anchor, an empty line, the heading with a rule of [~] of its length,
    an empty line, the cleaned signature and the converted description. *)
Definition entry_block (module_name : str) (e : json) (n : nat) : list str :=
  anchor_line module_name (entry_name e) n
  :: []
  :: heading_line (entry_name e) n
  :: times (u "~") (length (heading_line (entry_name e) n))
  :: []
  :: code_block (_clean_code (entry_code e))
  ++ paragraph (_html_to_rst (entry_description e)).

(** The section headed [label] that holds [entries]: nothing when there
    are none; else the label with a rule of [-] of its length, an empty
    line, and the blocks of the entries one after the other. *)
Definition section_shown (module_name label : str) (entries : list json)
  : list str :=
  match entries with
  | [] => []
  | _ => [label; times (u "-") (length label); []]
         ++ concat (imap (λ i e, entry_block module_name e
                                   (earlier_same_name entries i e))
                         entries)
  end.

(** The sections of a page in the order of display: kind and label. *)
Definition SECTIONS : list (str * str) :=
  [(u "skType", u "Types"); (u "skConst", u "Constants");
   (u "skProc", u "Procedures"); (u "skFunc", u "Functions");
   (u "skMethod", u "Methods"); (u "skIterator", u "Iterators");
   (u "skTemplate", u "Templates"); (u "skMacro", u "Macros");
   (u "skLet", u "Lets"); (u "skVar", u "Variables")].

(** The page of a bundle: the head and the sections. *)
Definition page_shown (module_name title : str) (data : json) : list str :=
  page_head title data
  ++ concat (map (λ s, section_shown module_name s.2
                         (entries_of_kind s.1 (bundle_entries data)))
                 SECTIONS).

(** ** Sample inputs *)

Definition mk_entry (name kind code description : string) : json :=
  JObj [(u "name", JStr (u name)); (u "type", JStr (u kind));
        (u "code", JStr (u code)); (u "description", JStr (u description))].

(** The bundle of the end-to-end scenario, followed by an entry without a
    kind and a type. *)
Definition sample_bundle : json :=
  JObj [(u "moduleDescription", JStr []);
        (u "entries",
         JArr [mk_entry "add" "skProc" "proc add(a,b:int):int {.inline.}"
                 "<p>Adds two numbers.</p>";
               JObj [(u "name", JStr (u "sub"))];
               mk_entry "Num" "skType" "" ""])].

(** A procedure and an iterator of the same name. *)
Definition overload_bundle : json :=
  JObj [(u "entries",
         JArr [mk_entry "items" "skProc" "" "";
               mk_entry "items" "skIterator" "" ""])].

(** A module with one converter. *)
Definition converter_bundle : json :=
  JObj [(u "entries", JArr [mk_entry "toInt" "skConverter" "" ""])].

Definition empty_bundle : json := JObj [(u "entries", JArr [])].


(** A run in which the exporter fails for module [io] alone and every
    other module yields the sample bundle. *)
Definition io_fails_world : world :=
  {| subprocess_run := λ name, if decide (name = u "io") then ProcExit 1 else ProcExit 0;
     out_file_exists := λ _, true;
     load_json := λ _, Ok sample_bundle;
     write_error := λ _, None |}.

(** A run in which the exporter command cannot be run for module [io]:
    [subprocess.run] raises [PermissionError]; every other module yields
    the sample bundle. *)
Definition io_denied_world : world :=
  {| subprocess_run := λ name, if decide (name = u "io")
                               then ProcRaises PermissionError else ProcExit 0;
     out_file_exists := λ _, true;
     load_json := λ _, Ok sample_bundle;
     write_error := λ _, None |}.

Definition io_module : module_cfg :=
  {| mod_name := u "io"; mod_source := u "nimpulseqgui/io.nim";
     mod_title := u "io" |}.

Definition definitions_module : module_cfg :=
  {| mod_name := u "definitions"; mod_source := u "nimpulseqgui/definitions.nim";
     mod_title := u "definitions" |}.

(** ** Outcomes of the processing of one module *)


(** The page of the module is assembled: the exporter succeeds, the JSON
    is loaded and page assembly returns. *)
Definition module_ok (w : world) (m : module_cfg) : bool :=
  match _run_jsondoc w m with
  | Ok true =>
      match load_json w (mod_name m) with
      | Ok data =>
          match _make_module_rst (mod_name m) (mod_title m) data with
          | Ok _ => true
          | Raise _ => false
          end
      | Raise _ => false
      end
  | _ => false
  end.

(** The page of the module is written: the module is processed to the
    end and its page goes to its file. *)
Definition page_written (w : world) (m : module_cfg) : bool :=
  match _run_jsondoc w m with
  | Ok true =>
      match load_json w (mod_name m) with
      | Ok data =>
          match _make_module_rst (mod_name m) (mod_title m) data with
          | Ok page =>
              match write_text w (rst_path (mod_name m)) page with
              | Ok _ => true
              | Raise _ => false
              end
          | Raise _ => false
          end
      | Raise _ => false
      end
  | _ => false
  end.

(** UTF-8 can encode every text of the bundle: the description of the
    module and the name, the signature and the description of every
    entry. *)
Definition bundle_encodable (data : json) : bool :=
  utf8_encodable (bundle_description data)
  && forallb (λ e, utf8_encodable (entry_name e)
                   && utf8_encodable (entry_code e)
                   && utf8_encodable (entry_description e))
             (bundle_entries data).

(** No whitespace at the start, at the end. *)
Definition starts_with_space (s : str) : bool :=
  match s with
  | c :: _ => is_space c
  | [] => false
  end.

Definition ends_with_space (s : str) : bool := starts_with_space (rev s).

(** ** Occurrences of patterns and of literal text *)

(** What follows the first occurrence of [l] in [s]. *)
Fixpoint find_after (l s : str) : option str :=
  match strip_prefix l s with
  | Some rest => Some rest
  | None =>
      match s with
      | [] => None
      | _ :: s' => find_after l s'
      end
  end.

(** [l in s] *)
Definition occurs (l s : str) : bool :=
  match find_after l s with
  | Some _ => true
  | None => false
  end.

(** [re.search(r, s) is not None] *)
Fixpoint search (r : regex) (s : str) : bool :=
  match match_at r s with
  | Some _ => true
  | None =>
      match s with
      | [] => false
      | _ :: s' => search r s'
      end
  end.

(** The text holds an HTML tag: [<], one or more characters other than
    [>], and [>]; this is the pattern by which the converter recognises
    the tags it strips. *)
Definition has_tag (s : str) : bool := search TAG_RE s.

(** The entities the converter decodes. *)
Definition ENTITIES : list str :=
  [u "&lt;"; u "&gt;"; u "&amp;"; u "&quot;"; u "&#39;"; u "&nbsp;"].

Definition has_entity (s : str) : bool := existsb (λ e, occurs e s) ENTITIES.

(** ** Tags, blank lines *)

(** A text that starts with a tag: [<], a character other than [>], and
    a [>] further on. *)
Definition tag_like (s : str) : Prop :=
  ∃ c t, s = 60 :: c :: t ∧ c ≠ 62 ∧ 62 ∈ t.

(** A text with a tag somewhere. *)
Definition tagged (s : str) : Prop := ∃ a t, s = a ++ t ∧ tag_like t.

(** [l] occurs in [s]. *)
Definition contains (l s : str) : Prop := ∃ a b, s = a ++ l ++ b.

(** A pattern that can only match a text that starts with [>]. *)
Definition starts_with_gt (r : regex) : Prop :=
  ∀ g s x, x ∈ matches r g s → ∃ t, s = 62 :: t.

(** A pattern that matches only where a tag starts. *)
Definition tag_pattern (r : regex) : Prop :=
  ∀ s, is_Some (match_at r s) → tag_like s.

(** The last substitution of the converter. *)
Definition collapse (s : str) : str := sub BLANKS_RE (λ _, LF ++ LF) s.

(** ** The signature cleaner, described *)

(** The annotation block as the specification words it: [{.], any text,
    and the first [.}] after it. *)
Definition BLOCK_RE : regex :=
  Lit (u "{.") +++ Rep false any_char 0 +++ Lit (u ".}").

(** The cleaner that removes exactly the blocks and then trims. *)
Definition clean_blocks_only (code : str) : str :=
  strip (sub BLOCK_RE (λ _, []) code).

(** A text that starts with whitespace [ws] and an annotation block with
    content [body], followed by [rest]. *)
Definition annotated (ws body rest : str) : str :=
  ws ++ u "{." ++ body ++ u ".}" ++ rest.

(** [removed_blocks s t]: [t] is [s] without its annotation blocks and
    without the whitespace in front of each of them.  Going through [s]
    from the left: where whitespace followed by a block starts, both are
    left out, the block ending at the first [.}]; any other character is
    kept. *)
Inductive removed_blocks : str -> str -> Prop :=
| rb_end : removed_blocks [] []
| rb_block ws body rest t :
    forallb is_space ws = true ->
    (forall body' rest',
        body ++ u ".}" ++ rest = body' ++ u ".}" ++ rest' ->
        (length body <= length body')%nat) ->
    removed_blocks rest t ->
    removed_blocks (annotated ws body rest) t
| rb_keep c s t :
    (forall ws body rest,
        forallb is_space ws = true -> c :: s <> annotated ws body rest) ->
    removed_blocks s t ->
    removed_blocks (c :: s) (c :: t).

(** ** Entries without a name *)

(** The entry has no [name] field. *)
Definition lacks_name (e : json) : bool :=
  match obj_field (u "name") e with
  | None => true
  | Some _ => false
  end.

(** An entry of the input schema, except that [name] may be absent. *)
Definition wf_entry_opt_name (e : json) : bool :=
  match e with
  | JObj kv =>
      str_or_absent (u "name") kv
      && str_or_absent (u "type") kv
      && str_or_absent (u "code") kv
      && str_or_absent (u "description") kv
  | _ => false
  end.

(** A bundle of such entries. *)
Definition wf_bundle_opt_name (data : json) : bool :=
  match data with
  | JObj kv =>
      str_or_absent (u "moduleDescription") kv
      && match assoc (u "entries") kv with
         | None => true
         | Some (JArr l) => forallb wf_entry_opt_name l
         | _ => false
         end
  | _ => false
  end.

(** A bundle with a nameless converter and a named procedure, and one
    with a nameless procedure. *)
Definition nameless_converter_bundle : json :=
  JObj [(u "entries",
         JArr [JObj [(u "type", JStr (u "skConverter"))];
               mk_entry "add" "skProc" "" ""])].

Definition nameless_proc_bundle : json :=
  JObj [(u "entries",
         JArr [mk_entry "add" "skProc" "" "";
               JObj [(u "type", JStr (u "skProc"))]])].

(** ** Anchors of a section *)

(** The anchor lines of a section, in the order of its entries. *)
Definition section_anchors (module_name : str) (entries : list json) : list str :=
  imap (λ i e, anchor_line module_name (entry_name e)
                 (earlier_same_name entries i e)) entries.

(** ** Plain text *)

(** A text without [<] and without [&]. *)
Definition plain (s : str) : bool :=
  forallb (λ c, negb (c =? 60) && negb (c =? 38)) s.

(** A text without a line feed. *)
Definition single_line (s : str) : bool := forallb not_newline s.

(** The items of a list, [<li>x</li>] for each [x], as one text. *)
Definition list_items (xs : list str) : str :=
  concat (map (λ x, u "<li>" ++ x ++ u "</li>") xs).

(** The bullet lines the items become, each after a line feed. *)
Definition bullet_lines (xs : list str) : str :=
  concat (map (λ x, LF ++ u "- " ++ x) xs).

(** Attributes of a tag: text without [<] and [>]. *)
Definition attribute_text (s : str) : bool :=
  forallb (λ c, negb (c =? 62) && negb (c =? 60)) s.

(** ** Files and failures of a run *)


(** * Properties *)

#[global] Arguments u : simpl never.
#[global] Arguments entry_name : simpl never.
#[global] Arguments entry_kind : simpl never.
#[global] Arguments entry_code : simpl never.
#[global] Arguments entry_description : simpl never.
#[global] Arguments entries_of_kind : simpl never.
#[global] Arguments _html_to_rst : simpl never.
#[global] Arguments _clean_code : simpl never.
#[global] Arguments entry_lines : simpl never.

(** ** The matcher and the scanning functions *)

Lemma strip_prefix_Some p : ∀ s rest,
  strip_prefix p s = Some rest ↔ s = p ++ rest.
Proof.
  induction p as [|a p IH]; intros s rest; cbn.
  - split; [by intros [= ->]|by intros ->].
  - destruct s as [|b s]; [done|].
    destruct (N.eqb_spec a b) as [->|Hne].
    + rewrite IH. split; [by intros ->|by intros [= ->]].
    + split; [done|]. intros [= -> _]. done.
Qed.

Lemma strip_prefix_app p rest : strip_prefix p (p ++ rest) = Some rest.
Proof. by apply strip_prefix_Some. Qed.

(** Passing over [n] characters is dropping them. *)
Lemma sub_from_drop r repl s : ∀ n,
  sub_from r repl n s = sub_from r repl 0 (drop n s).
Proof.
  induction s as [|c s IH]; intros n.
  - by destruct n.
  - destruct n as [|n]; [done|]. cbn [sub_from drop]. apply IH.
Qed.

Lemma replace_from_drop old new s : ∀ n,
  replace_from old new n s = replace_from old new 0 (drop n s).
Proof.
  induction s as [|c s IH]; intros n.
  - by destruct n.
  - destruct n as [|n]; [done|]. cbn [replace_from drop]. apply IH.
Qed.

(** What is left after a match is a suffix of the text. *)
Lemma matches_suffix r : ∀ g s g' rest,
  (g', rest) ∈ matches r g s → rest `suffix_of` s.
Proof.
  induction r as [l|greedy p lo|r1 IH1 r2 IH2|r1 IH1 r2 IH2|r1 IH1];
    intros g s g' rest Hin; cbn [matches] in Hin.
  - destruct (strip_prefix l s) as [rest'|] eqn:Hp.
    + apply list_elem_of_singleton in Hin as [= -> ->].
      apply strip_prefix_Some in Hp as ->. by apply suffix_app_r.
    + by apply elem_of_nil in Hin.
  - apply list_elem_of_fmap in Hin as (k & [= -> ->] & _). apply suffix_drop.
  - apply elem_of_app in Hin as [Hin|Hin]; eauto.
  - apply list_elem_of_In, in_flat_map in Hin as ([g1 s1] & H1 & H2).
    apply list_elem_of_In in H1, H2.
    etrans; [by eapply IH2|by eapply IH1].
  - apply list_elem_of_fmap in Hin as ([g1 s1] & [= -> ->] & H1). by eapply IH1.
Qed.

Lemma match_at_suffix r s g rest :
  match_at r s = Some (g, rest) → rest `suffix_of` s.
Proof.
  unfold match_at. intros H. apply (matches_suffix r [] s g).
  destruct (matches r [] s) as [|x l]; [done|]. injection H as ->. by left.
Qed.

(** The equations of [sub]: where the pattern does not match, the
    character is kept; where it matches some characters, the replacement
    is emitted and the scan goes on after the match. *)
Lemma sub_keep r repl c s :
  match_at r (c :: s) = None → sub r repl (c :: s) = c :: sub r repl s.
Proof. unfold sub. cbn [sub_from]. by intros ->. Qed.

Lemma sub_match r repl s g rest :
  match_at r s = Some (g, rest) →
  (length rest < length s)%nat →
  sub r repl s = repl g ++ sub r repl rest.
Proof.
  intros Hm Hlen. destruct (match_at_suffix _ _ _ _ Hm) as [k ->].
  destruct k as [|c k]; [cbn in Hlen; lia|].
  unfold sub. cbn [sub_from app]. change ((c :: k) ++ rest) with (c :: k ++ rest) in Hm.
  rewrite Hm. cbn [length]. rewrite length_app.
  replace (S (length k + length rest) - length rest)%nat with (S (length k)) by lia.
  rewrite sub_from_drop. by rewrite drop_app_length.
Qed.

(** A text in which the pattern is found nowhere is left as it is. *)
Lemma sub_not_found r repl s : search r s = false → sub r repl s = s.
Proof.
  induction s as [|c s IH]; cbn [search].
  - unfold sub. cbn. by destruct (match_at r []).
  - destruct (match_at r (c :: s)) eqn:Hm; [done|]. intros Hs.
    rewrite sub_keep by done. by rewrite IH.
Qed.

Lemma replace_keep old new c s :
  strip_prefix old (c :: s) = None →
  replace old new (c :: s) = c :: replace old new s.
Proof. unfold replace. cbn [replace_from]. by intros ->. Qed.

Lemma find_after_Some l : ∀ s rest,
  find_after l s = Some rest → ∃ a, s = a ++ l ++ rest.
Proof.
  induction s as [|c s IH]; intros rest; cbn [find_after].
  - destruct (strip_prefix l []) eqn:Hp; [|done].
    intros [= ->]. apply strip_prefix_Some in Hp. by exists [].
  - destruct (strip_prefix l (c :: s)) eqn:Hp.
    + intros [= ->]. apply strip_prefix_Some in Hp. by exists [].
    + intros (a & ->)%IH. by exists (c :: a).
Qed.

Lemma find_after_None l : ∀ s a b,
  find_after l s = None → s ≠ a ++ l ++ b.
Proof.
  induction s as [|c s IH]; intros a b; cbn [find_after].
  - destruct (strip_prefix l []) eqn:Hp; [done|]. intros _ Heq.
    destruct a; [|done]. cbn in Heq. rewrite Heq, strip_prefix_app in Hp. done.
  - destruct (strip_prefix l (c :: s)) eqn:Hp; [done|]. intros Hf Heq.
    destruct a as [|c' a].
    + cbn in Heq. rewrite Heq, strip_prefix_app in Hp. done.
    + injection Heq as -> Heq. by eapply IH.
Qed.

Lemma occurs_true l s : occurs l s = true ↔ ∃ a b, s = a ++ l ++ b.
Proof.
  unfold occurs. split.
  - destruct (find_after l s) as [rest|] eqn:Hf; [|done].
    intros _. apply find_after_Some in Hf as [a ->]. eauto.
  - intros (a & b & ->). destruct (find_after l _) eqn:Hf; [done|].
    by eapply find_after_None in Hf.
Qed.

Lemma occurs_false_tail l c s : occurs l (c :: s) = false → occurs l s = false.
Proof.
  unfold occurs. cbn [find_after].
  by destruct (strip_prefix l (c :: s)).
Qed.

Lemma replace_absent old new s :
  old ≠ [] → occurs old s = false → replace old new s = s.
Proof.
  intros Hne. induction s as [|c s IH]; [done|]. intros Ho.
  rewrite replace_keep.
  - rewrite IH; [done|]. by eapply occurs_false_tail.
  - unfold occurs in Ho. cbn [find_after] in Ho.
    by destruct (strip_prefix old (c :: s)).
Qed.

(** A literal in front is a prefix test. *)
Lemma matches_lit_cat l r g s :
  matches (Lit l +++ r) g s
  = match strip_prefix l s with
    | Some t => matches r g t
    | None => []
    end.
Proof.
  cbn [matches]. destruct (strip_prefix l s); [|done]. cbn. by rewrite app_nil_r.
Qed.

(** A lazy [.*?] in front tries the rest of the pattern at every
    position, from the left. *)
Lemma matches_lazy_any_nil r g :
  matches (Rep false any_char 0 +++ r) g [] = matches r g [].
Proof. cbn. by rewrite app_nil_r. Qed.

Lemma span_any_char s : span any_char s = length s.
Proof. induction s as [|c s IH]; [done|]. cbn. by rewrite IH. Qed.

Lemma matches_lazy_any_cons r g c s :
  matches (Rep false any_char 0 +++ r) g (c :: s)
  = matches r g (c :: s) ++ matches (Rep false any_char 0 +++ r) g s.
Proof.
  cbn [matches]. rewrite !span_any_char. unfold rep_counts. cbn [Nat.ltb Nat.leb].
  rewrite !Nat.sub_0_r. cbn [length].
  change (seq 0 (S (S (length s)))) with (0%nat :: seq 1 (S (length s))).
  cbn [map flat_map]. f_equal. rewrite <- seq_shift, !map_map. done.
Qed.

Lemma head_matches_lazy_any_lit l g : ∀ s,
  head (matches (Rep false any_char 0 +++ Lit l) g s)
  = (λ rest, (g, rest)) <$> find_after l s.
Proof.
  induction s as [|c s IH].
  - rewrite matches_lazy_any_nil. cbn. by destruct (strip_prefix l []).
  - rewrite matches_lazy_any_cons. cbn [matches find_after].
    destruct (strip_prefix l (c :: s)); [done|]. cbn [app]. apply IH.
Qed.

(** A greedy class repetition in front of a pattern that cannot start
    with a character of the class takes the whole run. *)
Lemma drop_span_lstrip s : drop (span is_space s) s = lstrip s.
Proof.
  induction s as [|c s IH]; [done|]. cbn. by destruct (is_space c).
Qed.

Lemma matches_greedy_class p r g :
  (∀ c t, p c = true → matches r g (c :: t) = []) →
  ∀ s, matches (Rep true p 0 +++ r) g s = matches r g (drop (span p s) s).
Proof.
  intros Hr s. cbn [matches]. unfold rep_counts. cbn [Nat.ltb Nat.leb].
  rewrite Nat.sub_0_r, seq_S, rev_app_distr. cbn [rev app map flat_map Nat.add].
  assert (Hnone : ∀ n, (n ≤ span p s)%nat →
            flat_map (λ '(g1, s1), matches r g1 s1)
              (map (λ k, (g, drop k s)) (rev (seq 0 n))) = []).
  { induction n as [|n IH]; [done|]. intros Hn.
    rewrite seq_S, rev_app_distr. cbn [rev app map flat_map Nat.add].
    rewrite IH by lia. rewrite app_nil_r.
    clear IH. revert n Hn. induction s as [|c s IHs]; intros n Hn; cbn in Hn; [lia|].
    destruct (p c) eqn:Hc; [|lia]. destruct n as [|n]; [by apply Hr|].
    cbn [drop]. apply IHs. lia. }
  rewrite Hnone by done. by rewrite app_nil_r.
Qed.

(** Membership in the list of matches. *)
Lemma elem_of_matches_lit l g s x :
  x ∈ matches (Lit l) g s ↔ ∃ rest, x = (g, rest) ∧ s = l ++ rest.
Proof.
  cbn [matches]. destruct (strip_prefix l s) as [rest|] eqn:Hp.
  - apply strip_prefix_Some in Hp as ->. rewrite list_elem_of_singleton. split.
    + intros ->. eauto.
    + intros (rest' & -> & ->%app_inv_head). done.
  - split; [by intros ?%elem_of_nil|]. intros (rest & _ & ->).
    by rewrite strip_prefix_app in Hp.
Qed.

Lemma elem_of_matches_cat r1 r2 g s x :
  x ∈ matches (r1 +++ r2) g s
  ↔ ∃ g1 s1, (g1, s1) ∈ matches r1 g s ∧ x ∈ matches r2 g1 s1.
Proof.
  cbn [matches]. rewrite list_elem_of_In, in_flat_map. split.
  - intros ([g1 s1] & H1 & H2). exists g1, s1. by rewrite !list_elem_of_In.
  - intros (g1 & s1 & H1 & H2). exists (g1, s1). by rewrite <- !list_elem_of_In.
Qed.

Lemma elem_of_matches_lit_cat l r g s x :
  x ∈ matches (Lit l +++ r) g s ↔ ∃ t, s = l ++ t ∧ x ∈ matches r g t.
Proof.
  rewrite matches_lit_cat. destruct (strip_prefix l s) as [t|] eqn:Hp.
  - apply strip_prefix_Some in Hp as ->. split; [by eauto|].
    by intros (t' & ->%app_inv_head & H).
  - split; [by intros ?%elem_of_nil|]. intros (t & -> & _).
    by rewrite strip_prefix_app in Hp.
Qed.

Lemma elem_of_matches_rep greedy p lo g s x :
  x ∈ matches (Rep greedy p lo) g s
  ↔ ∃ k, x = (g, drop k s) ∧ (lo ≤ k ≤ span p s)%nat.
Proof.
  cbn [matches]. rewrite list_elem_of_fmap. unfold rep_counts.
  destruct (Nat.ltb_spec (span p s) lo) as [Hlt|Hle].
  - split; [by intros (k & _ & ?%elem_of_nil)|]. intros (k & _ & Hk). lia.
  - assert (∀ k, k ∈ (if greedy then rev (seq lo (S (span p s) - lo))
                      else seq lo (S (span p s) - lo))
                 ↔ (lo ≤ k ≤ span p s)%nat) as Hk.
    { intros k. destruct greedy; rewrite ?list_elem_of_In, <- ?in_rev, ?in_seq,
        <- ?list_elem_of_In, ?list_elem_of_In, ?in_seq; lia. }
    split; intros (k & Hx & Hin); exists k; (split; [done|]); by apply Hk.
Qed.

Lemma match_at_is_Some r s :
  is_Some (match_at r s) ↔ ∃ x, x ∈ matches r [] s.
Proof.
  unfold match_at. destruct (matches r [] s) as [|x l].
  - split; [by intros [? ?]|]. by intros [x ?%elem_of_nil].
  - split; [|by eauto]. intros _. exists x. by left.
Qed.

Lemma search_true r : ∀ s,
  search r s = true ↔ ∃ a t, s = a ++ t ∧ is_Some (match_at r t).
Proof.
  induction s as [|c s IH]; cbn [search].
  - destruct (match_at r []) eqn:Hm.
    + split; [|done]. intros _. exists [], []. by rewrite Hm.
    + split; [done|]. intros (a & t & Heq & [x Hx]).
      symmetry in Heq. apply app_eq_nil in Heq as [-> ->]. congruence.
  - destruct (match_at r (c :: s)) eqn:Hm.
    + split; [|done]. intros _. exists [], (c :: s). by rewrite Hm.
    + rewrite IH. split.
      * intros (a & t & -> & Ht). by exists (c :: a), t.
      * intros ([|c' a] & t & Heq & Ht).
        -- cbn in Heq. subst t. rewrite Hm in Ht. by destruct Ht.
        -- injection Heq as -> ->. eauto.
Qed.

(** ** Lemmas on page assembly *)

Section Assembly.
Variable module_name : str.

Lemma wf_entry_inv e :
  wf_entry e = true →
  ∃ kv, e = JObj kv
    ∧ assoc (u "name") kv = Some (JStr (entry_name e))
    ∧ dict_get e (u "type") (JStr (u "skProc")) = Ok (JStr (entry_kind e))
    ∧ (dict_get e (u "code") (JStr []) ≫= clean_code_value)
      = Ok (_clean_code (entry_code e))
    ∧ (dict_get e (u "description") (JStr []) ≫= html_to_rst_value)
      = Ok (_html_to_rst (entry_description e)).
Proof.
  destruct e as [| | | | |l|kv]; try discriminate. cbn [wf_entry].
  rewrite !andb_true_iff. intros [[[Hn Ht] Hc] Hd].
  exists kv. split; [done|].
  unfold entry_name, entry_kind, entry_code, entry_description, str_field,
    str_or_absent, dict_get in *.
  destruct (assoc (u "name") kv) as [[| | | |n| |]|]; try discriminate.
  destruct (assoc (u "type") kv) as [[| | | |t| |]|]; try discriminate;
  destruct (assoc (u "code") kv) as [[| | | |c| |]|]; try discriminate;
  destruct (assoc (u "description") kv) as [[| | | |d| |]|]; try discriminate;
  repeat split; cbn; try done;
  unfold html_to_rst_value; destruct d; done.
Qed.

Lemma group_entries_ok entries : ∀ by_kind,
  Forall (λ e, wf_entry e = true) entries →
  ∃ by_kind',
    group_entries entries by_kind = Ok by_kind'
    ∧ ∀ k, default [] (by_kind' !! k)
           = default [] (by_kind !! k) ++ entries_of_kind k entries.
Proof.
  induction entries as [|e entries IH]; intros by_kind Hwf.
  - exists by_kind. split; [done|]. intros k. by rewrite app_nil_r.
  - inversion Hwf as [|? ? He Hrest]; subst.
    destruct (wf_entry_inv e He) as (kv & -> & _ & Hk & _).
    cbn [group_entries]. rewrite Hk. cbn.
    destruct (IH (<[entry_kind (JObj kv) :=
                    default [] (by_kind !! entry_kind (JObj kv)) ++ [JObj kv]]> by_kind)
                Hrest) as (m & Hm & Hlook).
    exists m. split; [done|]. intros k. rewrite Hlook.
    unfold entries_of_kind. rewrite filter_cons.
    destruct (decide (entry_kind (JObj kv) = k)) as [->|Hne].
    + rewrite lookup_insert_eq. cbn. by rewrite <- app_assoc.
    + by rewrite lookup_insert_ne.
Qed.

Lemma render_entries_ok entries : ∀ name_count seen lines,
  Forall (λ e, wf_entry e = true) entries →
  (∀ n, default O (name_count !! n) = occurrences n seen) →
  render_entries module_name entries name_count lines
  = Ok (lines ++ section_body module_name seen entries).
Proof.
  induction entries as [|e entries IH]; intros name_count seen lines Hwf Hcount.
  - cbn. by rewrite app_nil_r.
  - inversion Hwf as [|? ? He Hrest]; subst.
    destruct (wf_entry_inv e He) as (kv & Heq & Hn & _ & Hc & Hd).
    cbn [render_entries section_body].
    rewrite Hc, Hd. rewrite Heq at 1. cbn [dict_item]. rewrite Hn. cbn.
    rewrite (IH _ (seen ++ [entry_name e])); [|done|].
    + by rewrite Hcount, <- app_assoc.
    + intros n. unfold occurrences. rewrite filter_app, length_app.
      rewrite filter_cons, filter_nil.
      destruct (decide (entry_name e = n)) as [->|Hne].
      * rewrite lookup_insert_eq. cbn. rewrite Hcount. unfold occurrences. lia.
      * rewrite lookup_insert_ne by done. rewrite Hcount. unfold occurrences.
        cbn. lia.
Qed.

Lemma render_sections_ok kinds : ∀ by_kind lines,
  (∀ k, Forall (λ e, wf_entry e = true) (default [] (by_kind !! k))) →
  render_sections module_name kinds by_kind lines
  = Ok (lines ++ concat (map (λ k, section_lines module_name k
                                     (default [] (by_kind !! k))) kinds)).
Proof.
  induction kinds as [|k kinds IH]; intros by_kind lines Hwf.
  - cbn. by rewrite app_nil_r.
  - cbn [render_sections map concat].
    specialize (Hwf k) as Hk.
    destruct (by_kind !! k) as [[|e es]|] eqn:Hlook; cbn [default] in *.
    + by rewrite IH.
    + rewrite (render_entries_ok _ _ [] _ Hk) by done.
      cbn [mbind result_bind]. rewrite IH by done.
      unfold section_lines, section_heading. by rewrite <- !app_assoc.
    + by rewrite IH.
Qed.

End Assembly.

(** The page of a bundle of the input schema: the head, then for each
    kind of [_KIND_ORDER] the section of the entries of that kind. *)
Lemma module_lines_wf module_name title data :
  wf_bundle data = true →
  module_lines module_name title data
  = Ok (page_head title data
        ++ concat (map (λ k, section_lines module_name k
                               (entries_of_kind k (bundle_entries data)))
                       _KIND_ORDER)).
Proof.
  destruct data as [| | | | |l|kv]; try discriminate. cbn [wf_bundle].
  rewrite andb_true_iff. intros [Hd He].
  unfold module_lines, page_head, bundle_description, bundle_entries, str_field,
    str_or_absent, dict_get in *.
  assert (Hdesc : html_to_rst_value (default (JStr []) (assoc (u "moduleDescription") kv))
                  = Ok (_html_to_rst match assoc (u "moduleDescription") kv with
                                     | Some (JStr s) => s
                                     | _ => []
                                     end)).
  { destruct (assoc (u "moduleDescription") kv) as [[| | | |d| |]|]; try discriminate;
      cbn; [|done]. unfold html_to_rst_value. by destruct d. }
  cbn [mbind result_bind]. rewrite Hdesc.
  set (es := match assoc (u "entries") kv with Some (JArr l) => l | _ => [] end).
  assert (iter_values (default (JArr []) (assoc (u "entries") kv)) = Ok es
          ∧ Forall (λ e, wf_entry e = true) es) as [Hit Hwf].
  { subst es. destruct (assoc (u "entries") kv) as [[| | | | |l|]|]; try discriminate;
      cbn; split; try done.
    rewrite Forall_forall. intros x Hx%list_elem_of_In.
    by apply (proj1 (forallb_forall _ _) He). }
  rewrite Hit.
  destruct (group_entries_ok es ∅ Hwf) as (by_kind & Hg & Hlook).
  cbn [mbind result_bind]. rewrite Hg. cbn [mbind result_bind].
  assert (Hk : ∀ k, default [] (by_kind !! k) = entries_of_kind k es).
  { intros k. rewrite Hlook, lookup_empty. done. }
  rewrite render_sections_ok.
  - f_equal.
    rewrite (map_ext _ (λ k, section_lines module_name k (entries_of_kind k es)))
      by (intros k; by rewrite Hk).
    by destruct (_html_to_rst _).
  - intros k. rewrite Hk. unfold entries_of_kind.
    rewrite Forall_forall in Hwf |- *. intros x [_ Hx]%list_elem_of_filter. by apply Hwf.
Qed.

Lemma section_body_by_position module_name entries : ∀ seen,
  section_body module_name seen entries
  = concat (imap (λ i e, entry_lines module_name (entry_name e)
                           (_clean_code (entry_code e))
                           (_html_to_rst (entry_description e))
                           (occurrences (entry_name e)
                              (seen ++ (entry_name <$> take i entries))))
                 entries).
Proof.
  induction entries as [|e entries IH]; intros seen; [done|].
  cbn [section_body]. rewrite imap_cons. cbn [concat take fmap list_fmap].
  rewrite app_nil_r. f_equal. rewrite IH. f_equal. apply imap_ext.
  intros i e' _. cbn. by rewrite <- app_assoc.
Qed.

(** The lines the assembler adds for an entry are its block. *)
Lemma entry_lines_block module_name e n :
  entry_lines module_name (entry_name e) (_clean_code (entry_code e))
    (_html_to_rst (entry_description e)) n
  = entry_block module_name e n.
Proof.
  unfold entry_lines, entry_block, entry_label, entry_heading, anchor_line,
    heading_line, code_block, paragraph.
  destruct n; cbn [app]; rewrite <- ?app_assoc, ?app_nil_r; cbn [app];
    rewrite ?app_nil_r; done.
Qed.

Lemma section_body_shown module_name entries :
  section_body module_name [] entries
  = concat (imap (λ i e, entry_block module_name e
                           (earlier_same_name entries i e)) entries).
Proof.
  rewrite section_body_by_position. f_equal. apply imap_ext.
  intros i e _. cbn. apply entry_lines_block.
Qed.

Lemma section_lines_shown module_name k entries :
  section_lines module_name k entries
  = section_shown module_name (default k (_KIND_LABELS !! k)) entries.
Proof.
  unfold section_lines, section_shown, section_heading.
  destruct entries as [|e es]; [done|]. by rewrite section_body_shown.
Qed.

(** The kinds of [_KIND_ORDER] with their labels of [_KIND_LABELS]. *)
Lemma kinds_with_labels :
  map (λ k, (k, default k (_KIND_LABELS !! k))) _KIND_ORDER = SECTIONS.
Proof. by vm_compute. Qed.

(** The page of a bundle of the input schema, as it reads. *)
Lemma module_lines_shown module_name title data :
  wf_bundle data = true →
  module_lines module_name title data = Ok (page_shown module_name title data).
Proof.
  intros Hwf. rewrite module_lines_wf by done. unfold page_shown.
  rewrite <- kinds_with_labels, map_map. do 3 f_equal.
  apply map_ext. intros k. apply section_lines_shown.
Qed.

(** C7: for every bundle of the input schema the assembled page is the
    page head followed by the sections in the fixed order of display,
    types, constants, procedures, functions, methods, iterators,
    templates, macros, lets, variables, whatever the order of the input;
    a section holds, after its heading, the blocks of the entries of its
    kind one after the other, each with its anchor and its heading, in
    the relative order of the input; and a kind without entries
    contributes no line, hence no heading. *)
Theorem C7_sections_follow_kind_order module_name title data :
  wf_bundle data = true →
  _make_module_rst module_name title data
  = Ok (join LF
          (page_head title data
           ++ concat (map (λ s, section_shown module_name s.2
                                  (entries_of_kind s.1 (bundle_entries data)))
                          SECTIONS))
        ++ LF)
  ∧ NoDup (SECTIONS.*1)
  ∧ (∀ k, entries_of_kind k (bundle_entries data) `sublist_of` bundle_entries data)
  ∧ (∀ k label, entries_of_kind k (bundle_entries data) = [] →
                section_shown module_name label
                  (entries_of_kind k (bundle_entries data)) = []).
Proof.
  intros Hwf. split; [|split; [|split]].
  - unfold _make_module_rst. by rewrite module_lines_shown.
  - apply (bool_decide_unpack _). by vm_compute.
  - intros k. apply sublist_filter.
  - by intros k label ->.
Qed.

Lemma C7_sections_follow_kind_order_witness :
  wf_bundle sample_bundle = true
  ∧ _make_module_rst (u "mathutil") (u "mathutil") sample_bundle
    = Ok (join LF
            (map u ["========"; "mathutil"; "========"; "";
                    "Types"; "-----"; "";
                    ".. _mathutil.Num:"; ""; "Num"; "~~~"; "";
                    "Procedures"; "----------"; "";
                    ".. _mathutil.add:"; ""; "add"; "~~~"; "";
                    ".. code-block:: nim"; ""; "   proc add(a,b:int):int"; "";
                    "Adds two numbers."; "";
                    ".. _mathutil.sub:"; ""; "sub"; "~~~"; ""]%string)
          ++ LF).
Proof.
  split; [reflexivity|].
  destruct (C7_sections_follow_kind_order (u "mathutil") (u "mathutil")
              sample_bundle eq_refl) as [-> _].
  by vm_compute.
Defined.




(** The page of a bundle is the page of its entries of known kinds: an
    entry whose kind is not in [_KIND_ORDER] leaves no trace. *)
Lemma unknown_kinds_leave_no_trace module_name title data :
  wf_bundle data = true →
  module_lines module_name title data
  = Ok (page_head title data
        ++ concat (map (λ k, section_lines module_name k
                               (entries_of_kind k
                                  (filter (λ e, entry_kind e ∈ _KIND_ORDER)
                                          (bundle_entries data))))
                       _KIND_ORDER)).
Proof.
  intros Hwf. rewrite module_lines_wf by done. do 3 f_equal.
  apply map_ext_in. intros k Hk%list_elem_of_In. f_equal.
  unfold entries_of_kind. induction (bundle_entries data) as [|e es IH]; [done|].
  rewrite !filter_cons. destruct (decide (entry_kind e = k)) as [Heq|Hne].
  - rewrite decide_True by (by rewrite Heq). rewrite filter_cons.
    rewrite decide_True by done. by rewrite IH.
  - destruct (decide (entry_kind e ∈ _KIND_ORDER)); [|done].
    rewrite filter_cons. by rewrite decide_False.
Qed.

(** C1: a procedure and an iterator both named [items] receive the same
    anchor [m.items] and the same heading [items]: the occurrence counter
    starts afresh in every section, so anchors are not unique within the
    page. *)
Theorem C1_anchor_repeated_across_sections :
  module_lines (u "m") (u "m") overload_bundle
  = Ok (map u ["="; "m"; "="; "";
               "Procedures"; "----------"; "";
               ".. _m.items:"; ""; "items"; "~~~~~"; "";
               "Iterators"; "---------"; "";
               ".. _m.items:"; ""; "items"; "~~~~~"; ""]%string)
  ∧ (∀ lines, module_lines (u "m") (u "m") overload_bundle = Ok lines →
              occurrences (u ".. _m.items:") lines = 2%nat
              ∧ occurrences (u ".. _m.items.1:") lines = 0%nat).
Proof.
  assert (H : module_lines (u "m") (u "m") overload_bundle
              = Ok (map u ["="; "m"; "="; "";
                           "Procedures"; "----------"; "";
                           ".. _m.items:"; ""; "items"; "~~~~~"; "";
                           "Iterators"; "---------"; "";
                           ".. _m.items:"; ""; "items"; "~~~~~"; ""]%string))
    by (vm_compute; reflexivity).
  split; [exact H|]. intros lines. rewrite H. intros [= <-].
  by vm_compute.
Qed.

(** Within one section the counter works as described: three procedures
    named [foo] receive [m.foo], [m.foo.1], [m.foo.2] and the headings
    [foo], [foo (2)], [foo (3)]. *)
Example three_overloads_in_one_section :
  module_lines (u "m") (u "m")
    (JObj [(u "entries", JArr [mk_entry "foo" "skProc" "" "";
                               mk_entry "foo" "skProc" "" "";
                               mk_entry "foo" "skProc" "" ""])])
  = Ok (map u ["="; "m"; "="; "";
               "Procedures"; "----------"; "";
               ".. _m.foo:"; ""; "foo"; "~~~"; "";
               ".. _m.foo.1:"; ""; "foo (2)"; "~~~~~~~"; "";
               ".. _m.foo.2:"; ""; "foo (3)"; "~~~~~~~"; ""]%string).
Proof. vm_compute. reflexivity. Qed.

(** C3: an entry of kind [skConverter], which is not one of the ten kinds
    of [_KIND_ORDER], is left out of the page: assembly returns normally
    and the page is that of the bundle without entries, a title block and
    nothing more. *)
Theorem C3_unknown_kind_silently_omitted :
  _make_module_rst (u "conv") (u "conv") converter_bundle
  = Ok (join LF (map u ["===="; "conv"; "===="; ""]%string) ++ LF)
  ∧ _make_module_rst (u "conv") (u "conv") converter_bundle
    = _make_module_rst (u "conv") (u "conv") empty_bundle.
Proof. split; vm_compute; reflexivity. Qed.

(** ** The orchestrator *)





Lemma process_module_exporter_failed w m st :
  _run_jsondoc w m = Ok false →
  process_module w m st = Ok (add_error (mod_name m) st).
Proof. unfold process_module. by intros ->. Qed.

Lemma process_module_written w m st :
  page_written w m = true →
  ∃ page, process_module w m st = Ok (add_generated (mod_name m) page st).
Proof.
  unfold page_written, process_module.
  destruct (_run_jsondoc w m) as [[|]|]; try discriminate.
  destruct (load_json w (mod_name m)) as [data|]; try discriminate.
  destruct (_make_module_rst _ _ data) as [page|]; try discriminate.
  cbn [negb mbind result_bind].
  destruct (write_text w _ page) as [[]|]; try discriminate.
  intros _. by exists page.
Qed.

(** A step that returns adds the module to exactly one of the two
    lists, and to [generated] only when the page of the module is
    written. *)
Lemma process_module_returns w m st st' :
  process_module w m st = Ok st' →
  (page_written w m = true ∧ errors st' = errors st
   ∧ generated st' = generated st ++ [mod_name m])
  ∨ (page_written w m = false ∧ errors st' = errors st ++ [mod_name m]
     ∧ generated st' = generated st).
Proof.
  unfold page_written, process_module.
  destruct (_run_jsondoc w m) as [[|]|]; cbn; try discriminate.
  - destruct (load_json w (mod_name m)) as [data|e].
    + destruct (_make_module_rst _ _ data) as [page|]; cbn; try discriminate.
      destruct (write_text w _ page) as [[]|]; cbn; try discriminate.
      intros [= <-]. by left.
    + destruct (caught_on_load e); try discriminate. intros [= <-]. by right.
  - intros [= <-]. by right.
Qed.

Lemma main_loop_all_written w modules : ∀ st,
  forallb (page_written w) modules = true →
  ∃ st', main_loop w modules st = Ok st'
         ∧ errors st' = errors st
         ∧ generated st' = generated st ++ map mod_name modules.
Proof.
  induction modules as [|m modules IH]; intros st Hall.
  - exists st. by rewrite app_nil_r.
  - cbn in Hall. apply andb_true_iff in Hall as [Hm Hall].
    destruct (process_module_written w m st Hm) as (page & Hstep).
    destruct (IH (add_generated (mod_name m) page st) Hall) as (st' & Hloop & He & Hg).
    exists st'. cbn [main_loop]. rewrite Hstep. cbn. rewrite Hloop.
    split; [done|]. split; [done|]. rewrite Hg. cbn. by rewrite <- app_assoc.
Qed.

Lemma main_loop_no_error w modules : ∀ st st',
  main_loop w modules st = Ok st' →
  errors st' = [] →
  forallb (page_written w) modules = true ∧ errors st = []
  ∧ generated st' = generated st ++ map mod_name modules.
Proof.
  induction modules as [|m modules IH]; intros st st' Hloop Hnil.
  - cbn in Hloop. injection Hloop as <-. by rewrite app_nil_r.
  - cbn [main_loop] in Hloop.
    destruct (process_module w m st) as [st1|e] eqn:Hstep; [|discriminate].
    cbn in Hloop. destruct (IH st1 st' Hloop Hnil) as (Hall & Hst1 & Hgen).
    destruct (process_module_returns w m st st1 Hstep)
      as [(Hok & He & Hg)|(_ & He & _)].
    + cbn. rewrite Hok, Hall. split; [done|]. split; [by rewrite <- He|].
      rewrite Hgen, Hg. by rewrite <- app_assoc.
    + rewrite He in Hst1. by destruct (errors st).
Qed.

(** [main] returns 0 exactly when the page of every module is written
    and then the index of all of them. *)
Lemma exit_status_zero_iff w modules :
  exit_status (main_on modules w) = 0%Z
  ↔ forallb (page_written w) modules = true
    ∧ write_text w (u "api/index.rst") (_make_api_index (map mod_name modules))
      = Ok tt.
Proof.
  unfold main_on. split.
  - destruct (main_loop w modules initial_state) as [st|e] eqn:Hloop;
      cbn [mbind result_bind]; [|discriminate].
    destruct (write_text w (u "api/index.rst") (_make_api_index (generated st)))
      as [[]|e] eqn:Hw; cbn [mbind result_bind]; [|discriminate].
    cbn [errors]. destruct (errors st) eqn:He; [|discriminate].
    intros _. destruct (main_loop_no_error w modules _ _ Hloop He) as (? & _ & Hg).
    cbn [generated initial_state app] in Hg. by rewrite <- Hg.
  - intros [Hall Hw].
    destruct (main_loop_all_written w modules initial_state Hall)
      as (st & -> & He & Hg).
    cbn [generated errors initial_state app] in He, Hg.
    cbn [mbind result_bind]. rewrite Hg, Hw. cbn [mbind result_bind errors].
    by rewrite He.
Qed.

(** The index of one module. *)
Lemma index_of_one name :
  _make_api_index [name]
  = join LF (map u ["============="; "API Reference"; "============="; "";
                    "Complete reference for all exported symbols.";
                    "Generated automatically from source docstrings via ``nim jsondoc``.";
                    "";
                    ".. toctree::"; "   :maxdepth: 1"; "   :caption: Modules";
                    ""]%string)
    ++ LF ++ u "   " ++ name ++ LF.
Proof.
  unfold _make_api_index. cbn [map app].
  change (times (u "=") 13) with (u "=============").
  cbn [join]. rewrite <- !app_assoc. by rewrite app_nil_r.
Qed.

(** C6, as the code has it: in a run over two modules in which the
    exporter of one fails in a way [main] records (the command is not
    found, ends with a return code other than 0 or leaves no output
    file), the page of the other is written and the index can be written,
    [main] returns 1, so the exit status is not 0; the index page, written
    last, is the fixed header followed by the line of the succeeding
    module alone; the failed list and the report on the error stream name
    the failing module.  For every module list, the exit status is 0
    exactly when the page of every module is written and the index is
    written. *)
Theorem C6_exit_status_reflects_failures w failing succeeding modules :
  modules = [failing; succeeding] ∨ modules = [succeeding; failing] →
  _run_jsondoc w failing = Ok false →
  page_written w succeeding = true →
  write_error w (u "api/index.rst") = None →
  utf8_encodable (mod_name succeeding) = true →
  (∃ st, main_on modules w = Ok (1%Z, st)
         ∧ generated st = [mod_name succeeding]
         ∧ errors st = [mod_name failing]
         ∧ last (files st)
           = Some (u "api/index.rst",
                   join LF
                     (map u ["============="; "API Reference"; "============="; "";
                             "Complete reference for all exported symbols.";
                             "Generated automatically from source docstrings via ``nim jsondoc``.";
                             "";
                             ".. toctree::"; "   :maxdepth: 1";
                             "   :caption: Modules"; ""]%string)
                   ++ LF ++ u "   " ++ mod_name succeeding ++ LF)
         ∧ reported st = [LF ++ u "Failed modules: " ++ mod_name failing])
  ∧ exit_status (main_on modules w) ≠ 0%Z
  ∧ (∀ ms, exit_status (main_on ms w) = 0%Z
           ↔ forallb (page_written w) ms = true
             ∧ write_text w (u "api/index.rst") (_make_api_index (map mod_name ms))
               = Ok tt).
Proof.
  intros Hms Hfail Hok Hopen Henc.
  assert (Hidx : write_text w (u "api/index.rst")
                   (_make_api_index [mod_name succeeding]) = Ok tt).
  { unfold write_text. rewrite Hopen, index_of_one.
    unfold utf8_encodable in *. rewrite !forallb_app, Henc. done. }
  assert (Hrun : ∃ st, main_on modules w = Ok (1%Z, st)
                 ∧ generated st = [mod_name succeeding]
                 ∧ errors st = [mod_name failing]
                 ∧ last (files st)
                   = Some (u "api/index.rst", _make_api_index [mod_name succeeding])
                 ∧ reported st = [LF ++ u "Failed modules: " ++ mod_name failing]).
  { destruct Hms as [-> | ->]; unfold main_on; cbn [main_loop].
    - rewrite (process_module_exporter_failed _ _ _ Hfail). cbn [mbind result_bind].
      destruct (process_module_written w succeeding
                  (add_error (mod_name failing) initial_state) Hok) as (page & ->).
      cbn -[_make_api_index]. rewrite Hidx. cbn -[_make_api_index].
      eexists. split; [reflexivity|]. cbn -[_make_api_index]. repeat split.
    - destruct (process_module_written w succeeding initial_state Hok) as (page & ->).
      cbn [mbind result_bind].
      rewrite (process_module_exporter_failed _ _ _ Hfail).
      cbn -[_make_api_index]. rewrite Hidx. cbn -[_make_api_index].
      eexists. split; [reflexivity|]. cbn -[_make_api_index]. repeat split. }
  split; [|split].
  - destruct Hrun as (st & ? & ? & ? & Hlast & ?). exists st.
    rewrite index_of_one in Hlast. done.
  - destruct Hrun as (st & -> & _). done.
  - intros ms. apply exit_status_zero_iff.
Qed.

Lemma C6_exit_status_reflects_failures_witness :
  _run_jsondoc io_fails_world io_module = Ok false
  ∧ page_written io_fails_world definitions_module = true
  ∧ exit_status (main_on [definitions_module; io_module] io_fails_world) ≠ 0%Z.
Proof.
  split; [reflexivity|]. split; [vm_compute; reflexivity|].
  apply (C6_exit_status_reflects_failures io_fails_world io_module
           definitions_module [definitions_module; io_module]).
  - right. reflexivity.
  - reflexivity.
  - vm_compute. reflexivity.
  - reflexivity.
  - reflexivity.
Defined.

(** C6, counterexample: the exporter command of module [io] cannot be
    run and [subprocess.run] raises [PermissionError], which nothing
    catches.  The loop over the modules ends with the exception, after
    the page of [definitions]: the statements after the loop are not
    reached, so no index is written and no failed module is reported;
    [main] does not return. *)
Lemma C6_raising_exporter_leaves_no_index :
  subprocess_run io_denied_world (mod_name io_module) = ProcRaises PermissionError
  ∧ page_written io_denied_world definitions_module = true
  ∧ main_loop io_denied_world [definitions_module; io_module] initial_state
    = Raise PermissionError
  ∧ main_on [definitions_module; io_module] io_denied_world = Raise PermissionError
  ∧ (∀ code st,
       main_on [definitions_module; io_module] io_denied_world ≠ Ok (code, st)).
Proof.
  assert (main_on [definitions_module; io_module] io_denied_world
          = Raise PermissionError) as Hrun by (vm_compute; reflexivity).
  split; [reflexivity|]. split; [vm_compute; reflexivity|].
  split; [vm_compute; reflexivity|]. split; [exact Hrun|].
  intros code st. by rewrite Hrun.
Qed.

(** ** The fragment converter: whitespace *)

Lemma lstrip_decompose s : ∃ ws, s = ws ++ lstrip s ∧ forallb is_space ws = true.
Proof.
  induction s as [|c s (ws & IH & Hws)]; [by exists []|]. cbn [lstrip].
  destruct (is_space c) eqn:Hc.
  - exists (c :: ws). cbn. rewrite Hc, Hws. by rewrite <- IH.
  - by exists [].
Qed.

Lemma lstrip_spaces ws s : forallb is_space ws = true → lstrip (ws ++ s) = lstrip s.
Proof.
  induction ws as [|c ws IH]; [done|]. cbn. intros [-> H]%andb_true_iff. by apply IH.
Qed.

Lemma lstrip_no_leading_space s : starts_with_space (lstrip s) = false.
Proof.
  induction s as [|c s IH]; [done|]. cbn [lstrip].
  destruct (is_space c) eqn:Hc; [done|]. cbn. done.
Qed.

Lemma lstrip_is_suffix s : ∃ ws, s = ws ++ lstrip s.
Proof.
  induction s as [|c s [ws IH]]; [by exists []|]. cbn [lstrip].
  destruct (is_space c).
  - exists (c :: ws). cbn. by rewrite <- IH.
  - by exists [].
Qed.

Lemma rstrip_is_prefix s : ∃ ws, s = rstrip s ++ ws.
Proof.
  unfold rstrip. destruct (lstrip_is_suffix (rev s)) as [ws Hws].
  exists (rev ws). rewrite <- rev_app_distr, <- Hws. by rewrite rev_involutive.
Qed.

Lemma strip_no_leading_space s : starts_with_space (strip s) = false.
Proof.
  unfold strip. destruct (rstrip_is_prefix (lstrip s)) as [ws Hws].
  pose proof (lstrip_no_leading_space s) as Hl. rewrite Hws in Hl.
  by destruct (rstrip (lstrip s)).
Qed.

Lemma strip_no_trailing_space s : ends_with_space (strip s) = false.
Proof.
  unfold ends_with_space, strip, rstrip. rewrite rev_involutive.
  apply lstrip_no_leading_space.
Qed.

(** C10: for every input, the output of the fragment converter neither
    starts nor ends with a whitespace character, and the empty string is
    converted to the empty string. *)
Theorem C10_no_surrounding_whitespace html :
  starts_with_space (_html_to_rst html) = false
  ∧ ends_with_space (_html_to_rst html) = false
  ∧ _html_to_rst [] = [].
Proof.
  unfold _html_to_rst. destruct html as [|c html]; [done|].
  split; [apply strip_no_leading_space|]. split; [apply strip_no_trailing_space|done].
Qed.

(** C8: [&lt;tag&gt;] is converted to the text [<tag>].  The tag rule
    finds nothing in the input, the entities are decoded afterwards, and
    the decoded text is still what the tag rule would remove if it ran
    last. *)
Theorem C8_entities_decoded_after_tags :
  _html_to_rst (u "&lt;tag&gt;") = u "<tag>"
  ∧ sub TAG_RE (λ _, []) (u "&lt;tag&gt;") = u "&lt;tag&gt;"
  ∧ decode_entities (u "&lt;tag&gt;") = u "<tag>"
  ∧ sub TAG_RE (λ _, []) (u "<tag>") = [].
Proof. repeat split; vm_compute; reflexivity. Qed.

(** ** The signature cleaner *)

Lemma find_after_first l : ∀ s rest,
  find_after l s = Some rest →
  ∃ body, s = body ++ l ++ rest
          ∧ ∀ body' rest', s = body' ++ l ++ rest' → (length body ≤ length body')%nat.
Proof.
  induction s as [|c s IH]; intros rest; cbn [find_after].
  - destruct (strip_prefix l []) eqn:Hp; [|done]. intros [= ->].
    apply strip_prefix_Some in Hp. exists []. split; [done|]. cbn. lia.
  - destruct (strip_prefix l (c :: s)) eqn:Hp.
    + intros [= ->]. apply strip_prefix_Some in Hp. exists []. split; [done|]. cbn. lia.
    + intros (body & -> & Hmin)%IH. exists (c :: body). split; [done|].
      intros [|c' body'] rest' Heq.
      * cbn in Heq. rewrite Heq, strip_prefix_app in Hp. done.
      * injection Heq as _ Heq. cbn. apply Hmin in Heq. lia.
Qed.

(** Where the pattern of the cleaner matches: after the whitespace that
    starts the text comes [{.], and the match ends behind the first [.}]
    that follows. *)
Lemma match_at_pragma s :
  match_at _PRAGMA_RE s
  = match strip_prefix (u "{.") (lstrip s) with
    | Some t => (λ rest, ([], rest)) <$> find_after (u ".}") t
    | None => None
    end.
Proof.
  unfold match_at, _PRAGMA_RE. rewrite matches_greedy_class.
  - rewrite drop_span_lstrip, matches_lit_cat.
    destruct (strip_prefix (u "{.") (lstrip s)); [|done].
    apply head_matches_lazy_any_lit.
  - intros c t Hc. rewrite matches_lit_cat. change (u "{.") with [123; 46].
    cbn [strip_prefix]. destruct (N.eqb_spec 123 c) as [<-|]; [|done].
    by vm_compute in Hc.
Qed.

Lemma lstrip_annotated ws body rest :
  forallb is_space ws = true →
  lstrip (annotated ws body rest) = u "{." ++ body ++ u ".}" ++ rest.
Proof. intros Hws. unfold annotated. by rewrite lstrip_spaces. Qed.

Lemma pragma_match_inv s g rest :
  match_at _PRAGMA_RE s = Some (g, rest) →
  ∃ ws body,
    s = annotated ws body rest ∧ forallb is_space ws = true
    ∧ ∀ body' rest', body ++ u ".}" ++ rest = body' ++ u ".}" ++ rest' →
                     (length body ≤ length body')%nat.
Proof.
  rewrite match_at_pragma.
  destruct (strip_prefix (u "{.") (lstrip s)) as [t|] eqn:Hp; [|done].
  destruct (find_after (u ".}") t) as [rest0|] eqn:Hf; [|done].
  intros [= <- <-]. apply strip_prefix_Some in Hp.
  destruct (find_after_first _ _ _ Hf) as (body & -> & Hmin).
  destruct (lstrip_decompose s) as (ws & Hs & Hws).
  exists ws, body. unfold annotated. by rewrite <- Hp.
Qed.

Lemma pragma_match_annotated ws body rest :
  forallb is_space ws = true →
  ∃ rest0, match_at _PRAGMA_RE (annotated ws body rest) = Some ([], rest0).
Proof.
  intros Hws. rewrite match_at_pragma, lstrip_annotated, strip_prefix_app by done.
  destruct (find_after (u ".}") (body ++ u ".}" ++ rest)) as [rest0|] eqn:Hf.
  - by exists rest0.
  - by eapply find_after_None in Hf.
Qed.

Lemma pragma_match_first ws body rest :
  forallb is_space ws = true →
  (∀ body' rest', body ++ u ".}" ++ rest = body' ++ u ".}" ++ rest' →
                  (length body ≤ length body')%nat) →
  match_at _PRAGMA_RE (annotated ws body rest) = Some ([], rest).
Proof.
  intros Hws Hmin. rewrite match_at_pragma, lstrip_annotated, strip_prefix_app by done.
  destruct (find_after (u ".}") (body ++ u ".}" ++ rest)) as [rest0|] eqn:Hf.
  - destruct (find_after_first _ _ _ Hf) as (body0 & Heq & Hmin0).
    assert (length body = length body0) as Hlen.
    { apply Nat.le_antisymm; [by eapply Hmin|by eapply Hmin0]. }
    apply app_inj_1 in Heq as [_ Heq]; [|done].
    apply app_inv_head in Heq. by subst.
  - by eapply find_after_None in Hf.
Qed.

Lemma annotated_length ws body rest :
  (length rest < length (annotated ws body rest))%nat.
Proof.
  unfold annotated. change (u "{.") with [123; 46]. rewrite !length_app. cbn. lia.
Qed.

Lemma sub_pragma_removes n : ∀ s,
  (length s ≤ n)%nat → removed_blocks s (sub _PRAGMA_RE (λ _, []) s).
Proof.
  induction n as [|n IH]; intros s Hn.
  - destruct s; [|cbn in Hn; lia]. vm_compute. constructor.
  - destruct s as [|c s]; [vm_compute; constructor|].
    destruct (match_at _PRAGMA_RE (c :: s)) as [[g rest]|] eqn:Hm.
    + destruct (pragma_match_inv _ _ _ Hm) as (ws & body & Heq & Hws & Hmin).
      pose proof (annotated_length ws body rest) as Hlen. rewrite <- Heq in Hlen.
      rewrite (sub_match _ _ _ _ _ Hm Hlen). cbn [app]. rewrite Heq.
      apply rb_block; [done|done|]. apply IH. cbn in Hlen, Hn. lia.
    + rewrite sub_keep by done. apply rb_keep.
      * intros ws body rest Hws Heq.
        destruct (pragma_match_annotated ws body rest Hws) as [rest0 H0].
        rewrite <- Heq in H0. congruence.
      * apply IH. cbn in Hn. lia.
Qed.

Lemma removed_blocks_sub s t :
  removed_blocks s t → t = sub _PRAGMA_RE (λ _, []) s.
Proof.
  induction 1 as [|ws body rest t Hws Hmin _ IH|c s t Hno _ IH].
  - by vm_compute.
  - rewrite (sub_match _ _ _ _ _ (pragma_match_first ws body rest Hws Hmin)
               (annotated_length ws body rest)).
    done.
  - rewrite sub_keep; [by rewrite IH|].
    destruct (match_at _PRAGMA_RE (c :: s)) as [[g rest]|] eqn:Hm; [|done].
    destruct (pragma_match_inv _ _ _ Hm) as (ws & body & Heq & Hws & _).
    by destruct (Hno ws body rest Hws).
Qed.

(** C5, as the code has it: for every input, the cleaner returns the
    trimmed text [t] that is left when every annotation block (from [{.]
    to the first [.}] after it) is removed together with the whitespace
    in front of it and every other character is kept in place; that text
    is unique. *)
Theorem C5_blocks_removed_with_leading_whitespace code :
  ∃ t, removed_blocks code t
       ∧ (∀ t', removed_blocks code t' → t' = t)
       ∧ _clean_code code = strip t.
Proof.
  exists (sub _PRAGMA_RE (λ _, []) code). split; [|split].
  - by apply (sub_pragma_removes (length code)).
  - apply removed_blocks_sub.
  - done.
Qed.

(** C5, counterexample: whitespace in front of a block is removed with
    the block, so the text between two pieces of code changes; a cleaner
    that removes exactly the blocks leaves both spaces of [a {.x.} b]. *)
Lemma C5_whitespace_before_block_removed :
  _clean_code (u "a {.x.} b") = u "a b"
  ∧ clean_blocks_only (u "a {.x.} b") = u "a  b"
  ∧ _clean_code (u "a {.x.} b") ≠ clean_blocks_only (u "a {.x.} b").
Proof. split; [|split]; by vm_compute. Qed.

(** ** The fragment converter on text without tags *)

Lemma span_stops p s :
  drop (span p s) s = []
  ∨ ∃ d t, drop (span p s) s = d :: t ∧ p d = false.
Proof.
  induction s as [|c s IH]; [by left|]. cbn [span].
  destruct (p c) eqn:Hc; [done|]. right. by exists c, s.
Qed.

Lemma span_reaches p s x : x ∈ s → p x = false → (span p s < length s)%nat.
Proof.
  induction s as [|c s IH]; [by intros ?%elem_of_nil|].
  intros [->|Hin]%elem_of_cons Hx; cbn.
  - rewrite Hx. lia.
  - destruct (p c); [|lia]. specialize (IH Hin Hx). lia.
Qed.

(** The tag pattern matches exactly the texts that start with a tag. *)
Lemma tag_like_match s : tag_like s → is_Some (match_at TAG_RE s).
Proof.
  intros (c & t & -> & Hc & Hin). apply match_at_is_Some. unfold TAG_RE.
  pose proof (span_reaches not_gt (c :: t) 62 (list_elem_of_further _ _ _ Hin) eq_refl)
    as Hlt.
  destruct (span_stops not_gt (c :: t)) as [Hnil|(d & t' & Hd & Hpd)].
  { apply (f_equal length) in Hnil. rewrite length_drop in Hnil. cbn in Hnil, Hlt. lia. }
  exists ([], t'). apply elem_of_matches_lit_cat. exists (c :: t). split; [done|].
  apply elem_of_matches_cat. exists [], (drop (span not_gt (c :: t)) (c :: t)). split.
  - apply elem_of_matches_rep. eexists. split; [done|]. split; [|done].
    cbn. unfold not_gt at 1. destruct (N.eqb_spec c 62); [done|]. cbn. lia.
  - apply elem_of_matches_lit. exists t'. split; [done|]. rewrite Hd.
    unfold not_gt in Hpd. apply negb_false_iff, N.eqb_eq in Hpd. by subst.
Qed.

Lemma tag_like_prefix l c t s :
  l = 60 :: c :: t → c ≠ 62 → 62 ∈ t ++ s → tag_like (l ++ s).
Proof. intros -> Hc Hin. by exists c, (t ++ s). Qed.

Lemma elem_of_drop_head (x : N) k (t t' : str) : drop k t = x :: t' → x ∈ t.
Proof.
  intros H. rewrite <- (take_drop k t), H. apply elem_of_app. right. by left.
Qed.

(** [>] alone, and a pattern that starts with it. *)
Lemma starts_with_gt_lit : starts_with_gt (Lit (u ">")).
Proof. intros g s x (rest & _ & ->)%elem_of_matches_lit. by exists rest. Qed.

Lemma starts_with_gt_cat r : starts_with_gt (Lit (u ">") +++ r).
Proof. intros g s x (rest & -> & _)%elem_of_matches_lit_cat. by exists rest. Qed.

(** The patterns of the shape [<name[^>]*>...]. *)
Lemma open_tag_match l c t r g s x :
  l = 60 :: c :: t → c ≠ 62 → starts_with_gt r →
  x ∈ matches (Lit l +++ Rep true not_gt 0 +++ r) g s → tag_like s.
Proof.
  intros Hl Hc Hr (s0 & -> & Hx)%elem_of_matches_lit_cat.
  apply elem_of_matches_cat in Hx as (g1 & s1 & Hrep & Hx).
  apply elem_of_matches_rep in Hrep as (k & [= -> ->] & _).
  apply Hr in Hx as (t' & Hd). apply (tag_like_prefix l c t); [done|done|].
  apply elem_of_app. right. by eapply elem_of_drop_head.
Qed.

(** The patterns of the shape [<(?:a|b)>...]. *)
Lemma alt_tag_match a b r g s x :
  head a ≠ Some 62 → head b ≠ Some 62 → a ≠ [] → b ≠ [] →
  starts_with_gt r →
  x ∈ matches (Lit (u "<") +++ Alt (Lit a) (Lit b) +++ r) g s → tag_like s.
Proof.
  intros Ha Hb Hane Hbne Hr (s0 & -> & Hx)%elem_of_matches_lit_cat.
  apply elem_of_matches_cat in Hx as (g1 & s1 & Halt & Hx).
  apply Hr in Hx as (t' & ->). cbn [matches] in Halt.
  apply elem_of_app in Halt as [H|H];
    apply elem_of_matches_lit in H as (rest & [= _ <-] & ->).
  - destruct a as [|c a]; [done|]. exists c, (a ++ 62 :: t'). split; [done|].
    split; [by intros ->|]. apply elem_of_app. right. by left.
  - destruct b as [|c b]; [done|]. exists c, (b ++ 62 :: t'). split; [done|].
    split; [by intros ->|]. apply elem_of_app. right. by left.
Qed.

(** The patterns that start with a whole tag. *)
Lemma whole_tag_match l c t r g s x :
  l = 60 :: c :: t → c ≠ 62 → 62 ∈ t →
  x ∈ matches (Lit l +++ r) g s → tag_like s.
Proof.
  intros Hl Hc Hin (s0 & -> & _)%elem_of_matches_lit_cat.
  apply (tag_like_prefix l c t); [done|done|]. apply elem_of_app. by left.
Qed.

(** Every pattern the converter substitutes matches only where a tag
    starts. *)
Lemma tag_pattern_TT : tag_pattern TT_RE.
Proof.
  intros s [x Hx]%match_at_is_Some. unfold TT_RE in Hx.
  eapply (open_tag_match _ 116 [116]); [done|done|apply starts_with_gt_cat|done].
Qed.

Lemma tag_pattern_UL : tag_pattern UL_RE.
Proof.
  intros s [x Hx]%match_at_is_Some. unfold UL_RE in Hx.
  eapply (open_tag_match _ 117 [108]); [done|done|apply starts_with_gt_lit|done].
Qed.

Lemma tag_pattern_P : tag_pattern P_RE.
Proof.
  intros s [x Hx]%match_at_is_Some. unfold P_RE in Hx.
  eapply (whole_tag_match _ 112 [62]); [done|done| |done]. by left.
Qed.

Lemma tag_pattern_LI : tag_pattern LI_RE.
Proof.
  intros s [x Hx]%match_at_is_Some. unfold LI_RE in Hx.
  eapply (whole_tag_match _ 108 [105; 62]); [done|done| |done].
  by apply (bool_decide_unpack _).
Qed.

Lemma tag_pattern_UL_END : tag_pattern UL_END_RE.
Proof.
  intros s [x Hx]%match_at_is_Some. unfold UL_END_RE in Hx.
  apply elem_of_matches_lit in Hx as (rest & _ & ->).
  apply (tag_like_prefix _ 47 [117; 108; 62]); [done|done|].
  apply elem_of_app. left. by apply (bool_decide_unpack _).
Qed.

Lemma tag_pattern_B : tag_pattern B_RE.
Proof.
  intros s [x Hx]%match_at_is_Some. unfold B_RE in Hx.
  eapply alt_tag_match; [| | | |apply starts_with_gt_cat|exact Hx]; done.
Qed.

Lemma tag_pattern_EM : tag_pattern EM_RE.
Proof.
  intros s [x Hx]%match_at_is_Some. unfold EM_RE in Hx.
  eapply alt_tag_match; [| | | |apply starts_with_gt_cat|exact Hx]; done.
Qed.

Lemma search_tag_pattern r s :
  tag_pattern r → has_tag s = false → search r s = false.
Proof.
  intros Hr Hs. destruct (search r s) eqn:Hsr; [|done].
  apply search_true in Hsr as (a & t & -> & Ht%Hr%tag_like_match).
  unfold has_tag in Hs. enough (search TAG_RE (a ++ t) = true) by congruence.
  apply search_true. eauto.
Qed.

Lemma has_entity_false s :
  has_entity s = false → Forall (λ e, occurs e s = false) ENTITIES.
Proof.
  unfold has_entity. intros H. apply Forall_forall. intros e He.
  destruct (occurs e s) eqn:Ho; [|done].
  assert (existsb (λ e, occurs e s) ENTITIES = true); [|congruence].
  apply existsb_exists. exists e. by rewrite <- list_elem_of_In.
Qed.

Lemma decode_entities_plain s : has_entity s = false → decode_entities s = s.
Proof.
  intros H%has_entity_false. unfold ENTITIES in H.
  repeat (apply Forall_cons_1 in H as [? H]).
  unfold decode_entities.
  rewrite (replace_absent (u "&lt;")) by (done || by vm_compute).
  rewrite (replace_absent (u "&gt;")) by (done || by vm_compute).
  rewrite (replace_absent (u "&amp;")) by (done || by vm_compute).
  rewrite (replace_absent (u "&quot;")) by (done || by vm_compute).
  rewrite (replace_absent (u "&#39;")) by (done || by vm_compute).
  by rewrite (replace_absent (u "&nbsp;")) by (done || by vm_compute).
Qed.

(** On a text without tags and without entities the converter only
    collapses the blank lines and trims. *)
Lemma html_to_rst_plain s :
  has_tag s = false → has_entity s = false → _html_to_rst s = strip (collapse s).
Proof.
  intros Ht He. unfold _html_to_rst. destruct s as [|c s]; [done|].
  rewrite (sub_not_found TT_RE) by (by apply search_tag_pattern, Ht; apply tag_pattern_TT).
  rewrite (sub_not_found P_RE) by (by apply search_tag_pattern, Ht; apply tag_pattern_P).
  rewrite (sub_not_found B_RE) by (by apply search_tag_pattern, Ht; apply tag_pattern_B).
  rewrite (sub_not_found EM_RE) by (by apply search_tag_pattern, Ht; apply tag_pattern_EM).
  rewrite (sub_not_found UL_RE) by (by apply search_tag_pattern, Ht; apply tag_pattern_UL).
  rewrite (sub_not_found UL_END_RE)
    by (by apply search_tag_pattern, Ht; apply tag_pattern_UL_END).
  rewrite (sub_not_found LI_RE) by (by apply search_tag_pattern, Ht; apply tag_pattern_LI).
  rewrite (sub_not_found TAG_RE) by done.
  by rewrite decode_entities_plain.
Qed.

(** ** Blank lines *)

Lemma match_at_blanks s :
  match_at BLANKS_RE s
  = if (3 <=? span newline s)%nat then Some ([], drop (span newline s) s) else None.
Proof.
  unfold match_at, BLANKS_RE. cbn [matches]. unfold rep_counts.
  destruct (Nat.ltb_spec (span newline s) 3) as [Hlt|Hge].
  - by rewrite (proj2 (Nat.leb_gt _ _) Hlt).
  - rewrite (proj2 (Nat.leb_le _ _) Hge).
    replace (S (span newline s) - 3)%nat with (S (span newline s - 3)) by lia.
    rewrite seq_S, rev_app_distr. cbn [rev app map head]. do 3 f_equal. lia.
Qed.

Lemma span_drop_span p s : span p (drop (span p s) s) = 0%nat.
Proof.
  induction s as [|c s IH]; [done|]. cbn [span].
  destruct (p c) eqn:Hc; [done|]. cbn. by rewrite Hc.
Qed.

Lemma collapse_nil : collapse [] = [].
Proof. done. Qed.

Lemma collapse_keep c s :
  (span newline (c :: s) < 3)%nat → collapse (c :: s) = c :: collapse s.
Proof.
  intros H. unfold collapse. apply sub_keep. rewrite match_at_blanks.
  by rewrite (proj2 (Nat.leb_gt _ _) H).
Qed.

Lemma collapse_run s :
  (3 ≤ span newline s)%nat →
  collapse s = 10 :: 10 :: collapse (drop (span newline s) s).
Proof.
  intros H. unfold collapse.
  rewrite (sub_match _ _ s [] (drop (span newline s) s)); [done| |].
  - rewrite match_at_blanks. by rewrite (proj2 (Nat.leb_le _ _) H).
  - rewrite length_drop. destruct s; cbn in *; lia.
Qed.

(** Induction along the work of [collapse]: a character outside a run of
    three or more line feeds is kept, and such a run becomes two line
    feeds. *)
Lemma collapse_ind (P : str → str → Prop) :
  P [] [] →
  (∀ c s t, (span newline (c :: s) < 3)%nat → P s t → P (c :: s) (c :: t)) →
  (∀ s t, (3 ≤ span newline s)%nat →
          P (drop (span newline s) s) t → P s (10 :: 10 :: t)) →
  ∀ s, P s (collapse s).
Proof.
  intros Hnil Hkeep Hrun s.
  remember (length s) as n eqn:Hn. revert s Hn.
  induction n as [n IH] using lt_wf_ind. intros s ->.
  destruct s as [|c s]; [done|].
  destruct (Nat.lt_ge_cases (span newline (c :: s)) 3) as [Hlt|Hge].
  - rewrite collapse_keep by done. apply Hkeep; [done|].
    eapply IH; [|done]. cbn. lia.
  - rewrite collapse_run by done. apply Hrun; [done|].
    eapply IH; [|done]. rewrite length_drop. cbn [length]. lia.
Qed.

Lemma span_newline_head s : (0 < span newline s)%nat → ∃ t, s = 10 :: t.
Proof.
  destruct s as [|c s]; cbn; [lia|]. unfold newline.
  destruct (N.eqb_spec c 10) as [->|]; [by eauto|lia].
Qed.

(** The result of [collapse] has no run of three line feeds. *)
Lemma collapse_no_run s :
  (span newline (collapse s) ≤ span newline s)%nat
  ∧ search BLANKS_RE (collapse s) = false.
Proof.
  apply (collapse_ind (λ s t, (span newline t ≤ span newline s)%nat
                              ∧ search BLANKS_RE t = false)).
  - done.
  - intros c s' t Hlt [Hle Hs]. split.
    + cbn [span]. destruct (newline c); lia.
    + cbn [search]. rewrite match_at_blanks.
      assert (span newline (c :: t) < 3)%nat as Hct.
      { cbn [span] in *. destruct (newline c); lia. }
      by rewrite (proj2 (Nat.leb_gt _ _) Hct).
  - intros s' t Hge [Hle Hs]. rewrite span_drop_span in Hle.
    assert (span newline t = 0)%nat as Ht by lia. split.
    + cbn. lia.
    + cbn [search]. rewrite !match_at_blanks. cbn [span newline N.eqb Pos.eqb].
      rewrite Ht. done.
Qed.

(** A text without a run of three line feeds is left as it is, and so
    are its parts. *)
Lemma search_suffix r a : ∀ s, search r (a ++ s) = false → search r s = false.
Proof.
  induction a as [|c a IH]; intros s; [done|]. cbn [app search].
  destruct (match_at r (c :: a ++ s)); [done|]. apply IH.
Qed.

Lemma span_app_le p s b : (span p s ≤ span p (s ++ b))%nat.
Proof. induction s as [|c s IH]; cbn; [lia|]. destruct (p c); lia. Qed.

Lemma search_blanks_prefix s b :
  search BLANKS_RE (s ++ b) = false → search BLANKS_RE s = false.
Proof.
  induction s as [|c s IH]; [done|]. cbn [app search]. rewrite !match_at_blanks.
  pose proof (span_app_le newline (c :: s) b) as Hle.
  change ((c :: s) ++ b) with (c :: s ++ b) in Hle.
  destruct (Nat.leb_spec 3 (span newline (c :: s ++ b))) as [|Hlt]; [done|].
  rewrite (proj2 (Nat.leb_gt _ _)) by lia. apply IH.
Qed.

Lemma collapse_fixed s : search BLANKS_RE s = false → collapse s = s.
Proof. apply sub_not_found. Qed.

Lemma strip_infix s : ∃ a b, s = a ++ strip s ++ b.
Proof.
  unfold strip. destruct (lstrip_is_suffix s) as [a Ha].
  destruct (rstrip_is_prefix (lstrip s)) as [b Hb].
  exists a, b. by rewrite <- Hb.
Qed.

Lemma search_blanks_strip s :
  search BLANKS_RE s = false → search BLANKS_RE (strip s) = false.
Proof.
  destruct (strip_infix s) as (a & b & Heq). rewrite Heq at 1.
  intros H%search_suffix. by eapply search_blanks_prefix.
Qed.

Lemma strip_fixed s :
  starts_with_space s = false → ends_with_space s = false → strip s = s.
Proof.
  intros Hl Hr. assert (∀ t, starts_with_space t = false → lstrip t = t) as Hid.
  { intros [|c t]; [done|]. cbn. by intros ->. }
  unfold strip, rstrip. rewrite (Hid s) by done. rewrite Hid by done.
  apply rev_involutive.
Qed.

Lemma strip_idempotent s : strip (strip s) = strip s.
Proof.
  apply strip_fixed; [apply strip_no_leading_space|apply strip_no_trailing_space].
Qed.

(** ** Tags and entities under [collapse] and [strip] *)

Lemma tag_match_like g s x : x ∈ matches TAG_RE g s → tag_like s.
Proof.
  unfold TAG_RE. intros (t & -> & Hx)%elem_of_matches_lit_cat.
  apply elem_of_matches_cat in Hx as (g1 & s1 & Hrep & Hx).
  apply elem_of_matches_rep in Hrep as (k & [= -> ->] & Hk & Hspan).
  apply elem_of_matches_lit in Hx as (rest & _ & Hd).
  destruct t as [|c t]; [cbn in Hspan; lia|]. cbn [span] in Hspan.
  unfold not_gt at 1 in Hspan. destruct (N.eqb_spec c 62) as [|Hc]; [cbn in Hspan; lia|].
  destruct k as [|k]; [lia|]. cbn [drop] in Hd.
  change (u ">") with [62] in Hd. change (u "<") with [60].
  exists c, t. split; [done|]. split; [done|]. by eapply elem_of_drop_head.
Qed.

Lemma has_tag_true s : has_tag s = true ↔ tagged s.
Proof.
  unfold has_tag, tagged. rewrite search_true. split.
  - intros (a & t & -> & [x Hx]%match_at_is_Some). exists a, t.
    split; [done|]. by eapply tag_match_like.
  - intros (a & t & -> & Ht%tag_like_match). eauto.
Qed.

Lemma tag_like_app s b : tag_like s → tag_like (s ++ b).
Proof.
  intros (c & t & -> & Hc & Hin). exists c, (t ++ b). split; [done|].
  split; [done|]. apply elem_of_app. by left.
Qed.

Lemma tagged_infix a s b : tagged s → tagged (a ++ s ++ b).
Proof.
  intros (a0 & t & -> & Ht). exists (a ++ a0), (t ++ b).
  split; [by rewrite <- !app_assoc|]. by apply tag_like_app.
Qed.

Lemma contains_infix l a s b : contains l s → contains l (a ++ s ++ b).
Proof.
  intros (a0 & b0 & ->). exists (a ++ a0), (b0 ++ b). by rewrite <- !app_assoc.
Qed.

Lemma tagged_cons c s : tagged s → tagged (c :: s).
Proof. intros H. apply (tagged_infix [c] s []) in H. by rewrite app_nil_r in H. Qed.

Lemma contains_cons l c s : contains l s → contains l (c :: s).
Proof. intros H. apply (contains_infix l [c] s []) in H. by rewrite app_nil_r in H. Qed.

Lemma tagged_drop k s : tagged (drop k s) → tagged s.
Proof.
  intros H. apply (tagged_infix (take k s) _ []) in H.
  by rewrite app_nil_r, take_drop in H.
Qed.

Lemma contains_drop l k s : contains l (drop k s) → contains l s.
Proof.
  intros H. apply (contains_infix l (take k s) _ []) in H.
  by rewrite app_nil_r, take_drop in H.
Qed.

(** [collapse] only leaves out line feeds, and none that separates two
    other characters: it brings no tag into being. *)
Lemma collapse_tagged s :
  (∀ x, x ∈ collapse s → x ∈ s)
  ∧ (∀ c, c ≠ 10 → head s = Some c → head (collapse s) = Some c)
  ∧ (tagged (collapse s) → tagged s).
Proof.
  apply (collapse_ind (λ s t, (∀ x, x ∈ t → x ∈ s)
                              ∧ (∀ c, c ≠ 10 → head s = Some c → head t = Some c)
                              ∧ (tagged t → tagged s))).
  - done.
  - intros c s' t _ (Helem & Hhead & Htag). split; [|split].
    + intros x [->|Hx]%elem_of_cons; [by left|]. right. by apply Helem.
    + done.
    + intros ([|c' a] & t0 & Heq & Ht0).
      * cbn in Heq. subst t0. destruct Ht0 as (d & t' & [= -> ->] & Hd & Hin).
        assert (62 ∈ s') as Hs' by (apply Helem; by right).
        destruct s' as [|d' s']; [by apply elem_of_nil in Hs'|].
        assert (d' ≠ 62) as Hd'.
        { intros ->. specialize (Hhead 62 ltac:(done) eq_refl). cbn in Hhead.
          congruence. }
        exists [], (60 :: d' :: s'). split; [done|]. exists d', s'.
        split; [done|]. split; [done|].
        apply elem_of_cons in Hs' as [?|?]; [congruence|done].
      * injection Heq as -> ->. apply tagged_cons, Htag. by exists a, t0.
  - intros s' t Hge (Helem & Hhead & Htag).
    destruct (span_newline_head s' ltac:(lia)) as [s'' Hs'']. split; [|split].
    + intros x [->|[->|Hx]%elem_of_cons]%elem_of_cons.
      * rewrite Hs''. by left.
      * rewrite Hs''. by left.
      * apply Helem in Hx. rewrite <- (take_drop (span newline s') s').
        apply elem_of_app. by right.
    + intros c Hc. rewrite Hs''. cbn. congruence.
    + intros ([|c1 [|c2 a]] & t0 & Heq & Ht0).
      * cbn in Heq. subst t0. by destruct Ht0 as (d & t' & [= ? ?] & _).
      * injection Heq as <- <-. by destruct Ht0 as (d & t' & [= ? ?] & _).
      * injection Heq as <- <- ->. eapply tagged_drop, Htag. by exists a, t0.
Qed.

(** Nor does it bring into being a text that holds no line feed. *)
Lemma collapse_contains s l :
  Forall (λ x, x ≠ 10) l →
  (l `prefix_of` collapse s → l `prefix_of` s)
  ∧ (l ≠ [] → contains l (collapse s) → contains l s).
Proof.
  revert l.
  apply (collapse_ind (λ s t, ∀ l, Forall (λ x, x ≠ 10) l →
           (l `prefix_of` t → l `prefix_of` s)
           ∧ (l ≠ [] → contains l t → contains l s))).
  - done.
  - intros c s' t _ IH l Hl.
    assert (l `prefix_of` c :: t → l `prefix_of` c :: s') as Hpre.
    { destruct l as [|x l]; [intros _; apply prefix_nil|].
      intros [k [= -> Hk]]. apply prefix_cons.
      apply Forall_cons_1 in Hl as [_ Hl]. apply (IH l Hl). by exists k. }
    split; [done|]. intros Hne ([|c' a] & b & Heq).
    + destruct Hpre as [k Hk]; [by exists b|]. exists [], k. done.
    + injection Heq as -> ->. apply contains_cons, (IH l Hl); [done|]. by exists a, b.
  - intros s' t Hge IH l Hl.
    assert (l `prefix_of` 10 :: 10 :: t → l = []) as Hpre.
    { destruct l as [|x l]; [done|]. intros [k [= <- _]].
      by apply Forall_cons_1 in Hl as [? _]. }
    split.
    + intros ->%Hpre. apply prefix_nil.
    + intros Hne ([|c1 [|c2 a]] & b & Heq).
      * destruct Hne. apply Hpre. by exists b.
      * injection Heq as <- Heq. destruct l as [|x l]; [done|].
        injection Heq as <- _. by apply Forall_cons_1 in Hl as [? _].
      * injection Heq as <- <- ->. eapply contains_drop, (IH l Hl); [done|].
        by exists a, b.
Qed.

Lemma has_tag_collapse s : has_tag s = false → has_tag (collapse s) = false.
Proof.
  intros H. destruct (has_tag (collapse s)) eqn:Ht; [|done].
  apply has_tag_true, collapse_tagged, has_tag_true in Ht. congruence.
Qed.

Lemma has_tag_strip s : has_tag s = false → has_tag (strip s) = false.
Proof.
  intros H. destruct (has_tag (strip s)) eqn:Ht; [|done].
  apply has_tag_true in Ht. destruct (strip_infix s) as (a & b & Heq).
  apply (tagged_infix a _ b) in Ht. rewrite <- Heq in Ht.
  apply has_tag_true in Ht. congruence.
Qed.

Lemma has_entity_true s :
  has_entity s = true ↔ ∃ e, e ∈ ENTITIES ∧ contains e s.
Proof.
  unfold has_entity. rewrite existsb_exists. split.
  - intros (e & He%list_elem_of_In & Ho%occurs_true). by exists e.
  - intros (e & He%list_elem_of_In & Ho%occurs_true). by exists e.
Qed.

Lemma entity_plain e : e ∈ ENTITIES → Forall (λ x, x ≠ 10) e ∧ e ≠ [].
Proof.
  unfold ENTITIES. rewrite !elem_of_cons, elem_of_nil.
  intros [->|[->|[->|[->|[->|[->|[]]]]]]]; (split; [|done]);
    vm_compute; repeat constructor; done.
Qed.

Lemma has_entity_collapse s : has_entity s = false → has_entity (collapse s) = false.
Proof.
  intros H. destruct (has_entity (collapse s)) eqn:Ht; [|done].
  apply has_entity_true in Ht as (e & He & Hc).
  destruct (entity_plain e He) as [Hplain Hne].
  apply (collapse_contains s e Hplain) in Hc; [|done].
  assert (has_entity s = true); [|congruence]. apply has_entity_true. eauto.
Qed.

Lemma has_entity_strip s : has_entity s = false → has_entity (strip s) = false.
Proof.
  intros H. destruct (has_entity (strip s)) eqn:Ht; [|done].
  apply has_entity_true in Ht as (e & He & Hc).
  destruct (strip_infix s) as (a & b & Heq).
  apply (contains_infix e a _ b) in Hc. rewrite <- Heq in Hc.
  assert (has_entity s = true); [|congruence]. apply has_entity_true. eauto.
Qed.

(** C4, as the code has it: for every text that holds no tag and none of
    the six entities the converter decodes, converting the converted
    text gives the converted text. *)
Theorem C4_idempotent_without_tags_and_entities x :
  has_tag x = false →
  has_entity x = false →
  _html_to_rst (_html_to_rst x) = _html_to_rst x.
Proof.
  intros Ht He. rewrite (html_to_rst_plain x) by done.
  rewrite html_to_rst_plain.
  - rewrite collapse_fixed.
    + apply strip_idempotent.
    + apply search_blanks_strip, collapse_no_run.
  - by apply has_tag_strip, has_tag_collapse.
  - by apply has_entity_strip, has_entity_collapse.
Qed.

Lemma C4_idempotent_without_tags_and_entities_witness :
  has_tag (u "  a < b & c  ") = false
  ∧ has_entity (u "  a < b & c  ") = false
  ∧ _html_to_rst (_html_to_rst (u "  a < b & c  ")) = _html_to_rst (u "  a < b & c  ").
Proof.
  split; [reflexivity|]. split; [reflexivity|].
  apply (C4_idempotent_without_tags_and_entities (u "  a < b & c  ")); reflexivity.
Defined.

(** C4, counterexample: [&amp;lt;] holds no tag; it is converted to
    [&lt;], and that to [<]. *)
Lemma C4_double_escape_not_idempotent :
  has_tag (u "&amp;lt;") = false
  ∧ _html_to_rst (u "&amp;lt;") = u "&lt;"
  ∧ _html_to_rst (_html_to_rst (u "&amp;lt;")) = u "<"
  ∧ _html_to_rst (_html_to_rst (u "&amp;lt;")) ≠ _html_to_rst (u "&amp;lt;").
Proof. repeat split; by vm_compute. Qed.

(** * Further properties *)

(** ** The fragment converter: blank lines and plain text *)

Lemma span_newline_three s :
  (3 ≤ span newline s)%nat → ∃ t, s = LF ++ LF ++ LF ++ t.
Proof.
  intros H. destruct (span_newline_head s ltac:(lia)) as [s1 ->].
  cbn [span] in H. change (newline 10) with true in H. cbn in H.
  destruct (span_newline_head s1 ltac:(lia)) as [s2 ->].
  cbn [span] in H. change (newline 10) with true in H. cbn in H.
  destruct (span_newline_head s2 ltac:(lia)) as [s3 ->].
  by exists s3.
Qed.

(** The pattern [\n{3,}] is found exactly in the texts that hold three
    line feeds in a row. *)
Lemma search_blanks_occurs s :
  search BLANKS_RE s = occurs (LF ++ LF ++ LF) s.
Proof.
  apply eq_true_iff_eq. rewrite search_true, occurs_true. split.
  - intros (a & t & -> & Hm). rewrite match_at_blanks in Hm.
    destruct (Nat.leb_spec 3 (span newline t)) as [Hge|]; [|by destruct Hm].
    destruct (span_newline_three t Hge) as [b ->]. exists a, b.
    by rewrite <- !app_assoc.
  - intros (a & b & ->). exists a, (LF ++ LF ++ LF ++ b).
    split; [by rewrite <- !app_assoc|]. rewrite match_at_blanks. cbn [app LF span].
    change (newline 10) with true. cbn. done.
Qed.

(** X1: the output of the fragment converter never holds three line
    feeds in a row: a run of blank lines in the converted text is at most
    one blank line. *)
Theorem X1_output_has_no_run_of_blank_lines html :
  occurs (LF ++ LF ++ LF) (_html_to_rst html) = false.
Proof.
  rewrite <- search_blanks_occurs. unfold _html_to_rst.
  destruct html as [|c html]; [done|].
  apply search_blanks_strip, collapse_no_run.
Qed.

(** X2: a text without tags, without entities and without three line
    feeds in a row is only trimmed by the fragment converter. *)
Theorem X2_plain_text_is_only_trimmed s :
  has_tag s = false →
  has_entity s = false →
  occurs (LF ++ LF ++ LF) s = false →
  _html_to_rst s = strip s.
Proof.
  intros Ht He Hb. rewrite html_to_rst_plain by done.
  rewrite collapse_fixed; [done|]. by rewrite search_blanks_occurs.
Qed.

Lemma X2_plain_text_is_only_trimmed_witness :
  has_tag (u "  x > 0 & y < 1 ") = false
  ∧ _html_to_rst (u "  x > 0 & y < 1 ") = strip (u "  x > 0 & y < 1 ").
Proof.
  split; [reflexivity|].
  apply (X2_plain_text_is_only_trimmed (u "  x > 0 & y < 1 ")); reflexivity.
Defined.

(** ** The signature cleaner: what it leaves alone *)

Lemma annotated_contains ws body rest :
  contains (u "{.") (annotated ws body rest)
  ∧ contains (u ".}") (annotated ws body rest).
Proof.
  unfold annotated. split.
  - by exists ws, (body ++ u ".}" ++ rest).
  - exists (ws ++ u "{." ++ body), rest. by rewrite <- !app_assoc.
Qed.

Lemma search_pragma_contains s :
  search _PRAGMA_RE s = true → contains (u "{.") s ∧ contains (u ".}") s.
Proof.
  intros (a & t & -> & [[g rest] Hm])%search_true.
  apply pragma_match_inv in Hm as (ws & body & -> & _).
  destruct (annotated_contains ws body rest) as [H1 H2].
  apply (contains_infix _ a _ []) in H1, H2. by rewrite app_nil_r in H1, H2.
Qed.

(** X3: a signature in which [{.] does not occur, or in which [.}] does
    not occur, is only trimmed by the signature cleaner. *)
Theorem X3_signature_without_pragma_is_only_trimmed code :
  occurs (u "{.") code = false ∨ occurs (u ".}") code = false →
  _clean_code code = strip code.
Proof.
  intros H. unfold _clean_code. rewrite sub_not_found; [done|].
  destruct (search _PRAGMA_RE code) eqn:Hs; [|done].
  apply search_pragma_contains in Hs as [H1%occurs_true H2%occurs_true].
  destruct H; congruence.
Qed.

Lemma X3_signature_without_pragma_is_only_trimmed_witness :
  occurs (u "{.") (u " proc f(x: int): int ") = false
  ∧ _clean_code (u " proc f(x: int): int ") = strip (u " proc f(x: int): int ").
Proof.
  split; [reflexivity|].
  apply (X3_signature_without_pragma_is_only_trimmed (u " proc f(x: int): int ")).
  left. reflexivity.
Defined.

Lemma removed_blocks_sublist s t : removed_blocks s t → t `sublist_of` s.
Proof.
  induction 1 as [|ws body rest t _ _ _ IH|c s t _ _ IH].
  - done.
  - unfold annotated. rewrite !app_assoc. by apply sublist_inserts_l.
  - by apply sublist_skip.
Qed.

Lemma strip_sublist s : strip s `sublist_of` s.
Proof.
  destruct (strip_infix s) as (a & b & Heq). rewrite Heq at 2.
  by apply sublist_inserts_l, sublist_inserts_r.
Qed.

(** X4: the signature cleaner only leaves characters out: its result is
    made of characters of the input in their order, is no longer than the
    input, and neither starts nor ends with whitespace. *)
Theorem X4_cleaned_signature_is_part_of_the_input code :
  _clean_code code `sublist_of` code
  ∧ (length (_clean_code code) ≤ length code)%nat
  ∧ starts_with_space (_clean_code code) = false
  ∧ ends_with_space (_clean_code code) = false.
Proof.
  assert (_clean_code code `sublist_of` code) as Hsub.
  { unfold _clean_code. etrans; [apply strip_sublist|].
    apply removed_blocks_sublist, (sub_pragma_removes (length code)). done. }
  split; [done|]. split; [by apply sublist_length|].
  split; [apply strip_no_leading_space|apply strip_no_trailing_space].
Qed.

(** ** The index page *)

Lemma join_snoc sep l x :
  l ≠ [] → join sep (l ++ [x]) = join sep l ++ sep ++ x.
Proof.
  induction l as [|a l IH]; [done|]. intros _. destruct l as [|b l]; [done|].
  change (join sep ((a :: b :: l) ++ [x]))
    with (a ++ sep ++ join sep ((b :: l) ++ [x])).
  rewrite IH by done. cbn [join]. by rewrite <- !app_assoc.
Qed.

Lemma join_app_map sep (f : str → str) l gen :
  l ≠ [] →
  join sep (l ++ map f gen) = join sep l ++ concat (map (λ n, sep ++ f n) gen).
Proof.
  intros Hl. induction gen as [|n gen IH] using rev_ind.
  - cbn. by rewrite !app_nil_r.
  - rewrite !map_app, concat_app. cbn [map concat]. rewrite app_assoc, join_snoc.
    + rewrite IH. by rewrite <- !app_assoc, app_nil_r.
    + by destruct l.
Qed.

Lemma concat_shift (sep : str) (f : str → str) gen :
  concat (map (λ n, sep ++ f n) gen) ++ sep
  = sep ++ concat (map (λ n, f n ++ sep) gen).
Proof.
  induction gen as [|n gen IH]; cbn [map concat]; [by rewrite app_nil_r|].
  rewrite <- !app_assoc. by rewrite IH.
Qed.

(** X5: the index page is the page for no module followed by one line
    per generated module, three spaces and the name, in the order
    given. *)
Theorem X5_index_lists_modules_in_order generated :
  _make_api_index generated
  = _make_api_index [] ++ concat (map (λ name, u "   " ++ name ++ LF) generated).
Proof.
  unfold _make_api_index. cbn [map]. rewrite app_nil_r.
  rewrite !join_snoc by done. rewrite join_app_map by done.
  rewrite <- !app_assoc. f_equal. rewrite !app_nil_r, app_nil_l.
  etrans; [apply (concat_shift LF (λ name, u "   " ++ name))|].
  apply (f_equal (app LF)), (f_equal (@concat N)), map_ext.
  intros n. by rewrite <- app_assoc.
Qed.

(** ** The run as a whole *)

Lemma process_module_cases w m st st' :
  process_module w m st = Ok st' →
  (module_ok w m = true ∧ ∃ page, st' = add_generated (mod_name m) page st)
  ∨ (module_ok w m = false ∧ st' = add_error (mod_name m) st).
Proof.
  unfold module_ok, process_module.
  destruct (_run_jsondoc w m) as [[|]|]; cbn; try discriminate.
  - destruct (load_json w (mod_name m)) as [data|e].
    + destruct (_make_module_rst _ _ data) as [page|]; cbn; try discriminate.
      destruct (write_text w _ page) as [[]|]; cbn; try discriminate.
      intros [= <-]. left. eauto.
    + destruct (caught_on_load e); try discriminate. intros [= <-]. by right.
  - intros [= <-]. by right.
Qed.

Lemma main_loop_partition w modules : ∀ st st',
  main_loop w modules st = Ok st' →
  generated st'
  = generated st ++ (mod_name <$> filter (λ m, module_ok w m = true) modules)
  ∧ errors st'
    = errors st ++ (mod_name <$> filter (λ m, module_ok w m = false) modules)
  ∧ fst <$> files st'
    = (fst <$> files st)
      ++ (rst_path <$> (mod_name <$> filter (λ m, module_ok w m = true) modules))
  ∧ reported st' = reported st.
Proof.
  induction modules as [|m modules IH]; intros st st' Hloop.
  - injection Hloop as <-. by rewrite !app_nil_r.
  - cbn [main_loop] in Hloop.
    destruct (process_module w m st) as [st1|e] eqn:Hstep; [|discriminate].
    cbn in Hloop. destruct (IH st1 st' Hloop) as (Hg & He & Hf & Hr).
    rewrite Hg, He, Hf, Hr. rewrite !filter_cons.
    destruct (process_module_cases w m st st1 Hstep) as [(Hok & page & ->)|(Hok & ->)];
      rewrite Hok; cbn.
    + rewrite !fmap_app. cbn. by rewrite <- !app_assoc.
    + by rewrite <- !app_assoc.
Qed.

(** X6: when [main] returns, every configured module is in exactly one
    of the two lists, in the configured order: [generated] holds the
    modules processed to the end and [errors] the others; the files
    written are the pages of the generated modules, in that order, and
    then the index of the generated modules; the returned value is 0 when
    [errors] is empty and 1 otherwise, and only then the failure report
    is printed. *)
Theorem X6_run_partitions_the_modules modules w code st :
  main_on modules w = Ok (code, st) →
  generated st = mod_name <$> filter (λ m, module_ok w m = true) modules
  ∧ errors st = mod_name <$> filter (λ m, module_ok w m = false) modules
  ∧ fst <$> files st = (rst_path <$> generated st) ++ [u "api/index.rst"]
  ∧ last (files st) = Some (u "api/index.rst", _make_api_index (generated st))
  ∧ code = (if bool_decide (errors st = []) then 0 else 1)%Z
  ∧ reported st
    = (if bool_decide (errors st = []) then []
       else [LF ++ u "Failed modules: " ++ join (u ", ") (errors st)]).
Proof.
  unfold main_on.
  destruct (main_loop w modules initial_state) as [st1|e] eqn:Hloop; [|discriminate].
  destruct (main_loop_partition w modules _ _ Hloop) as (Hg & He & Hf & Hr).
  cbn in Hg, He, Hf, Hr. cbn [mbind result_bind].
  destruct (write_text w (u "api/index.rst") (_make_api_index (generated st1)))
    as [[]|e]; [|discriminate].
  cbn [mbind result_bind generated errors files reported].
  destruct (errors st1) as [|x l] eqn:Herr; intros [= <- <-];
    cbn [generated errors files reported]; rewrite fmap_app, Hf, last_snoc, <- Hg, <- He;
    rewrite ?Hr; repeat split; done.
Qed.

Lemma X6_run_partitions_the_modules_witness :
  ∃ st, main_on [definitions_module; io_module] io_fails_world = Ok (1%Z, st)
        ∧ generated st = [u "definitions"]
        ∧ errors st = [u "io"].
Proof.
  destruct (main_on [definitions_module; io_module] io_fails_world)
    as [[code st]|e] eqn:Hrun; [|by vm_compute in Hrun].
  assert (code = 1%Z) as -> by (vm_compute in Hrun; by injection Hrun as <- _).
  exists st. split; [done|].
  destruct (X6_run_partitions_the_modules _ _ _ _ Hrun) as (Hg & He & _).
  split; [rewrite Hg|rewrite He]; by vm_compute.
Defined.

(** ** The page: what holds for every input *)

(** The loops of the assembler only add lines. *)
Lemma render_entries_extends module_name entries : ∀ name_count lines lines',
  render_entries module_name entries name_count lines = Ok lines' →
  ∃ added, lines' = lines ++ added.
Proof.
  induction entries as [|e entries IH]; intros nc lines lines'.
  - intros [= <-]. exists []. by rewrite app_nil_r.
  - cbn [render_entries].
    destruct (dict_item e (u "name")) as [name|]; [|done].
    destruct (dict_get e (u "code") (JStr []) ≫= clean_code_value) as [code|];
      [|done].
    destruct (dict_get e (u "description") (JStr []) ≫= html_to_rst_value)
      as [desc|]; [|done].
    cbn [mbind result_bind]. destruct name; try done.
    intros (added & ->)%IH. eexists. by rewrite <- app_assoc.
Qed.

Lemma render_sections_extends module_name kinds by_kind : ∀ lines lines',
  render_sections module_name kinds by_kind lines = Ok lines' →
  ∃ added, lines' = lines ++ added.
Proof.
  induction kinds as [|k kinds IH]; intros lines lines'.
  - intros [= <-]. exists []. by rewrite app_nil_r.
  - cbn [render_sections]. destruct (by_kind !! k) as [[|e es]|]; [by apply IH| |by apply IH].
    destruct (render_entries module_name (e :: es) ∅ _) as [lines1|] eqn:Hr; [|done].
    cbn [mbind result_bind]. apply render_entries_extends in Hr as (a1 & ->).
    intros (a2 & ->)%IH. eexists. by rewrite <- !app_assoc.
Qed.

Lemma length_times c n : length (times c n) = (n * length c)%nat.
Proof.
  unfold times. induction n as [|n IH]; [done|]. cbn. by rewrite length_app, IH.
Qed.

(** X7: whatever the JSON, a page that is produced starts with the title
    between two rules of [=] that are as long as the title, followed by a
    blank line, and it ends with a line feed. *)
Theorem X7_page_starts_with_title_block module_name title data page :
  _make_module_rst module_name title data = Ok page →
  ∃ rest,
    page = times (u "=") (length title) ++ LF ++ title ++ LF
           ++ times (u "=") (length title) ++ LF ++ LF ++ rest
    ∧ length (times (u "=") (length title)) = length title
    ∧ (rest = [] ∨ ∃ rest', rest = rest' ++ LF).
Proof.
  unfold _make_module_rst, module_lines.
  destruct (dict_get data (u "moduleDescription") (JStr []) ≫= html_to_rst_value)
    as [desc|]; [|done].
  destruct (dict_get data (u "entries") (JArr []) ≫= iter_values) as [entries|];
    [|done].
  cbn [mbind result_bind].
  destruct (group_entries entries ∅) as [by_kind|]; [|done].
  cbn [mbind result_bind].
  destruct (render_sections _ _ _ _) as [lines|] eqn:Hr; [|done].
  cbn [mbind result_bind]. intros [= <-].
  apply render_sections_extends in Hr as (added & ->).
  assert (∃ more, (match desc with
                   | [] => [times (u "=") (length title); title;
                            times (u "=") (length title); []]
                   | _ => [times (u "=") (length title); title;
                           times (u "=") (length title); []] ++ [desc; []]
                   end) ++ added
                  = [times (u "=") (length title); title;
                     times (u "=") (length title); []] ++ more) as [more ->].
  { destruct desc; [by exists added|]. eexists. by rewrite <- app_assoc. }
  rewrite length_times. change (length (u "=")) with 1%nat.
  destruct more as [|x more].
  - exists [].
    change (join LF ([times (u "=") (length title); title;
                      times (u "=") (length title); []] ++ []))
      with (times (u "=") (length title) ++ LF ++ title ++ LF
            ++ times (u "=") (length title) ++ LF ++ []).
    rewrite <- !app_assoc, !app_nil_r. split; [done|]. split; [lia|by left].
  - exists (join LF (x :: more) ++ LF).
    change (join LF ([times (u "=") (length title); title;
                      times (u "=") (length title); []] ++ x :: more))
      with (times (u "=") (length title) ++ LF ++ title ++ LF
            ++ times (u "=") (length title) ++ LF ++ [] ++ LF ++ join LF (x :: more)).
    rewrite <- !app_assoc. split; [done|]. split; [lia|]. right. eauto.
Qed.

Lemma X7_page_starts_with_title_block_witness :
  ∃ page rest,
    _make_module_rst (u "io") (u "io") empty_bundle = Ok page
    ∧ page = u "==" ++ LF ++ u "io" ++ LF ++ u "==" ++ LF ++ LF ++ rest.
Proof.
  destruct (X7_page_starts_with_title_block (u "io") (u "io") empty_bundle
              (u "==" ++ LF ++ u "io" ++ LF ++ u "==" ++ LF ++ LF) eq_refl)
    as (rest & Hpage & _).
  eexists _, rest. split; [reflexivity|exact Hpage].
Defined.

(** ** Entries without a name *)

Lemma wf_entry_opt_name_cases e :
  wf_entry_opt_name e = true →
  dict_get e (u "type") (JStr (u "skProc")) = Ok (JStr (entry_kind e))
  ∧ ((lacks_name e = true ∧ dict_item e (u "name") = Raise KeyError)
     ∨ (lacks_name e = false ∧ wf_entry e = true)).
Proof.
  destruct e as [| | | | | |kv]; try discriminate. cbn [wf_entry_opt_name].
  rewrite !andb_true_iff. intros [[[Hn Ht] Hc] Hd]. split.
  - unfold str_or_absent, entry_kind, str_field, dict_get in *.
    by destruct (assoc (u "type") kv) as [[| | | |k| |]|].
  - unfold lacks_name, obj_field, dict_item, wf_entry, str_or_absent in *.
    destruct (assoc (u "name") kv) as [[| | | |n| |]|]; try discriminate.
    + right. split; [done|]. by rewrite Ht, Hc, Hd.
    + by left.
Qed.

Lemma group_entries_opt_name entries : ∀ by_kind,
  Forall (λ e, wf_entry_opt_name e = true) entries →
  ∃ by_kind',
    group_entries entries by_kind = Ok by_kind'
    ∧ ∀ k, default [] (by_kind' !! k)
           = default [] (by_kind !! k) ++ entries_of_kind k entries.
Proof.
  induction entries as [|e entries IH]; intros by_kind Hwf.
  - exists by_kind. split; [done|]. intros k. by rewrite app_nil_r.
  - apply Forall_cons_1 in Hwf as [He Hrest].
    destruct (wf_entry_opt_name_cases e He) as [Hk _].
    cbn [group_entries]. rewrite Hk. cbn [mbind result_bind].
    destruct (IH (<[entry_kind e := default [] (by_kind !! entry_kind e) ++ [e]]> by_kind)
                Hrest) as (m & Hm & Hlook).
    exists m. split; [done|]. intros k. rewrite Hlook.
    unfold entries_of_kind. rewrite filter_cons.
    destruct (decide (entry_kind e = k)) as [->|Hne].
    + rewrite lookup_insert_eq. cbn. by rewrite <- app_assoc.
    + by rewrite lookup_insert_ne.
Qed.

Lemma existsb_lacks_name_false entries :
  Forall (λ e, wf_entry_opt_name e = true) entries →
  existsb lacks_name entries = false →
  Forall (λ e, wf_entry e = true) entries.
Proof.
  induction 1 as [|e entries He _ IH]; [done|]. cbn.
  intros [Hl Hr]%orb_false_iff. constructor; [|by apply IH].
  destruct (wf_entry_opt_name_cases e He) as [_ [[? _]|[_ ?]]]; [congruence|done].
Qed.

Lemma render_entries_nameless module_name entries : ∀ name_count lines,
  Forall (λ e, wf_entry_opt_name e = true) entries →
  existsb lacks_name entries = true →
  render_entries module_name entries name_count lines = Raise KeyError.
Proof.
  induction entries as [|e entries IH]; intros nc lines Hwf Hex; [done|].
  apply Forall_cons_1 in Hwf as [He Hrest]. cbn [render_entries].
  destruct (wf_entry_opt_name_cases e He) as [_ [[_ Hitem]|[Hl Hwfe]]].
  - by rewrite Hitem.
  - cbn in Hex. rewrite Hl in Hex. cbn in Hex.
    destruct (wf_entry_inv e Hwfe) as (kv & Heq & Hn & _ & Hc & Hd).
    rewrite Hc, Hd. rewrite Heq at 1. cbn [dict_item]. rewrite Hn.
    cbn [mbind result_bind]. by apply IH.
Qed.

Lemma render_sections_nameless module_name kinds : ∀ by_kind lines,
  (∀ k, Forall (λ e, wf_entry_opt_name e = true) (default [] (by_kind !! k))) →
  if existsb (λ k, existsb lacks_name (default [] (by_kind !! k))) kinds
  then render_sections module_name kinds by_kind lines = Raise KeyError
  else ∃ lines', render_sections module_name kinds by_kind lines = Ok lines'.
Proof.
  induction kinds as [|k kinds IH]; intros by_kind lines Hwf; [by eexists|].
  cbn [existsb render_sections]. specialize (Hwf k) as Hk.
  destruct (by_kind !! k) as [[|e es]|] eqn:Hlook; cbn [default] in *;
    [by apply IH| |by apply IH].
  change (id (e :: es)) with (e :: es) in *.
  destruct (existsb lacks_name (e :: es)) eqn:Hex; cbn [orb].
  - by rewrite render_entries_nameless.
  - rewrite (render_entries_ok _ _ ∅ [] _ (existsb_lacks_name_false _ Hk Hex)) by done.
    cbn [mbind result_bind]. by apply IH.
Qed.

Lemma existsb_kinds_nameless (entries : list json) :
  existsb (λ k, existsb lacks_name (entries_of_kind k entries)) _KIND_ORDER = true
  ↔ ∃ e, e ∈ entries ∧ lacks_name e = true ∧ entry_kind e ∈ _KIND_ORDER.
Proof.
  rewrite existsb_exists. split.
  - intros (k & Hk%list_elem_of_In & (e & He%list_elem_of_In & Hl)%existsb_exists).
    apply list_elem_of_filter in He as [<- He]. by exists e.
  - intros (e & He & Hl & Hk). exists (entry_kind e).
    split; [by apply list_elem_of_In|]. apply existsb_exists. exists e.
    split; [|done]. apply list_elem_of_In. by apply list_elem_of_filter.
Qed.

(** X8: for a bundle whose entries follow the input schema except that
    [name] may be absent, page assembly raises [KeyError] exactly when
    some entry of one of the ten known kinds has no name; otherwise it
    returns a page.  An entry without a name whose kind is not known is
    never looked at. *)
Theorem X8_missing_name_raises_KeyError module_name title data :
  wf_bundle_opt_name data = true →
  (_make_module_rst module_name title data = Raise KeyError
   ↔ ∃ e, e ∈ bundle_entries data ∧ lacks_name e = true
          ∧ entry_kind e ∈ _KIND_ORDER)
  ∧ ((∀ e, e ∈ bundle_entries data → lacks_name e = true →
           entry_kind e ∉ _KIND_ORDER) →
     ∃ page, _make_module_rst module_name title data = Ok page).
Proof.
  destruct data as [| | | | | |kv]; try discriminate. cbn [wf_bundle_opt_name].
  rewrite andb_true_iff. intros [Hd He].
  set (es := bundle_entries (JObj kv)).
  assert (Forall (λ e, wf_entry_opt_name e = true) es
          ∧ (dict_get (JObj kv) (u "entries") (JArr []) ≫= iter_values) = Ok es)
    as [Hwf Hit].
  { subst es. unfold bundle_entries, dict_get.
    destruct (assoc (u "entries") kv) as [[| | | | |l|]|]; try discriminate;
      cbn; split; try done.
    rewrite Forall_forall. intros x Hx%list_elem_of_In.
    by apply (proj1 (forallb_forall _ _) He). }
  assert (∃ desc, (dict_get (JObj kv) (u "moduleDescription") (JStr [])
                   ≫= html_to_rst_value) = Ok desc) as [desc Hdesc].
  { unfold str_or_absent, dict_get in *.
    destruct (assoc (u "moduleDescription") kv) as [[| | | |d| |]|];
      try discriminate; cbn; [|by eexists].
    unfold html_to_rst_value. destruct d; by eexists. }
  destruct (group_entries_opt_name es ∅ Hwf) as (by_kind & Hg & Hlook).
  assert (Hk : ∀ k, default [] (by_kind !! k) = entries_of_kind k es).
  { intros k. by rewrite Hlook, lookup_empty. }
  assert (Hrun : ∀ lines,
            if existsb (λ k, existsb lacks_name (entries_of_kind k es)) _KIND_ORDER
            then render_sections module_name _KIND_ORDER by_kind lines = Raise KeyError
            else ∃ lines', render_sections module_name _KIND_ORDER by_kind lines
                           = Ok lines').
  { intros lines.
    assert (existsb (λ k, existsb lacks_name (default [] (by_kind !! k))) _KIND_ORDER
            = existsb (λ k, existsb lacks_name (entries_of_kind k es)) _KIND_ORDER)
      as <-.
    { induction _KIND_ORDER as [|k ks IHk]; [done|]. cbn [existsb].
      by rewrite Hk, IHk. }
    apply render_sections_nameless. intros k. rewrite Hk.
    rewrite Forall_forall in Hwf |- *. intros x [_ Hx]%list_elem_of_filter.
    by apply Hwf. }
  unfold _make_module_rst, module_lines. rewrite Hdesc, Hit.
  cbn [mbind result_bind]. rewrite Hg. cbn [mbind result_bind].
  match goal with |- context [render_sections _ _ _ ?l] => specialize (Hrun l) end.
  destruct (existsb _ _KIND_ORDER) eqn:Hex.
  - apply existsb_kinds_nameless in Hex. rewrite Hrun. cbn [mbind result_bind].
    split; [done|]. intros Hno. destruct Hex as (e & Hin & Hl & Hkind).
    by destruct (Hno e Hin Hl).
  - destruct Hrun as [lines' ->]. cbn [mbind result_bind]. split; [|by eauto].
    split; [done|]. intros Hsome%existsb_kinds_nameless. congruence.
Qed.

Lemma X8_missing_name_raises_KeyError_witness :
  wf_bundle_opt_name nameless_proc_bundle = true
  ∧ wf_bundle_opt_name nameless_converter_bundle = true
  ∧ _make_module_rst (u "m") (u "m") nameless_proc_bundle = Raise KeyError
  ∧ ∃ page, _make_module_rst (u "m") (u "m") nameless_converter_bundle = Ok page.
Proof.
  split; [reflexivity|]. split; [reflexivity|]. split.
  - apply (X8_missing_name_raises_KeyError (u "m") (u "m") nameless_proc_bundle eq_refl).
    exists (JObj [(u "type", JStr (u "skProc"))]). split; [|split].
    + by apply (list_elem_of_lookup_2 _ 1%nat).
    + reflexivity.
    + by apply (list_elem_of_lookup_2 _ 2%nat).
  - by eexists.
Defined.

(** ** Exceptions that end the run *)





(** ** Anchors within a section *)

Lemma u_inj s1 s2 : u s1 = u s2 → s1 = s2.
Proof.
  unfold u. intros H. apply (f_equal (map ascii_of_N)) in H.
  rewrite !map_map in H.
  rewrite !(map_ext _ id (λ a, ascii_N_embedding a)), !map_id in H.
  apply (f_equal string_of_list_ascii) in H.
  by rewrite !string_of_list_ascii_of_string in H.
Qed.

Lemma to_uint_nonnil n : Nat.to_uint n ≠ Decimal.Nil.
Proof.
  pose proof (Unsigned.to_of (Nat.to_uint n)) as H. rewrite Unsigned.of_to in H.
  intros Hnil. rewrite Hnil in H. discriminate.
Qed.

Lemma str_of_nat_inj a b : str_of_nat a = str_of_nat b → a = b.
Proof.
  unfold str_of_nat. intros H%u_inj.
  apply (f_equal NilZero.uint_of_string) in H.
  rewrite !NilZero.usu in H by apply to_uint_nonnil.
  injection H as H. apply (f_equal Nat.of_uint) in H.
  by rewrite !Unsigned.of_to in H.
Qed.

Lemma dot_split (n1 : str) : ∀ n2 x1 x2,
  46 ∉ n1 → 46 ∉ n2 → n1 ++ 46 :: x1 = n2 ++ 46 :: x2 → n1 = n2 ∧ x1 = x2.
Proof.
  induction n1 as [|c n1 IH]; intros [|c' n2] x1 x2 H1 H2 Heq.
  - by injection Heq as ->.
  - injection Heq as <- _. destruct H2. by left.
  - injection Heq as -> _. destruct H1. by left.
  - injection Heq as -> Heq. apply IH in Heq as [-> ->]; [done| |].
    + intros ?. apply H1. by right.
    + intros ?. apply H2. by right.
Qed.

(** With names that hold no dot, the label tells the name and the
    count. *)
Lemma entry_label_inj module_name n1 n2 c1 c2 :
  46 ∉ n1 → 46 ∉ n2 →
  entry_label module_name n1 c1 = entry_label module_name n2 c2 →
  n1 = n2 ∧ c1 = c2.
Proof.
  intros H1 H2. unfold entry_label. change (u ".") with [46].
  destruct c1 as [|c1], c2 as [|c2]; intros Heq%app_inv_head; cbn [app] in Heq;
    injection Heq as Heq.
  - done.
  - destruct H1. rewrite Heq. apply elem_of_app. right. by left.
  - destruct H2. rewrite <- Heq. apply elem_of_app. right. by left.
  - apply dot_split in Heq as [-> Heq%str_of_nat_inj]; done.
Qed.

Lemma earlier_same_name_grows entries i j ei ej :
  (i < j)%nat → entries !! i = Some ei → entry_name ej = entry_name ei →
  (earlier_same_name entries i ei < earlier_same_name entries j ej)%nat.
Proof.
  intros Hij Hi Hname. unfold earlier_same_name, occurrences. rewrite Hname.
  rewrite <- (take_drop i (take j entries)), take_take.
  rewrite (Nat.min_l i j) by lia.
  rewrite (drop_S (take j entries) ei i) by (by rewrite lookup_take_lt).
  rewrite fmap_app, filter_app, length_app. cbn [fmap list_fmap].
  rewrite filter_cons, decide_True by done. cbn. lia.
Qed.

Lemma anchor_line_label module_name name n :
  anchor_line module_name name n
  = u ".. _" ++ entry_label module_name name n ++ u ":".
Proof.
  unfold anchor_line, entry_label. destruct n; by rewrite <- ?app_assoc.
Qed.

(** X10: in the section of a list of entries of the input schema, the
    entry at position [i] is rendered as its block for the number of
    earlier entries of the same name; the first line of the block is the
    anchor, [.. _module.name:] for the first entry of a name and
    [.. _module.name.n:] after [n] others; and when no name holds a dot,
    the anchor lines of the section are pairwise distinct. *)
Theorem X10_anchors_of_a_section_are_distinct module_name entries lines :
  Forall (λ e, wf_entry e = true) entries →
  render_entries module_name entries ∅ lines
  = Ok (lines
        ++ concat (imap (λ i e, entry_block module_name e
                                  (earlier_same_name entries i e))
                        entries))
  ∧ head <$> imap (λ i e, entry_block module_name e
                            (earlier_same_name entries i e)) entries
    = Some <$> section_anchors module_name entries
  ∧ (Forall (λ e, 46 ∉ entry_name e) entries →
     NoDup (section_anchors module_name entries)).
Proof.
  intros Hwf. split; [|split].
  - rewrite (render_entries_ok module_name entries ∅ [] lines Hwf) by done.
    by rewrite section_body_shown.
  - apply list_eq. intros i. unfold section_anchors.
    rewrite !list_lookup_fmap, !list_lookup_imap.
    by destruct (entries !! i).
  - intros Hdots. apply NoDup_alt. intros i j x Hi Hj.
    unfold section_anchors in Hi, Hj. rewrite list_lookup_imap in Hi, Hj.
    destruct (entries !! i) as [ei|] eqn:Hei; [|done].
    destruct (entries !! j) as [ej|] eqn:Hej; [|done].
    cbn in Hi, Hj. injection Hi as Hi. injection Hj as Hj. rewrite <- Hj in Hi.
    rewrite Forall_forall in Hdots.
    rewrite !anchor_line_label in Hi.
    apply app_inv_head, app_inv_tail in Hi.
    apply entry_label_inj in Hi as [Hname Hcount];
      [|by eapply Hdots, list_elem_of_lookup_2..].
    destruct (Nat.lt_trichotomy i j) as [Hlt|[->|Hlt]]; [|done|].
    + pose proof (earlier_same_name_grows entries i j ei ej Hlt Hei) as H.
      rewrite Hname in H. specialize (H eq_refl). lia.
    + pose proof (earlier_same_name_grows entries j i ej ei Hlt Hej) as H.
      rewrite Hname in H. specialize (H eq_refl). lia.
Qed.

Lemma X10_anchors_of_a_section_are_distinct_witness :
  Forall (λ e, wf_entry e = true)
    [mk_entry "foo" "skProc" "" ""; mk_entry "foo" "skProc" "" ""]
  ∧ render_entries (u "m")
      [mk_entry "foo" "skProc" "" ""; mk_entry "foo" "skProc" "" ""] ∅ []
    = Ok (map u [".. _m.foo:"; ""; "foo"; "~~~"; "";
                 ".. _m.foo.1:"; ""; "foo (2)"; "~~~~~~~"; ""]%string)
  ∧ NoDup (section_anchors (u "m")
             [mk_entry "foo" "skProc" "" ""; mk_entry "foo" "skProc" "" ""]).
Proof.
  assert (Forall (λ e, wf_entry e = true)
            [mk_entry "foo" "skProc" "" ""; mk_entry "foo" "skProc" "" ""]) as Hwf.
  { repeat constructor. }
  split; [exact Hwf|].
  destruct (X10_anchors_of_a_section_are_distinct (u "m") _ [] Hwf)
    as (Hr & _ & Hnd).
  split; [rewrite Hr; by vm_compute|].
  apply Hnd.
  apply Forall_cons_2; [by apply (bool_decide_unpack _)|].
  apply Forall_cons_2; [by apply (bool_decide_unpack _)|].
  apply Forall_nil_2.
Defined.

(** ** Tags in the output of the fragment converter *)

Lemma match_at_elem r s x : match_at r s = Some x → x ∈ matches r [] s.
Proof.
  unfold match_at. destruct (matches r [] s) as [|y l]; [done|].
  intros [= ->]. by left.
Qed.

Lemma tag_match_shorter s g rest :
  match_at TAG_RE s = Some (g, rest) →
  tag_like s ∧ rest `suffix_of` s ∧ (length rest < length s)%nat.
Proof.
  intros Hm. pose proof (match_at_elem _ _ _ Hm) as Hin.
  split; [by eapply tag_match_like|]. split; [by eapply match_at_suffix|].
  unfold TAG_RE in Hin. apply elem_of_matches_lit_cat in Hin as (t & -> & Hin).
  apply matches_suffix in Hin as [k ->]. change (u "<") with [60].
  rewrite !length_app. cbn. lia.
Qed.

(** Induction along the work of the tag stripping substitution. *)
Lemma strip_tags_ind (P : str → str → Prop) :
  P [] [] →
  (∀ c s t, ¬ tag_like (c :: s) → P s t → P (c :: s) (c :: t)) →
  (∀ k rest t, tag_like (k ++ rest) → P rest t → P (k ++ rest) t) →
  ∀ s, P s (sub TAG_RE (λ _, []) s).
Proof.
  intros Hnil Hkeep Htag s.
  remember (length s) as n eqn:Hn. revert s Hn.
  induction n as [n IH] using lt_wf_ind. intros s ->.
  destruct s as [|c s]; [done|].
  destruct (match_at TAG_RE (c :: s)) as [[g rest]|] eqn:Hm.
  - destruct (tag_match_shorter _ _ _ Hm) as (Hlike & [k Hk] & Hlen).
    rewrite (sub_match _ _ _ _ _ Hm Hlen). cbn [app]. rewrite Hk in Hlike |- *.
    apply Htag; [done|]. by eapply IH.
  - rewrite sub_keep by done. apply Hkeep.
    + intros [x Hx]%tag_like_match. congruence.
    + eapply IH; [|done]. cbn. lia.
Qed.

Lemma not_tagged_nil : ¬ tagged [].
Proof.
  intros (a & t & Heq & c & t' & -> & _). by destruct a.
Qed.

(** What is left after the tags are stripped holds no tag. *)
Lemma strip_tags_not_tagged s :
  (∀ x, x ∈ sub TAG_RE (λ _, []) s → x ∈ s)
  ∧ (∀ c, c ≠ 60 → head s = Some c → head (sub TAG_RE (λ _, []) s) = Some c)
  ∧ ¬ tagged (sub TAG_RE (λ _, []) s).
Proof.
  apply (strip_tags_ind (λ s t, (∀ x, x ∈ t → x ∈ s)
                                ∧ (∀ c, c ≠ 60 → head s = Some c → head t = Some c)
                                ∧ ¬ tagged t)).
  - split; [done|]. split; [done|]. apply not_tagged_nil.
  - intros c s' t Hno (Helem & Hhead & Htag). split; [|split].
    + intros x [->|Hx]%elem_of_cons; [by left|]. right. by apply Helem.
    + done.
    + intros ([|c' a] & t0 & Heq & Ht0).
      * cbn in Heq. subst t0. destruct Ht0 as (d & t' & [= -> ->] & Hd & Hin).
        assert (62 ∈ s') as Hs' by (apply Helem; by right).
        destruct s' as [|d' s']; [by apply elem_of_nil in Hs'|].
        destruct (decide (d' = 62)) as [->|Hd'].
        -- specialize (Hhead 62 ltac:(done) eq_refl). cbn in Hhead. congruence.
        -- apply Hno. exists d', s'. split; [done|]. split; [done|].
           apply elem_of_cons in Hs' as [?|?]; [congruence|done].
      * injection Heq as -> ->. apply Htag. by exists a, t0.
  - intros k rest t Hlike (Helem & Hhead & Htag). split; [|split].
    + intros x Hx%Helem. apply elem_of_app. by right.
    + intros c Hc Hh. destruct Hlike as (d & t' & Heq & _). rewrite Heq in Hh.
      cbn in Hh. congruence.
    + done.
Qed.

(** The group of a match is made of characters of the text. *)
Lemma matches_group (P : N → Prop) r : ∀ g s g' rest,
  (g', rest) ∈ matches r g s → Forall P g → Forall P s → Forall P g'.
Proof.
  induction r as [l|greedy p lo|r1 IH1 r2 IH2|r1 IH1 r2 IH2|r1 IH1];
    intros g s g' rest Hin Hg Hs.
  - by apply elem_of_matches_lit in Hin as (? & [= -> _] & _).
  - by apply elem_of_matches_rep in Hin as (? & [= -> _] & _).
  - cbn [matches] in Hin. apply elem_of_app in Hin as [Hin|Hin]; eauto.
  - apply elem_of_matches_cat in Hin as (g1 & s1 & H1 & H2).
    eapply IH2; [done|by eapply IH1|].
    apply matches_suffix in H1 as [k ->]. by apply Forall_app in Hs as [_ ?].
  - cbn [matches] in Hin. apply list_elem_of_fmap in Hin as ([g1 s1] & [= -> ->] & _).
    by apply Forall_take.
Qed.

(** A substitution whose replacements keep a property of the characters
    keeps it for the text. *)
Lemma sub_Forall (P : N → Prop) r repl :
  (∀ g, Forall P g → Forall P (repl g)) →
  ∀ s, Forall P s → Forall P (sub r repl s).
Proof.
  intros Hrepl s. unfold sub. generalize 0%nat as n. induction s as [|c s IH];
    intros n Hs.
  - cbn. destruct (match_at r []) as [[g rest]|] eqn:Hm; [|done].
    apply Hrepl. by eapply matches_group; [by apply match_at_elem| |].
  - cbn [sub_from]. apply Forall_cons_1 in Hs as Hs'. destruct Hs' as [Hc Hs'].
    destruct n as [|n]; [|by apply IH].
    destruct (match_at r (c :: s)) as [[g rest]|] eqn:Hm.
    + assert (Forall P (repl g)) as Hg.
      { apply Hrepl. by eapply matches_group; [by apply match_at_elem| |]. }
      destruct (length (c :: s) - length rest)%nat; apply Forall_app; split;
        try done; [constructor; [done|]|]; by apply IH.
    + constructor; [done|]. by apply IH.
Qed.

Lemma no_amp_no_entity s : Forall (λ c, c ≠ 38) s → has_entity s = false.
Proof.
  intros Hs. destruct (has_entity s) eqn:He; [|done].
  apply has_entity_true in He as (e & He & a & b & ->).
  assert (38 ∈ e) as Hamp.
  { unfold ENTITIES in He. rewrite !elem_of_cons, elem_of_nil in He.
    destruct He as [->|[->|[->|[->|[->|[->|[]]]]]]]; by left. }
  rewrite Forall_forall in Hs. destruct (Hs 38); [|done].
  apply elem_of_app. right. apply elem_of_app. by left.
Qed.

Lemma occurs_amp s : occurs (u "&") s = false → Forall (λ c, c ≠ 38) s.
Proof.
  intros Ho. apply Forall_forall. intros c Hc ->.
  apply list_elem_of_split in Hc as (a & b & ->).
  assert (occurs (u "&") (a ++ 38 :: b) = true); [|congruence].
  apply occurs_true. by exists a, b.
Qed.

(** X11: when the input holds no [&], the output of the fragment
    converter holds no tag: every [<] that is still there is followed by
    [>] at once or by no [>] at all. *)
Theorem X11_output_without_tags html :
  occurs (u "&") html = false →
  has_tag (_html_to_rst html) = false.
Proof.
  intros Hamp%occurs_amp. unfold _html_to_rst. destruct html as [|c html]; [done|].
  set (P := λ c : N, c ≠ 38) in *.
  assert (Hlit : ∀ l : str, bool_decide (Forall P l) = true → Forall P l)
    by (intros l; apply bool_decide_eq_true_1).
  set (t1 := sub TT_RE _replace_tt (c :: html)).
  set (t2 := sub P_RE (λ g, g ++ LF ++ LF) t1).
  set (t3 := sub B_RE (λ g, u "**" ++ g ++ u "**") t2).
  set (t4 := sub EM_RE (λ g, u "*" ++ g ++ u "*") t3).
  set (t5 := sub UL_RE (λ _, LF) t4).
  set (t6 := sub UL_END_RE (λ _, LF) t5).
  set (t7 := sub LI_RE (λ g, LF ++ u "- " ++ g) t6).
  assert (Forall P t7) as H7.
  { subst t1 t2 t3 t4 t5 t6 t7.
    repeat (apply sub_Forall;
            [intros g Hg; unfold _replace_tt;
             repeat (apply Forall_app; split);
             first [exact Hg
                   |by apply Hlit
                   |apply sub_Forall; [by intros _ _; constructor|exact Hg]]|]).
    exact Hamp. }
  assert (Forall P (sub TAG_RE (λ _, []) t7)) as H8.
  { apply sub_Forall; [by intros _ _; constructor|done]. }
  rewrite decode_entities_plain by (by apply no_amp_no_entity).
  apply has_tag_strip, has_tag_collapse.
  destruct (has_tag (sub TAG_RE (λ _, []) t7)) eqn:Ht; [|done].
  apply has_tag_true in Ht. by destruct (strip_tags_not_tagged t7) as (_ & _ & []).
Qed.

Lemma X11_output_without_tags_witness :
  occurs (u "&") (u "<p>a <b>b</b> <x y>c</x> < d</p>") = false
  ∧ has_tag (_html_to_rst (u "<p>a <b>b</b> <x y>c</x> < d</p>")) = false.
Proof.
  split; [reflexivity|].
  apply (X11_output_without_tags (u "<p>a <b>b</b> <x y>c</x> < d</p>")).
  reflexivity.
Defined.

(** ** Bold text *)

Lemma plain_no_lt s : plain s = true → 60 ∉ s.
Proof.
  unfold plain. rewrite forallb_forall. intros H Hin%list_elem_of_In.
  by apply H in Hin.
Qed.

Lemma plain_no_amp s : plain s = true → Forall (λ c, c ≠ 38) s.
Proof.
  unfold plain. rewrite forallb_forall. intros H. apply Forall_forall.
  intros c Hin%list_elem_of_In ->. by apply H in Hin.
Qed.

Lemma plain_app s t : plain (s ++ t) = plain s && plain t.
Proof. apply forallb_app. Qed.

Lemma no_lt_no_tag s : 60 ∉ s → has_tag s = false.
Proof.
  intros Hs. destruct (has_tag s) eqn:Ht; [|done].
  apply has_tag_true in Ht as (a & t & -> & c & t' & -> & _).
  destruct Hs. apply elem_of_app. right. by left.
Qed.

Lemma tag_pattern_TAG : tag_pattern TAG_RE.
Proof. intros s [x Hx]%match_at_is_Some. by eapply tag_match_like. Qed.

Lemma tag_pattern_other r c s : tag_pattern r → c ≠ 60 → match_at r (c :: s) = None.
Proof.
  intros Hr Hc. destruct (match_at r (c :: s)) eqn:Hm; [|done].
  destruct (Hr (c :: s)) as (d & t & [= ? _] & _); [by rewrite Hm|done].
Qed.

(** A substitution of a tag pattern passes over text without [<]. *)
Lemma sub_plain_prefix r repl a t :
  tag_pattern r → 60 ∉ a → sub r repl (a ++ t) = a ++ sub r repl t.
Proof.
  intros Hr. induction a as [|c a IH]; [done|]. intros Hc. cbn [app].
  rewrite sub_keep.
  - rewrite IH; [done|]. intros ?. apply Hc. by right.
  - apply tag_pattern_other; [done|]. intros ->. apply Hc. by left.
Qed.

Lemma sub_plain r repl s : tag_pattern r → 60 ∉ s → sub r repl s = s.
Proof.
  intros Hr Hs. by apply sub_not_found, search_tag_pattern, no_lt_no_tag.
Qed.

(** A substitution that matches neither at [<b] nor at [</] leaves a bold
    element in plain text as it is. *)
Lemma sub_passes_bold r repl a x b :
  tag_pattern r →
  (∀ t, match_at r (60 :: 98 :: t) = None) →
  (∀ t, match_at r (60 :: 47 :: t) = None) →
  60 ∉ a → 60 ∉ x → 60 ∉ b →
  sub r repl (a ++ [60; 98; 62] ++ x ++ [60; 47; 98; 62] ++ b)
  = a ++ [60; 98; 62] ++ x ++ [60; 47; 98; 62] ++ b.
Proof.
  intros Hr Hopen Hclose Ha Hx Hb. rewrite sub_plain_prefix by done. f_equal.
  cbn [app]. rewrite sub_keep by apply Hopen. f_equal.
  change (98 :: 62 :: x ++ 60 :: 47 :: 98 :: 62 :: b)
    with ([98; 62] ++ x ++ 60 :: 47 :: 98 :: 62 :: b).
  rewrite app_assoc, sub_plain_prefix; [|done|].
  - f_equal. rewrite sub_keep by apply Hclose. f_equal.
    apply sub_plain; [done|]. rewrite !elem_of_cons. intros [?|[?|[?|?]]]; done.
  - rewrite elem_of_app, !elem_of_cons, elem_of_nil. intros [[?|[?|[]]]|?]; done.
Qed.

(** The candidates of a lazy group followed by [r]: the group grows by
    one character at a time. *)
Lemma matches_lazy_group p r g s :
  matches (Grp (Rep false p 0) +++ r) g s
  = flat_map (λ k, matches r (take k s) (drop k s)) (seq 0 (S (span p s))).
Proof.
  cbn [matches]. unfold rep_counts. cbn [Nat.ltb Nat.leb]. rewrite Nat.sub_0_r.
  assert (span p s ≤ length s)%nat as Hle.
  { induction s as [|c s IH]; cbn; [lia|]. destruct (p c); cbn; lia. }
  assert (∀ n, (n ≤ S (span p s))%nat →
    flat_map (λ '(g1, s1), matches r g1 s1)
      (map (λ '(_, rest), (take (length s - length rest) s, rest))
         (map (λ k, (g, drop k s)) (seq 0 n)))
    = flat_map (λ k, matches r (take k s) (drop k s)) (seq 0 n)) as H.
  { induction n as [|n IH]; [done|]. intros Hn.
    rewrite seq_S, !map_app, !flat_map_app, IH by lia. cbn [map flat_map Nat.add].
    rewrite length_drop. by replace (length s - (length s - n))%nat with n by lia. }
  by apply H.
Qed.

Lemma flat_map_seq_shift {A} (f : nat → list A) n :
  flat_map f (seq 1 n) = flat_map (λ k, f (S k)) (seq 0 n).
Proof. rewrite <- seq_shift. induction (seq 0 n) as [|k l IH]; [done|]. cbn. by rewrite IH. Qed.

(** When the text starts with [x], made of characters of the class, and
    [r] can only match where a [<] is, which [x] does not hold, the
    first candidate has [x] as its group. *)
Lemma lazy_group_first p r x : ∀ pre t m l,
  (∀ g c s, c ≠ 60 → matches r g (c :: s) = []) →
  forallb p x = true → 60 ∉ x →
  matches r (pre ++ x) t = m :: l →
  head (flat_map (λ k, matches r (pre ++ take k (x ++ t)) (drop k (x ++ t)))
          (seq 0 (S (span p (x ++ t)))))
  = Some m.
Proof.
  induction x as [|c x IH]; intros pre t m l Hr Hp Hx Hm.
  - cbn [app seq flat_map]. rewrite take_0, drop_0, app_nil_r in *. by rewrite Hm.
  - cbn in Hp. apply andb_true_iff in Hp as [Hc Hp]. cbn [app span]. rewrite Hc.
    change (seq 0 (S (S (span p (x ++ t)))))
      with (0%nat :: seq 1 (S (span p (x ++ t)))).
    cbn [flat_map]. rewrite take_0, drop_0.
    rewrite Hr by (intros ->; apply Hx; by left).
    cbn [app]. rewrite flat_map_seq_shift.
    rewrite <- (IH (pre ++ [c]) t m l); [|done|done| |].
    + f_equal. apply flat_map_ext. intros k. cbn [firstn skipn].
      by rewrite <- app_assoc.
    + intros ?. apply Hx. by right.
    + by rewrite <- app_assoc.
Qed.

Lemma matches_alt_cat r1 r2 r g s :
  matches (Alt r1 r2 +++ r) g s = matches (r1 +++ r) g s ++ matches (r2 +++ r) g s.
Proof. cbn [matches]. apply flat_map_app. Qed.

Lemma B_RE_literals :
  B_RE = (Lit [60] +++ Alt (Lit [98]) (Lit [115; 116; 114; 111; 110; 103])
          +++ Lit [62] +++ Grp (Rep false not_newline 0)
          +++ Lit [60; 47] +++ Alt (Lit [98]) (Lit [115; 116; 114; 111; 110; 103])
          +++ Lit [62])%re.
Proof. reflexivity. Qed.

(** The bold pattern matches a bold element whose content holds neither
    [<] nor a line feed, with the content as its group. *)
Lemma match_at_bold x b :
  single_line x = true → 60 ∉ x →
  match_at B_RE ([60; 98; 62] ++ x ++ [60; 47; 98; 62] ++ b) = Some (x, b).
Proof.
  intros Hline Hx. unfold match_at. rewrite B_RE_literals.
  rewrite matches_lit_cat. cbn [app strip_prefix N.eqb Pos.eqb].
  rewrite matches_alt_cat, !matches_lit_cat. cbn [strip_prefix N.eqb Pos.eqb].
  rewrite app_nil_r, matches_lit_cat. cbn [strip_prefix N.eqb Pos.eqb].
  rewrite matches_lazy_group.
  apply (lazy_group_first not_newline _ x [] _ (x, b) []); [|done|done|].
  - intros g c s Hc. rewrite matches_lit_cat. cbn [strip_prefix].
    destruct (N.eqb_spec 60 c); [congruence|done].
  - rewrite matches_lit_cat. cbn [app strip_prefix N.eqb Pos.eqb].
    rewrite matches_alt_cat, !matches_lit_cat. cbn [strip_prefix N.eqb Pos.eqb].
    cbn [matches strip_prefix N.eqb Pos.eqb]. done.
Qed.

(** X12: a bold element in text without [<] and [&], with a content that
    holds no line feed, becomes its content between [**]; beyond that the
    text is only changed by the collapsing of blank lines and by
    trimming. *)
Theorem X12_bold_element_is_marked a x b :
  plain a = true → plain x = true → single_line x = true → plain b = true →
  _html_to_rst (a ++ u "<b>" ++ x ++ u "</b>" ++ b)
  = strip (collapse (a ++ u "**" ++ x ++ u "**" ++ b)).
Proof.
  intros Ha Hx Hline Hb.
  pose proof (plain_no_lt _ Ha) as Ha'. pose proof (plain_no_lt _ Hx) as Hx'.
  pose proof (plain_no_lt _ Hb) as Hb'.
  change (u "<b>") with [60; 98; 62]. change (u "</b>") with [60; 47; 98; 62].
  change (u "**") with [42; 42].
  assert (plain (a ++ [42; 42] ++ x ++ [42; 42] ++ b) = true) as Hout.
  { rewrite !plain_app, Ha, Hx, Hb. done. }
  unfold _html_to_rst.
  destruct (a ++ [60; 98; 62] ++ x ++ [60; 47; 98; 62] ++ b) as [|c0 s0] eqn:Hs.
  { by destruct a. }
  rewrite <- Hs. clear Hs c0 s0.
  rewrite (sub_passes_bold TT_RE); [|apply tag_pattern_TT|done|done|done|done|done].
  rewrite (sub_passes_bold P_RE); [|apply tag_pattern_P|done|done|done|done|done].
  rewrite (sub_plain_prefix B_RE) by (done || apply tag_pattern_B).
  rewrite (sub_match B_RE _ _ x b (match_at_bold x b Hline Hx'))
    by (rewrite !length_app; cbn; lia).
  rewrite (sub_plain B_RE _ b) by (done || apply tag_pattern_B).
  change (u "**" ++ x ++ u "**") with ([42; 42] ++ x ++ [42; 42]).
  rewrite <- !app_assoc.
  pose proof (plain_no_lt _ Hout) as Hout'.
  rewrite (sub_plain EM_RE) by (done || apply tag_pattern_EM).
  rewrite (sub_plain UL_RE) by (done || apply tag_pattern_UL).
  rewrite (sub_plain UL_END_RE) by (done || apply tag_pattern_UL_END).
  rewrite (sub_plain LI_RE) by (done || apply tag_pattern_LI).
  rewrite (sub_plain TAG_RE) by (done || apply tag_pattern_TAG).
  by rewrite decode_entities_plain by (by apply no_amp_no_entity, plain_no_amp).
Qed.

Lemma X12_bold_element_is_marked_witness :
  plain (u "see ") = true
  ∧ _html_to_rst (u "see " ++ u "<b>" ++ u "this" ++ u "</b>" ++ u " now")
    = strip (collapse (u "see " ++ u "**" ++ u "this" ++ u "**" ++ u " now")).
Proof.
  split; [reflexivity|].
  apply (X12_bold_element_is_marked (u "see ") (u "this") (u " now")); reflexivity.
Defined.

(** ** Paragraphs *)

(** A substitution that matches neither at the opening nor at the closing
    tag leaves an element in plain text as it is; [o] and [c] are the
    two tags without their [<]. *)
Lemma sub_passes_element r repl a o x c b :
  tag_pattern r →
  (∀ t, match_at r (60 :: o ++ t) = None) →
  (∀ t, match_at r (60 :: c ++ t) = None) →
  60 ∉ a → 60 ∉ o → 60 ∉ x → 60 ∉ c → 60 ∉ b →
  sub r repl (a ++ (60 :: o) ++ x ++ (60 :: c) ++ b)
  = a ++ (60 :: o) ++ x ++ (60 :: c) ++ b.
Proof.
  intros Hr Hopen Hclose Ha Ho Hx Hc Hb. rewrite sub_plain_prefix by done. f_equal.
  cbn [app]. rewrite sub_keep by apply Hopen. f_equal.
  rewrite app_assoc, sub_plain_prefix; [|done|].
  - f_equal. rewrite sub_keep by apply Hclose. f_equal.
    apply sub_plain; [done|]. rewrite elem_of_app. by intros [?|?].
  - rewrite elem_of_app. by intros [?|?].
Qed.

Lemma P_RE_literals :
  P_RE = (Lit [60; 112; 62] +++ Grp (Rep false any_char 0)
          +++ Lit [60; 47; 112; 62])%re.
Proof. reflexivity. Qed.

Lemma forallb_any_char x : forallb any_char x = true.
Proof. by induction x. Qed.

(** The paragraph pattern matches a paragraph whose content holds no
    [<], with the content as its group. *)
Lemma match_at_paragraph x b :
  60 ∉ x →
  match_at P_RE ([60; 112; 62] ++ x ++ [60; 47; 112; 62] ++ b) = Some (x, b).
Proof.
  intros Hx. unfold match_at. rewrite P_RE_literals.
  rewrite matches_lit_cat. cbn [app strip_prefix N.eqb Pos.eqb].
  rewrite matches_lazy_group.
  apply (lazy_group_first any_char _ x [] _ (x, b) []);
    [|apply forallb_any_char|done|].
  - intros g c s Hc. cbn [matches strip_prefix].
    destruct (N.eqb_spec 60 c); [congruence|done].
  - cbn [matches app strip_prefix N.eqb Pos.eqb]. done.
Qed.

(** X13: a paragraph element in text without [<] and [&] becomes its
    content followed by a blank line; beyond that the text is only
    changed by the collapsing of blank lines and by trimming. *)
Theorem X13_paragraph_becomes_its_content a x b :
  plain a = true → plain x = true → plain b = true →
  _html_to_rst (a ++ u "<p>" ++ x ++ u "</p>" ++ b)
  = strip (collapse (a ++ x ++ LF ++ LF ++ b)).
Proof.
  intros Ha Hx Hb.
  pose proof (plain_no_lt _ Ha) as Ha'. pose proof (plain_no_lt _ Hx) as Hx'.
  pose proof (plain_no_lt _ Hb) as Hb'.
  change (u "<p>") with (60 :: [112; 62]). change (u "</p>") with (60 :: [47; 112; 62]).
  assert (plain (a ++ x ++ LF ++ LF ++ b) = true) as Hout.
  { rewrite !plain_app, Ha, Hx, Hb. done. }
  pose proof (plain_no_lt _ Hout) as Hout'.
  unfold _html_to_rst.
  destruct (a ++ (60 :: [112; 62]) ++ x ++ (60 :: [47; 112; 62]) ++ b)
    as [|c0 s0] eqn:Hs.
  { by destruct a. }
  rewrite <- Hs. clear Hs c0 s0.
  rewrite (sub_passes_element TT_RE);
    [|apply tag_pattern_TT|first [done|by apply (bool_decide_unpack _)]..].
  rewrite (sub_plain_prefix P_RE) by (done || apply tag_pattern_P).
  rewrite (sub_match P_RE _ _ x b (match_at_paragraph x b Hx'))
    by (rewrite !length_app; cbn; lia).
  rewrite (sub_plain P_RE _ b) by (done || apply tag_pattern_P).
  rewrite <- !app_assoc.
  rewrite (sub_plain B_RE) by (done || apply tag_pattern_B).
  rewrite (sub_plain EM_RE) by (done || apply tag_pattern_EM).
  rewrite (sub_plain UL_RE) by (done || apply tag_pattern_UL).
  rewrite (sub_plain UL_END_RE) by (done || apply tag_pattern_UL_END).
  rewrite (sub_plain LI_RE) by (done || apply tag_pattern_LI).
  rewrite (sub_plain TAG_RE) by (done || apply tag_pattern_TAG).
  by rewrite decode_entities_plain by (by apply no_amp_no_entity, plain_no_amp).
Qed.

Lemma X13_paragraph_becomes_its_content_witness :
  plain (u "Adds two numbers.") = true
  ∧ _html_to_rst ([] ++ u "<p>" ++ u "Adds two numbers." ++ u "</p>" ++ [])
    = u "Adds two numbers.".
Proof.
  split; [reflexivity|].
  rewrite (X13_paragraph_becomes_its_content [] (u "Adds two numbers.") []);
    reflexivity.
Defined.

(** ** Literal text *)

(** The first candidate of a lazy group, when the rest of the pattern
    matches at no position inside [x]. *)
Lemma lazy_group_first_at p r x : ∀ pre t m l,
  (∀ k g, (k < length x)%nat → matches r g (drop k (x ++ t)) = []) →
  forallb p x = true →
  matches r (pre ++ x) t = m :: l →
  head (flat_map (λ k, matches r (pre ++ take k (x ++ t)) (drop k (x ++ t)))
          (seq 0 (S (span p (x ++ t)))))
  = Some m.
Proof.
  induction x as [|c x IH]; intros pre t m l Hr Hp Hm.
  - cbn [app seq flat_map]. rewrite take_0, drop_0, app_nil_r in *. by rewrite Hm.
  - cbn in Hp. apply andb_true_iff in Hp as [Hc Hp]. cbn [app span]. rewrite Hc.
    change (seq 0 (S (S (span p (x ++ t)))))
      with (0%nat :: seq 1 (S (span p (x ++ t)))).
    cbn [flat_map]. rewrite take_0, drop_0.
    rewrite (Hr 0%nat) by (cbn; lia).
    cbn [app]. rewrite flat_map_seq_shift.
    rewrite <- (IH (pre ++ [c]) t m l); [|..|done| ].
    + f_equal. apply flat_map_ext. intros k. cbn [firstn skipn].
      by rewrite <- app_assoc.
    + intros k g Hk. apply (Hr (S k) g). cbn. lia.
    + by rewrite <- app_assoc.
Qed.

(** In front of the closing tag of a literal, a content in which [</t]
    does not occur leaves no place for the closing tag to match
    earlier. *)
Lemma closing_tt_not_inside x b k g :
  occurs (u "</t") x = false → (k < length x)%nat →
  matches (Lit [60; 47; 116; 116; 62]) g (drop k (x ++ [60; 47; 116; 116; 62] ++ b))
  = [].
Proof.
  intros Ho Hk. cbn [matches].
  destruct (strip_prefix _ _) as [rest|] eqn:Hp; [|done].
  apply strip_prefix_Some in Hp. rewrite drop_app_le in Hp by lia.
  assert (drop k x ≠ []) as Hne.
  { intros H%(f_equal length). rewrite length_drop in H. cbn in H. lia. }
  assert (occurs (u "</t") x = true); [|congruence].
  apply occurs_true. exists (take k x). change (u "</t") with [60; 47; 116].
  destruct (drop k x) as [|c1 [|c2 [|c3 y]]] eqn:Hd; [done|..]; cbn [app] in Hp;
    simplify_eq.
  exists y. rewrite <- (take_drop k x) at 1. by rewrite Hd.
Qed.

Lemma span_class_prefix p x c t :
  forallb p x = true → p c = false → span p (x ++ c :: t) = length x.
Proof.
  intros Hx Hc. induction x as [|d x IH]; cbn in *; [by rewrite Hc|].
  apply andb_true_iff in Hx as [-> Hx]. by rewrite IH.
Qed.

Lemma TT_RE_literals :
  TT_RE = (Lit [60; 116; 116] +++ Rep true not_gt 0 +++ Lit [62]
           +++ Grp (Rep false any_char 0) +++ Lit [60; 47; 116; 116; 62])%re.
Proof. reflexivity. Qed.

(** The literal pattern matches a [tt] element with attributes that hold
    no [>] and a content in which [</t] does not occur, with the content
    as its group. *)
Lemma match_at_literal attrs x b :
  forallb not_gt attrs = true → occurs (u "</t") x = false →
  match_at TT_RE ([60; 116; 116] ++ attrs ++ [62] ++ x
                  ++ [60; 47; 116; 116; 62] ++ b)
  = Some (x, b).
Proof.
  intros Hattrs Hx. unfold match_at. rewrite TT_RE_literals.
  rewrite matches_lit_cat, strip_prefix_app.
  rewrite matches_greedy_class.
  - cbn [app]. rewrite span_class_prefix by done. rewrite drop_app_length.
    rewrite matches_lit_cat. cbn [strip_prefix N.eqb Pos.eqb].
    rewrite matches_lazy_group.
    apply (lazy_group_first_at any_char _ x [] _ (x, b) []);
      [|apply forallb_any_char|].
    + intros k g Hk. by apply closing_tt_not_inside.
    + cbn [matches app strip_prefix N.eqb Pos.eqb]. done.
  - intros c t Hc. rewrite matches_lit_cat. cbn [strip_prefix].
    unfold not_gt in Hc. destruct (N.eqb_spec 62 c) as [<-|]; [done|done].
Qed.

(** X14: a [tt] element in text without [<] and [&], whatever its
    attributes, becomes its content without the tags inside it, between
    double backquotes, provided that what is left of the content holds no
    [<] and no [&]; beyond that the text is only changed by the
    collapsing of blank lines and by trimming. *)
Theorem X14_literal_element_is_quoted a attrs x b :
  plain a = true →
  forallb not_gt attrs = true →
  occurs (u "</t") x = false →
  plain (sub TAG_RE (λ _, []) x) = true →
  plain b = true →
  _html_to_rst (a ++ u "<tt" ++ attrs ++ u ">" ++ x ++ u "</tt>" ++ b)
  = strip (collapse (a ++ u "``" ++ sub TAG_RE (λ _, []) x ++ u "``" ++ b)).
Proof.
  intros Ha Hattrs Hx Hy Hb.
  pose proof (plain_no_lt _ Ha) as Ha'. pose proof (plain_no_lt _ Hb) as Hb'.
  change (u "<tt") with [60; 116; 116]. change (u ">") with [62].
  change (u "</tt>") with [60; 47; 116; 116; 62]. change (u "``") with [96; 96].
  assert (plain (a ++ [96; 96] ++ sub TAG_RE (λ _, []) x ++ [96; 96] ++ b) = true)
    as Hout.
  { rewrite !plain_app, Ha, Hy, Hb. done. }
  pose proof (plain_no_lt _ Hout) as Hout'.
  unfold _html_to_rst.
  destruct (a ++ [60; 116; 116] ++ attrs ++ [62] ++ x ++ [60; 47; 116; 116; 62] ++ b)
    as [|c0 s0] eqn:Hs.
  { by destruct a. }
  rewrite <- Hs. clear Hs c0 s0.
  rewrite (sub_plain_prefix TT_RE) by (done || apply tag_pattern_TT).
  rewrite (sub_match TT_RE _ _ x b (match_at_literal attrs x b Hattrs Hx))
    by (rewrite !length_app; cbn; lia).
  rewrite (sub_plain TT_RE _ b) by (done || apply tag_pattern_TT).
  unfold _replace_tt. change (u "``") with [96; 96]. rewrite <- !app_assoc.
  rewrite (sub_plain P_RE) by (done || apply tag_pattern_P).
  rewrite (sub_plain B_RE) by (done || apply tag_pattern_B).
  rewrite (sub_plain EM_RE) by (done || apply tag_pattern_EM).
  rewrite (sub_plain UL_RE) by (done || apply tag_pattern_UL).
  rewrite (sub_plain UL_END_RE) by (done || apply tag_pattern_UL_END).
  rewrite (sub_plain LI_RE) by (done || apply tag_pattern_LI).
  rewrite (sub_plain TAG_RE) by (done || apply tag_pattern_TAG).
  by rewrite decode_entities_plain by (by apply no_amp_no_entity, plain_no_amp).
Qed.

Lemma X14_literal_element_is_quoted_witness :
  plain (u "See ") = true
  ∧ _html_to_rst (u "See " ++ u "<tt" ++ u " class=literal" ++ u ">"
                  ++ u "<span class=pre>len</span>" ++ u "</tt>" ++ u ".")
    = u "See ``len``.".
Proof.
  split; [reflexivity|].
  rewrite (X14_literal_element_is_quoted (u "See ") (u " class=literal")
             (u "<span class=pre>len</span>") (u "."));
    reflexivity.
Defined.

(** ** Lists *)

Lemma sub_keep_lt r repl t :
  match_at r (60 :: t) = None → sub r repl (60 :: t) = 60 :: sub r repl t.
Proof. apply sub_keep. Qed.

Lemma list_items_cons x xs t :
  list_items (x :: xs) ++ t
  = 60 :: ([108; 105; 62] ++ x) ++ 60 :: [47; 108; 105; 62] ++ list_items xs ++ t.
Proof.
  unfold list_items. cbn [map concat].
  change (u "<li>") with [60; 108; 105; 62]. change (u "</li>") with [60; 47; 108; 105; 62].
  by rewrite <- !app_assoc.
Qed.

(** A substitution that matches neither at [<l] nor at [</l] passes over
    the items of a list. *)
Lemma sub_passes_items r repl xs t :
  tag_pattern r →
  (∀ t, match_at r (60 :: 108 :: t) = None) →
  (∀ t, match_at r (60 :: 47 :: 108 :: t) = None) →
  forallb plain xs = true →
  sub r repl (list_items xs ++ t) = list_items xs ++ sub r repl t.
Proof.
  intros Hr Hopen Hclose. induction xs as [|x xs IH]; [done|]. cbn [forallb].
  intros [Hx Hxs]%andb_true_iff. rewrite !list_items_cons.
  rewrite sub_keep_lt by apply Hopen. rewrite sub_plain_prefix; [|done|].
  - rewrite sub_keep_lt by apply Hclose.
    change (47 :: 108 :: 105 :: 62 :: list_items xs ++ t)
      with ([47; 108; 105; 62] ++ list_items xs ++ t).
    rewrite sub_plain_prefix; [|done|by apply (bool_decide_unpack _)].
    by rewrite IH.
  - apply plain_no_lt in Hx. rewrite elem_of_app, !elem_of_cons, elem_of_nil.
    intros [[?|[?|[?|[]]]]|?]; done.
Qed.

Lemma LI_RE_literals :
  LI_RE = (Lit [60; 108; 105; 62] +++ Grp (Rep false any_char 0)
           +++ Lit [60; 47; 108; 105; 62])%re.
Proof. reflexivity. Qed.

Lemma match_at_item x t :
  60 ∉ x →
  match_at LI_RE (60 :: ([108; 105; 62] ++ x) ++ 60 :: [47; 108; 105; 62] ++ t)
  = Some (x, t).
Proof.
  intros Hx. unfold match_at. rewrite LI_RE_literals.
  rewrite matches_lit_cat. cbn [app strip_prefix N.eqb Pos.eqb].
  rewrite matches_lazy_group.
  apply (lazy_group_first any_char _ x [] _ (x, t) []);
    [|apply forallb_any_char|done|].
  - intros g c s Hc. cbn [matches strip_prefix].
    destruct (N.eqb_spec 60 c); [congruence|done].
  - cbn [matches app strip_prefix N.eqb Pos.eqb]. done.
Qed.

(** The item substitution turns every item into a bullet line. *)
Lemma sub_items xs t :
  forallb plain xs = true →
  sub LI_RE (λ g, LF ++ u "- " ++ g) (list_items xs ++ t)
  = bullet_lines xs ++ sub LI_RE (λ g, LF ++ u "- " ++ g) t.
Proof.
  induction xs as [|x xs IH]; [done|]. cbn [forallb].
  intros [Hx Hxs]%andb_true_iff. rewrite list_items_cons.
  rewrite (sub_match LI_RE _ _ x (list_items xs ++ t)
             (match_at_item x _ (plain_no_lt _ Hx)))
    by (cbn [length app]; rewrite !length_app; cbn [length];
        rewrite ?length_app; lia).
  rewrite IH by done. unfold bullet_lines. cbn [map concat].
  by rewrite <- !app_assoc.
Qed.

Lemma UL_RE_literals :
  UL_RE = (Lit [60; 117; 108] +++ Rep true not_gt 0 +++ Lit [62])%re.
Proof. reflexivity. Qed.

Lemma attribute_text_not_gt attrs :
  attribute_text attrs = true → forallb not_gt attrs = true ∧ 60 ∉ attrs.
Proof.
  unfold attribute_text. rewrite !forallb_forall. intros H. split.
  - intros c Hc. apply H in Hc. by apply andb_true_iff in Hc as [? _].
  - intros Hc%list_elem_of_In. by apply H in Hc.
Qed.

Lemma match_at_list_open attrs t :
  forallb not_gt attrs = true →
  match_at UL_RE ((60 :: [117; 108] ++ attrs ++ [62]) ++ t) = Some ([], t).
Proof.
  intros Hattrs. unfold match_at. rewrite UL_RE_literals.
  rewrite matches_lit_cat. cbn [app strip_prefix N.eqb Pos.eqb].
  rewrite matches_greedy_class.
  - rewrite <- app_assoc. cbn [app]. rewrite span_class_prefix by done.
    rewrite drop_app_length. cbn [matches strip_prefix N.eqb Pos.eqb]. done.
  - intros c s Hc. cbn [matches strip_prefix]. unfold not_gt in Hc.
    destruct (N.eqb_spec 62 c) as [<-|]; done.
Qed.

Lemma plain_bullet_lines xs : forallb plain xs = true → plain (bullet_lines xs) = true.
Proof.
  induction xs as [|x xs IH]; [done|]. cbn [forallb].
  intros [Hx Hxs]%andb_true_iff. unfold bullet_lines in *. cbn [map concat].
  rewrite !plain_app, Hx, IH by done. done.
Qed.

(** A substitution that matches at none of the tags of a list passes over
    the list. *)
Lemma sub_passes_list r repl a attrs xs b :
  tag_pattern r →
  (∀ t, match_at r (60 :: 117 :: t) = None) →
  (∀ t, match_at r (60 :: 108 :: t) = None) →
  (∀ t, match_at r (60 :: 47 :: t) = None) →
  plain a = true → attribute_text attrs = true →
  forallb plain xs = true → plain b = true →
  sub r repl (a ++ (60 :: ([117; 108] ++ attrs ++ [62]))
              ++ list_items xs ++ (60 :: [47; 117; 108; 62]) ++ b)
  = a ++ (60 :: ([117; 108] ++ attrs ++ [62]))
    ++ list_items xs ++ (60 :: [47; 117; 108; 62]) ++ b.
Proof.
  intros Hr Hul Hli Hclose Ha Hattrs Hxs Hb.
  apply attribute_text_not_gt in Hattrs as [_ Hattrs].
  rewrite sub_plain_prefix by (done || by apply plain_no_lt). f_equal.
  cbn [app]. rewrite sub_keep_lt by apply Hul. f_equal.
  change (117 :: 108 :: (attrs ++ [62])
          ++ list_items xs ++ 60 :: 47 :: 117 :: 108 :: 62 :: b)
    with (([117; 108] ++ attrs ++ [62])
          ++ list_items xs ++ 60 :: [47; 117; 108; 62] ++ b).
  rewrite sub_plain_prefix; [|done|].
  - f_equal. rewrite sub_passes_items by (done || intros; apply Hclose). f_equal.
    rewrite sub_keep_lt by apply Hclose. f_equal.
    apply sub_plain; [done|]. apply plain_no_lt in Hb.
    rewrite elem_of_app. intros [?%(bool_decide_pack _)|?]; done.
  - rewrite !elem_of_app.
    intros [?%(bool_decide_pack _)|[?|?%(bool_decide_pack _)]]; done.
Qed.

(** X15: an unordered list in text without [<] and [&], whatever its
    attributes, with items that hold no [<] and no [&], becomes a line
    feed, one line [- item] for each item in the order of the items, and
    a line feed; beyond that the text is only changed by the collapsing
    of blank lines and by trimming. *)
Theorem X15_list_becomes_bullet_lines a attrs xs b :
  plain a = true → attribute_text attrs = true →
  forallb plain xs = true → plain b = true →
  _html_to_rst (a ++ u "<ul" ++ attrs ++ u ">" ++ list_items xs ++ u "</ul>" ++ b)
  = strip (collapse (a ++ LF ++ bullet_lines xs ++ LF ++ b)).
Proof.
  intros Ha Hattrs Hxs Hb.
  pose proof (plain_no_lt _ Ha) as Ha'. pose proof (plain_no_lt _ Hb) as Hb'.
  destruct (attribute_text_not_gt _ Hattrs) as [Hgt Hlt].
  assert (a ++ u "<ul" ++ attrs ++ u ">" ++ list_items xs ++ u "</ul>" ++ b
          = a ++ (60 :: ([117; 108] ++ attrs ++ [62]))
            ++ list_items xs ++ (60 :: [47; 117; 108; 62]) ++ b) as ->.
  { change (u "<ul") with [60; 117; 108]. change (u ">") with [62].
    change (u "</ul>") with [60; 47; 117; 108; 62]. cbn [app].
    by rewrite <- !app_assoc. }
  assert (plain (a ++ LF ++ bullet_lines xs ++ LF ++ b) = true) as Hout.
  { rewrite !plain_app, Ha, Hb, plain_bullet_lines by done. done. }
  pose proof (plain_no_lt _ Hout) as Hout'.
  unfold _html_to_rst.
  destruct (a ++ (60 :: [117; 108] ++ attrs ++ [62]) ++ _) as [|c0 s0] eqn:Hs.
  { by destruct a. }
  rewrite <- Hs. clear Hs c0 s0.
  rewrite (sub_passes_list TT_RE) by (done || apply tag_pattern_TT).
  rewrite (sub_passes_list P_RE) by (done || apply tag_pattern_P).
  rewrite (sub_passes_list B_RE) by (done || apply tag_pattern_B).
  rewrite (sub_passes_list EM_RE) by (done || apply tag_pattern_EM).
  (* the opening tag *)
  rewrite (sub_plain_prefix UL_RE) by (done || apply tag_pattern_UL).
  rewrite (sub_match UL_RE _ _ [] _ (match_at_list_open attrs _ Hgt))
    by (rewrite !length_app; cbn; lia).
  rewrite (sub_passes_items UL_RE) by (done || apply tag_pattern_UL).
  change ([60; 47; 117; 108; 62] ++ b) with (60 :: [47; 117; 108; 62] ++ b).
  rewrite (sub_keep_lt UL_RE) by done.
  rewrite (sub_plain UL_RE _ ([47; 117; 108; 62] ++ b));
    [|apply tag_pattern_UL
     |rewrite elem_of_app, !elem_of_cons, elem_of_nil;
      intros [[?|[?|[?|[?|[]]]]]|?]; done].
  (* the closing tag *)
  rewrite (app_assoc a LF).
  rewrite (sub_plain_prefix UL_END_RE);
    [|apply tag_pattern_UL_END
     |rewrite elem_of_app; intros [?|?%(bool_decide_pack _)]; done].
  rewrite (sub_passes_items UL_END_RE) by (done || apply tag_pattern_UL_END).
  rewrite (sub_match UL_END_RE _ _ [] b) by (done || (cbn; lia)).
  rewrite (sub_plain UL_END_RE _ b) by (done || apply tag_pattern_UL_END).
  (* the items *)
  rewrite (sub_plain_prefix LI_RE);
    [|apply tag_pattern_LI
     |rewrite elem_of_app; intros [?|?%(bool_decide_pack _)]; done].
  rewrite sub_items by done.
  rewrite (sub_plain LI_RE);
    [|apply tag_pattern_LI
     |rewrite elem_of_app; intros [?%(bool_decide_pack _)|?]; done].
  rewrite <- !app_assoc.
  rewrite (sub_plain TAG_RE) by (done || apply tag_pattern_TAG).
  by rewrite decode_entities_plain by (by apply no_amp_no_entity, plain_no_amp).
Qed.

Lemma X15_list_becomes_bullet_lines_witness :
  forallb plain [u "first"; u "second"] = true
  ∧ _html_to_rst (u "Steps:" ++ u "<ul" ++ u " class=simple" ++ u ">"
                  ++ list_items [u "first"; u "second"] ++ u "</ul>" ++ [])
    = u "Steps:" ++ LF ++ LF ++ u "- first" ++ LF ++ u "- second".
Proof.
  split; [reflexivity|].
  rewrite (X15_list_becomes_bullet_lines (u "Steps:") (u " class=simple")
             [u "first"; u "second"] []);
    reflexivity.
Defined.

(** ** Text that UTF-8 can encode *)

Section Encodable.
(** A property of characters that holds of the characters below 256, of
    which the literals of the program are made. *)
Variable P : N → Prop.
Hypothesis P_latin : ∀ c, (c < 256)%N → P c.

Lemma Forall_u s : Forall P (u s).
Proof.
  unfold u. apply Forall_forall. intros c (a & -> & _)%list_elem_of_fmap.
  apply P_latin, N_ascii_bounded.
Qed.

Lemma Forall_times c n : Forall P c → Forall P (times c n).
Proof.
  intros Hc. unfold times. induction n as [|n IH]; cbn; [done|].
  by apply Forall_app.
Qed.

Lemma Forall_join sep parts :
  Forall P sep → Forall (Forall P) parts → Forall P (join sep parts).
Proof.
  intros Hsep. induction 1 as [|p ps Hp Hps IH]; [done|].
  destruct ps as [|q ps]; [done|].
  change (join sep (p :: q :: ps)) with (p ++ sep ++ join sep (q :: ps)).
  rewrite !Forall_app. done.
Qed.

Lemma Forall_replace old new s :
  Forall P new → Forall P s → Forall P (replace old new s).
Proof.
  intros Hnew. unfold replace. generalize 0%nat as n.
  induction s as [|c s IH]; intros n Hs; [done|].
  apply Forall_cons_1 in Hs as Hs'. destruct Hs' as [Hc Hs']. cbn [replace_from].
  destruct n as [|n]; [|by apply IH].
  destruct (strip_prefix old (c :: s)).
  - apply Forall_app. split; [done|]. by apply IH.
  - constructor; [done|]. by apply IH.
Qed.

Lemma Forall_strip s : Forall P s → Forall P (strip s).
Proof.
  intros Hs. destruct (strip_infix s) as (a & b & Heq). rewrite Heq in Hs.
  by apply Forall_app in Hs as [_ [? _]%Forall_app].
Qed.

Lemma Forall_html_to_rst s : Forall P s → Forall P (_html_to_rst s).
Proof.
  intros Hs. unfold _html_to_rst. destruct s as [|c s]; [done|].
  assert (Forall P LF) as HLF by (repeat constructor; by apply P_latin).
  apply Forall_strip, sub_Forall; [intros; by apply Forall_app|].
  unfold decode_entities.
  apply Forall_replace; [apply Forall_u|].
  apply Forall_replace; [apply Forall_u|].
  apply Forall_replace; [repeat constructor; by apply P_latin|].
  apply Forall_replace; [apply Forall_u|].
  apply Forall_replace; [apply Forall_u|].
  apply Forall_replace; [apply Forall_u|].
  apply sub_Forall; [done|].
  apply sub_Forall.
  { intros g Hg. rewrite !Forall_app. split; [done|]. split; [apply Forall_u|done]. }
  apply sub_Forall; [done|]. apply sub_Forall; [done|].
  apply sub_Forall.
  { intros g Hg. rewrite !Forall_app. split; [apply Forall_u|].
    split; [done|apply Forall_u]. }
  apply sub_Forall.
  { intros g Hg. rewrite !Forall_app. split; [apply Forall_u|].
    split; [done|apply Forall_u]. }
  apply sub_Forall.
  { intros g Hg. rewrite !Forall_app. done. }
  apply sub_Forall; [|done].
  intros g Hg. unfold _replace_tt. rewrite !Forall_app.
  split; [apply Forall_u|]. split; [|apply Forall_u]. by apply sub_Forall.
Qed.

Lemma Forall_clean_code s : Forall P s → Forall P (_clean_code s).
Proof. intros Hs. unfold _clean_code. by apply Forall_strip, sub_Forall. Qed.

Lemma Forall_splitlines_from n : ∀ s cur,
  (length s ≤ n)%nat → Forall P cur → Forall P s →
  Forall (Forall P) (splitlines_from cur s).
Proof.
  induction n as [|n IH]; intros s cur Hlen Hcur Hs.
  - destruct s; [|cbn in Hlen; lia]. cbn. destruct cur; [done|].
    constructor; [|done]. by apply Forall_rev.
  - destruct s as [|c s].
    { cbn. destruct cur; [done|]. constructor; [|done]. by apply Forall_rev. }
    apply Forall_cons_1 in Hs as Hs'. destruct Hs' as [Hc Hs'].
    cbn [splitlines_from]. cbn in Hlen. destruct (is_linebreak c).
    + destruct s as [|d s]; [constructor; [by apply Forall_rev|done]|].
      apply Forall_cons_1 in Hs' as Hs''. destruct Hs'' as [Hd Hs''].
      cbn in Hlen.
      destruct ((c =? 13) && (d =? 10))%N; (constructor; [by apply Forall_rev|]).
      * apply IH; [lia|done|done].
      * apply IH; [cbn; lia|done|done].
    + apply IH; [lia|by constructor|done].
Qed.

Lemma Forall_entry_block module_name e n :
  Forall P module_name → Forall P (entry_name e) → Forall P (entry_code e) →
  Forall P (entry_description e) →
  Forall (Forall P) (entry_block module_name e n).
Proof.
  intros Hm Hn Hc Hd. unfold entry_block.
  assert (Forall P (heading_line (entry_name e) n)) as Hh.
  { unfold heading_line. destruct n; rewrite ?Forall_app; [done|].
    split; [done|]. split; [apply Forall_u|]. split; apply Forall_u. }
  constructor.
  { unfold anchor_line. rewrite !Forall_app. split; [apply Forall_u|].
    split; [done|]. split; [apply Forall_u|]. split; [done|].
    split; [|apply Forall_u]. destruct n; [done|].
    apply Forall_app. split; apply Forall_u. }
  constructor; [done|]. constructor; [done|].
  constructor; [apply Forall_times, Forall_u|]. constructor; [done|].
  apply Forall_app. split.
  - unfold code_block. pose proof (Forall_clean_code _ Hc) as Hcode.
    destruct (_clean_code (entry_code e)) as [|c0 code]; [done|].
    constructor; [apply Forall_u|]. constructor; [done|].
    apply Forall_app. split; [|by repeat constructor].
    apply Forall_forall. intros l (l' & -> & Hl')%list_elem_of_fmap.
    apply Forall_app. split; [apply Forall_u|].
    pose proof (Forall_splitlines_from _ _ [] (Nat.le_refl _) (Forall_nil_2 P) Hcode)
      as Hlines.
    rewrite Forall_forall in Hlines. by apply Hlines.
  - unfold paragraph. pose proof (Forall_html_to_rst _ Hd) as Hdesc.
    destruct (_html_to_rst (entry_description e)); [done|].
    constructor; [done|]. by constructor.
Qed.

Lemma Forall_section_shown module_name label entries :
  Forall P module_name → Forall P label →
  Forall (λ e, Forall P (entry_name e) ∧ Forall P (entry_code e)
               ∧ Forall P (entry_description e)) entries →
  Forall (Forall P) (section_shown module_name label entries).
Proof.
  intros Hm Hl Hes. unfold section_shown. destruct entries as [|e0 es]; [done|].
  constructor; [done|]. constructor; [apply Forall_times, Forall_u|].
  constructor; [done|]. apply Forall_concat, Forall_forall.
  intros block (i & e & -> & Hi)%elem_of_lookup_imap.
  rewrite Forall_forall in Hes.
  destruct (Hes e) as (? & ? & ?); [by eapply list_elem_of_lookup_2|].
  by apply Forall_entry_block.
Qed.

Lemma Forall_page_shown module_name title data :
  Forall P module_name → Forall P title →
  Forall P (bundle_description data) →
  Forall (λ e, Forall P (entry_name e) ∧ Forall P (entry_code e)
               ∧ Forall P (entry_description e)) (bundle_entries data) →
  Forall (Forall P) (page_shown module_name title data).
Proof.
  intros Hm Ht Hd Hes. unfold page_shown. apply Forall_app. split.
  - unfold page_head. apply Forall_app. split.
    + pose proof (Forall_times (u "=") (length title) (Forall_u _)).
      repeat (constructor; [done|]). done.
    + pose proof (Forall_html_to_rst _ Hd).
      destruct (_html_to_rst (bundle_description data)); [done|].
      constructor; [done|]. by constructor.
  - apply Forall_concat, Forall_forall.
    intros sec ([k label] & -> & Hs)%list_elem_of_fmap. cbn [fst snd].
    apply Forall_section_shown; [done| |].
    + unfold SECTIONS in Hs. rewrite !elem_of_cons, elem_of_nil in Hs.
      destruct Hs as [[= _ ->]|[[= _ ->]|[[= _ ->]|[[= _ ->]|[[= _ ->]|[[= _ ->]
                     |[[= _ ->]|[[= _ ->]|[[= _ ->]|[[= _ ->]|[]]]]]]]]]]];
        apply Forall_u.
    + unfold entries_of_kind. rewrite Forall_forall in Hes |- *.
      intros e [_ He]%list_elem_of_filter. by apply Hes.
Qed.

Lemma Forall_make_api_index generated :
  Forall (Forall P) generated → Forall P (_make_api_index generated).
Proof.
  intros Hg. unfold _make_api_index.
  apply Forall_join; [repeat constructor; by apply P_latin|].
  rewrite !Forall_app. split; [split|by repeat constructor].
  - pose proof (Forall_times (u "=") 13 (Forall_u _)).
    repeat (constructor; [first [done|apply Forall_u]|]). done.
  - apply Forall_forall. intros l (name & -> & Hn)%list_elem_of_fmap.
    apply Forall_app. split; [apply Forall_u|].
    rewrite Forall_forall in Hg. by apply Hg.
Qed.
End Encodable.

Lemma utf8_encodable_Forall s :
  utf8_encodable s = true ↔ Forall (λ c, is_surrogate c = false) s.
Proof.
  unfold utf8_encodable. rewrite forallb_forall, Forall_forall. split.
  - intros H c Hc%list_elem_of_In. apply negb_true_iff. by apply H.
  - intros H c Hc%list_elem_of_In. apply negb_true_iff. by apply H.
Qed.

Lemma latin_no_surrogate c : (c < 256)%N → is_surrogate c = false.
Proof.
  intros Hc. unfold is_surrogate. apply andb_false_iff. left.
  apply N.leb_gt. lia.
Qed.

(** The page of a bundle of the input schema can be encoded when the
    name and the title of the module and the texts of the bundle can. *)
Lemma page_encodable module_name title data page :
  wf_bundle data = true → bundle_encodable data = true →
  utf8_encodable module_name = true → utf8_encodable title = true →
  _make_module_rst module_name title data = Ok page →
  utf8_encodable page = true.
Proof.
  intros Hwf Henc Hm Ht. unfold _make_module_rst.
  rewrite module_lines_shown by done. cbn [mbind result_bind]. intros Hpage.
  assert (page = join LF (page_shown module_name title data) ++ LF) as ->
    by congruence.
  clear Hpage. apply andb_true_iff in Henc as [Hd Hes].
  apply utf8_encodable_Forall. apply utf8_encodable_Forall in Hm, Ht, Hd.
  apply Forall_app. split; [|repeat constructor].
  apply Forall_join; [by repeat constructor|].
  apply Forall_page_shown; [apply latin_no_surrogate|done..|].
  apply Forall_forall. intros e He%list_elem_of_In.
  apply (proj1 (forallb_forall _ _) Hes) in He.
  apply andb_true_iff in He as [[Hn Hc]%andb_true_iff Hde].
  by rewrite <- !utf8_encodable_Forall.
Qed.

(** ** A run without failures *)

(** The loop over modules whose exporter succeeds, whose JSON is a
    bundle of the input schema and whose page can be encoded and
    written: every step adds a page. *)
Lemma main_loop_clean w (data : module_cfg → json) modules : ∀ st,
  (∀ m, m ∈ modules →
     subprocess_run w (mod_name m) = ProcExit 0
     ∧ out_file_exists w (mod_name m) = true
     ∧ load_json w (mod_name m) = Ok (data m)
     ∧ wf_bundle (data m) = true
     ∧ bundle_encodable (data m) = true
     ∧ utf8_encodable (mod_name m) = true
     ∧ utf8_encodable (mod_title m) = true
     ∧ write_error w (rst_path (mod_name m)) = None) →
  ∃ pages,
    Forall2 (λ m page,
               _make_module_rst (mod_name m) (mod_title m) (data m) = Ok page)
            modules pages
    ∧ main_loop w modules st
      = Ok {| generated := generated st ++ (mod_name <$> modules);
              errors := errors st;
              files := files st
                       ++ zip (rst_path <$> (mod_name <$> modules)) pages;
              reported := reported st |}.
Proof.
  induction modules as [|m modules IH]; intros st Hall.
  - exists []. split; [constructor|]. cbn. rewrite !app_nil_r. by destruct st.
  - destruct (Hall m) as (Hrun & Hfile & Hload & Hwf & Henc & Hn & Ht & Hopen);
      [by left|].
    destruct (_make_module_rst (mod_name m) (mod_title m) (data m))
      as [page|e] eqn:Hpage.
    2: { unfold _make_module_rst in Hpage. by rewrite module_lines_wf in Hpage. }
    destruct (IH (add_generated (mod_name m) page st)) as (pages & Hpages & Hloop).
    { intros m' Hm'. apply Hall. by right. }
    exists (page :: pages). split; [by constructor|].
    cbn [main_loop]. unfold process_module, _run_jsondoc.
    rewrite Hrun, Hfile. cbn [Z.eqb negb mbind result_bind].
    rewrite Hload, Hpage. cbn [mbind result_bind]. unfold write_text.
    rewrite Hopen, (page_encodable _ _ _ _ Hwf Henc Hn Ht Hpage).
    cbn [mbind result_bind]. rewrite Hloop.
    cbn [add_generated generated errors files reported fmap list_fmap zip zip_with].
    unfold rst_path. by rewrite <- !app_assoc.
Qed.

(** X16: when for every configured module the exporter ends with return
    code 0, its output file exists, the JSON loaded from it is a bundle
    of the input schema, no text of the bundle and neither the name nor
    the title of the module holds a surrogate, and the file system lets
    the page and the index be opened for writing, [main] returns 0: every
    module is generated, in the configured order, none is recorded as
    failed, nothing is reported, and the files written are the page of
    each module, assembled from its bundle, and then the index of all the
    modules. *)
Theorem X16_run_without_failures_returns_zero w (data : module_cfg → json) modules :
  (∀ m, m ∈ modules →
     subprocess_run w (mod_name m) = ProcExit 0
     ∧ out_file_exists w (mod_name m) = true
     ∧ load_json w (mod_name m) = Ok (data m)
     ∧ wf_bundle (data m) = true
     ∧ bundle_encodable (data m) = true
     ∧ utf8_encodable (mod_name m) = true
     ∧ utf8_encodable (mod_title m) = true
     ∧ write_error w (rst_path (mod_name m)) = None) →
  write_error w (u "api/index.rst") = None →
  ∃ pages,
    Forall2 (λ m page,
               _make_module_rst (mod_name m) (mod_title m) (data m) = Ok page)
            modules pages
    ∧ main_on modules w
      = Ok (0%Z,
            {| generated := mod_name <$> modules;
               errors := [];
               files := zip (rst_path <$> (mod_name <$> modules)) pages
                        ++ [(u "api/index.rst",
                             _make_api_index (mod_name <$> modules))];
               reported := [] |}).
Proof.
  intros Hall Hopen.
  destruct (main_loop_clean w data modules initial_state Hall)
    as (pages & Hpages & Hloop).
  exists pages. split; [done|]. unfold main_on. rewrite Hloop.
  cbn [mbind result_bind generated initial_state app]. unfold write_text.
  rewrite Hopen.
  assert (utf8_encodable (_make_api_index (mod_name <$> modules)) = true) as ->.
  { apply utf8_encodable_Forall, Forall_make_api_index; [apply latin_no_surrogate|].
    apply Forall_forall. intros name (m & -> & Hm)%list_elem_of_fmap.
    apply utf8_encodable_Forall. by destruct (Hall m Hm) as (_ & _ & _ & _ & _ & ? & _). }
  done.
Qed.

Lemma X16_run_without_failures_returns_zero_witness :
  exit_status (main_on [definitions_module; io_module]
                 {| subprocess_run := λ _, ProcExit 0;
                    out_file_exists := λ _, true;
                    load_json := λ _, Ok sample_bundle;
                    write_error := λ _, None |}) = 0%Z.
Proof.
  destruct (X16_run_without_failures_returns_zero
              {| subprocess_run := λ _, ProcExit 0;
                 out_file_exists := λ _, true;
                 load_json := λ _, Ok sample_bundle;
                 write_error := λ _, None |}
              (λ _, sample_bundle) [definitions_module; io_module])
    as (pages & _ & ->); [|reflexivity|reflexivity].
  intros m Hm. repeat split; try reflexivity.
  - rewrite !elem_of_cons, elem_of_nil in Hm. by destruct Hm as [->|[->|[]]].
  - rewrite !elem_of_cons, elem_of_nil in Hm. by destruct Hm as [->|[->|[]]].
Defined.
